(** * Clinic management system: chatbot route, appointment lifecycle,
      slot computation and role guards

    The backend route [routes/chatbot.ts] and the React dashboards are
    embedded as pure functions over explicit state.  A JavaScript string is
    the list of its UTF-16 code units; the document collection behind the
    Mongoose model [ChatMessage] is the list of its rows in insertion
    order. *)

From Stdlib Require Import List String Ascii Bool Arith NArith ZArith Lia.
From Stdlib Require Import DecimalString Sorted Permutation.
Import ListNotations.

Set Implicit Arguments.

(* ================================================================== *)
(** * JavaScript strings *)
(* ================================================================== *)

Module Js.

(** A string value: its UTF-16 code units. *)
Definition jsstring := list N.

(** Literals are written as Rocq strings (UTF-8 bytes) and decoded. *)
Fixpoint utf16_of_utf8 (bs : list N) : jsstring :=
  match bs with
  | [] => []
  | b0 :: rest =>
      if (b0 <? 128)%N then b0 :: utf16_of_utf8 rest
      else if (b0 <? 224)%N then
        match rest with
        | b1 :: rest1 =>
            ((b0 - 192) * 64 + (b1 - 128))%N :: utf16_of_utf8 rest1
        | [] => [b0]
        end
      else if (b0 <? 240)%N then
        match rest with
        | b1 :: b2 :: rest2 =>
            ((b0 - 224) * 4096 + (b1 - 128) * 64 + (b2 - 128))%N
              :: utf16_of_utf8 rest2
        | _ => [b0]
        end
      else
        match rest with
        | b1 :: b2 :: b3 :: rest3 =>
            let cp := ((b0 - 240) * 262144 + (b1 - 128) * 4096
                       + (b2 - 128) * 64 + (b3 - 128))%N in
            let v := (cp - 65536)%N in
            (55296 + v / 1024)%N :: (56320 + v mod 1024)%N
              :: utf16_of_utf8 rest3
        | _ => [b0]
        end
  end.

Definition js (s : string) : jsstring :=
  utf16_of_utf8 (map N_of_ascii (list_ascii_of_string s)).

Definition eqb (a b : jsstring) : bool :=
  if list_eq_dec N.eq_dec a b then true else false.

(** [String.prototype.startsWith] and [String.prototype.includes]. *)
Fixpoint startsWith (s w : jsstring) {struct w} : bool :=
  match w, s with
  | [], _ => true
  | _ :: _, [] => false
  | a :: w', b :: s' => (a =? b)%N && startsWith s' w'
  end.

Fixpoint includes (s w : jsstring) : bool :=
  startsWith s w
  || match s with
     | [] => false
     | _ :: s' => includes s' w
     end.

(** [w] occurs in [s] as a contiguous run of code units. *)
Definition Contains (s w : jsstring) : Prop :=
  exists pre post, s = pre ++ w ++ post.

(** The characters matched by the regular expression class [\s]. *)
Definition isWhitespace (c : N) : bool :=
  ((9 <=? c) && (c <=? 13) || (c =? 32) || (c =? 160) || (c =? 5760)
   || (8192 <=? c) && (c <=? 8202) || (c =? 8232) || (c =? 8233)
   || (c =? 8239) || (c =? 8287) || (c =? 12288) || (c =? 65279))%N.

Fixpoint dropWhile (p : N -> bool) (s : jsstring) : jsstring :=
  match s with
  | [] => []
  | c :: s' => if p c then dropWhile p s' else s
  end.

(** validator.js [ltrim], [rtrim] and [trim] with no [chars] argument:
    [str.replace(/^\s+/g, '')], then the loop that walks back from the last
    character while [/\s/] matches it. *)
Definition ltrim (s : jsstring) : jsstring := dropWhile isWhitespace s.
Definition rtrim (s : jsstring) : jsstring :=
  rev (dropWhile isWhitespace (rev s)).
Definition trim (s : jsstring) : jsstring := rtrim (ltrim s).

(** Nothing but whitespace (the empty string included). *)
Definition whitespaceOnly (s : jsstring) : Prop :=
  Forall (fun c => isWhitespace c = true) s.

(** [String(n)] for a non-negative integer. *)
Definition ofN (n : N) : jsstring :=
  js (NilEmpty.string_of_uint (N.to_uint n)).

(** A lower-casing that is right on ASCII text; used to run examples. *)
Definition asciiToLowerCase (s : jsstring) : jsstring :=
  map (fun c => if ((65 <=? c) && (c <=? 90))%N then (c + 32)%N else c) s.

End Js.

(* ================================================================== *)
(** * routes/chatbot.ts *)
(* ================================================================== *)

Module Chatbot.
Import Js.

Definition greetings : list jsstring :=
  [ js "Hi, I'm here with you. How are you feeling right now?";
    js "Hello. Thanks for reaching out—what's on your mind?";
    js "Hey, I'm listening. Want to tell me a bit more about it?" ].

Definition anxiety : list jsstring :=
  [ js "It sounds like anxiety is showing up. Try taking 5 deep breaths: inhale for 4 counts, hold for 4, exhale for 6. What usually helps you feel a little safer?";
    js "Those anxious waves can feel intense. Try a slow exhale (6 counts). What triggered it today?" ].

Definition lowMood : list jsstring :=
  [ js "I'm sorry it's heavy. Small steps help—maybe a glass of water or a short stretch. What would feel kind to yourself right now?";
    js "Feeling low can be exhausting. You matter. Would writing down one worry help externalize it?" ].

Definition stress : list jsstring :=
  [ js "Stress piles up fast. Let’s prioritize: what is one small task you can do next?";
    js "Your nervous system might need a micro-break. 5 slow breaths, shoulders down, unclench jaw." ].

Definition sleep : list jsstring :=
  [ js "Sleep troubles are tough. Try dimming lights, avoiding screens 30 minutes before bed, and a calm breath pattern (4-4-6).";
    js "If your mind is racing, a quick brain dump on paper can help before bed." ].

Definition anger : list jsstring :=
  [ js "Anger is a valid signal. If safe, step back, cool water on wrists, and name what boundary was crossed.";
    js "Let’s channel it safely: paced breathing and a short walk can release tension." ].

Definition panic : list jsstring :=
  [ js "Panic can feel scary but it will pass. Look around and name 5 things you can see. I’m here with you.";
    js "Place a hand on your chest and feel the rise and fall—let your exhale be longer than your inhale." ].

Definition relationship : list jsstring :=
  [ js "Relationships are complex. Would you like to try an “I feel… when… I need…” statement?";
    js "Can we clarify the need underneath the conflict? What are you hoping to feel more of?" ].

Definition workStudy : list jsstring :=
  [ js "Work/study stress is real. Let’s chunk it: pick a 15‑minute focus block, then a 2‑minute break.";
    js "Try the 1–3 priority list for today: one must‑do, two nice‑to‑do." ].

Definition physical : list jsstring :=
  [ js "Headaches/fever can make everything harder. Hydrate, rest your eyes, and notice any triggers. If symptoms persist or worsen, consider medical advice. Emotionally—what’s the biggest worry behind it?";
    js "Your body is asking for care. Gentle rest, water, and light food may help. If pain or fever continues, a healthcare check is wise. How are you feeling emotionally about it?" ].

Definition generic : list jsstring :=
  [ js "I hear you. Try taking 5 deep breaths: inhale for 4 counts, hold for 4, exhale for 6. If it helps, share a bit more about what happened today so we can unpack it together.";
    js "Thanks for opening up. Let's take one small step: what is one thing within your control right now?";
    js "You don't have to carry this alone. Would naming your top concern in one sentence help us focus?";
    js "Let's slow it down together—long exhale, relaxed shoulders. What support would feel most helpful right now?" ].

Definition crisis : list jsstring :=
  [ js "If you’re thinking about harming yourself or others, your safety matters most. Please contact local emergency services or a trusted person right now. If available, consider your country’s crisis hotline." ].

(** The value of an array read out of range. *)
Definition undefined : jsstring := [].

Section Responder.

(** [String.prototype.toLowerCase] (full Unicode case mapping) and the
    outcome of [Math.floor(Math.random() * n)] are supplied by the
    JavaScript runtime. *)
Variable toLowerCase : jsstring -> jsstring.
Variable randomFloor : nat -> nat.

Definition pick (arr : list jsstring) : jsstring :=
  nth (randomFloor (List.length arr)) arr undefined.

Definition has (text : jsstring) (k : list jsstring) : bool :=
  existsb (fun w => includes text w) k.

(** [message || ''] is [message] itself on strings. *)
Definition generateLocalResponse (message : jsstring) : jsstring :=
  let text := toLowerCase message in
  let has := has text in
  if has [js "suicide"; js "self harm"; js "hurt myself"; js "end it";
          js "kill myself"]
  then nth 0 crisis undefined
  else if has [js "panic"; js "panic attack"; js "heart racing"]
  then pick panic
  else if has [js "anxiety"; js "anxious"; js "worry"; js "worried"]
  then pick anxiety
  else if has [js "depress"; js "sad"; js "down"; js "empty"]
  then pick lowMood
  else if has [js "stress"; js "overwhelmed"; js "overwhelm"; js "burnout"]
  then pick stress
  else if has [js "sleep"; js "insomnia"; js "can't sleep"; js "cant sleep"]
  then pick sleep
  else if has [js "angry"; js "anger"; js "rage"]
  then pick anger
  else if has [js "partner"; js "relationship"; js "breakup"; js "friend";
               js "family"]
  then pick relationship
  else if has [js "work"; js "office"; js "deadline"; js "study"; js "exam";
               js "college"; js "school"]
  then pick workStudy
  else if has [js "fever"; js "headache"; js "pain"; js "sick"; js "ill";
               js "nausea"]
  then pick physical
  else if has [js "hi"; js "hello"; js "hey"]
  then pick greetings
  else pick generic.

End Responder.

(** ** The classifier in the words of the specification

    Ordered keyword sets, the first matching one decides, the generic
    prompts are the default. *)

Inductive Bucket :=
| Crisis | Panic | Anxiety | LowMood | Stress | Sleep | Anger
| Relationship | WorkStudy | Physical | Greeting | Generic.

Definition bucketOrder : list Bucket :=
  [Crisis; Panic; Anxiety; LowMood; Stress; Sleep; Anger; Relationship;
   WorkStudy; Physical; Greeting].

Definition crisisKeywords : list jsstring :=
  [js "suicide"; js "self harm"; js "hurt myself"; js "end it";
   js "kill myself"].

Definition keywordsOf (b : Bucket) : list jsstring :=
  match b with
  | Crisis => crisisKeywords
  | Panic => [js "panic"; js "panic attack"; js "heart racing"]
  | Anxiety => [js "anxiety"; js "anxious"; js "worry"; js "worried"]
  | LowMood => [js "depress"; js "sad"; js "down"; js "empty"]
  | Stress => [js "stress"; js "overwhelmed"; js "overwhelm"; js "burnout"]
  | Sleep => [js "sleep"; js "insomnia"; js "can't sleep"; js "cant sleep"]
  | Anger => [js "angry"; js "anger"; js "rage"]
  | Relationship =>
      [js "partner"; js "relationship"; js "breakup"; js "friend";
       js "family"]
  | WorkStudy =>
      [js "work"; js "office"; js "deadline"; js "study"; js "exam";
       js "college"; js "school"]
  | Physical =>
      [js "fever"; js "headache"; js "pain"; js "sick"; js "ill";
       js "nausea"]
  | Greeting => [js "hi"; js "hello"; js "hey"]
  | Generic => []
  end.

Definition responsesOf (b : Bucket) : list jsstring :=
  match b with
  | Crisis => crisis
  | Panic => panic
  | Anxiety => anxiety
  | LowMood => lowMood
  | Stress => stress
  | Sleep => sleep
  | Anger => anger
  | Relationship => relationship
  | WorkStudy => workStudy
  | Physical => physical
  | Greeting => greetings
  | Generic => generic
  end.

(** Some keyword of the bucket occurs in the text. *)
Definition Matches (text : jsstring) (b : Bucket) : Prop :=
  exists w, In w (keywordsOf b) /\ Contains text w.

(** [FirstMatch text order b]: [b] is the first bucket of [order] that
    matches [text], or [Generic] when none does. *)
Inductive FirstMatch (text : jsstring) : list Bucket -> Bucket -> Prop :=
| FirstMatch_none : FirstMatch text [] Generic
| FirstMatch_here : forall b rest,
    Matches text b -> FirstMatch text (b :: rest) b
| FirstMatch_later : forall b rest b',
    ~ Matches text b -> FirstMatch text rest b' ->
    FirstMatch text (b :: rest) b'.

(** The fixed safety message. *)
Definition safetyMessage : jsstring :=
  js "If you’re thinking about harming yourself or others, your safety matters most. Please contact local emergency services or a trusted person right now. If available, consider your country’s crisis hotline.".

(** ** The ChatMessage collection *)

Definition UserId := N.

Inductive MessageType := user_ | ai.

(** One document of models/ChatMessage, with the fields the route writes
    and reads. *)
Record ChatMessage := {
  user : UserId;
  sessionId : jsstring;
  message : jsstring;
  messageType : MessageType;
  createdAt : N
}.

Definition Collection := list ChatMessage.

(** ** POST /send *)

(** A field of the JSON body: a string or some other JSON value. *)
Inductive JsonField :=
| JString (s : jsstring)
| JOther.

(** The request body; the client's [sendMessage] types it as
    [{ message: string; sessionId?: string }], an absent field is
    [None]. *)
Record SendBody := {
  body_message : option jsstring;
  body_sessionId : option JsonField
}.

Record ValidationError := {
  path : jsstring;
  msg : jsstring
}.

Inductive Response :=
| Status400 (errors : list ValidationError)
| Json (aiMessage : ChatMessage) (session : jsstring)
| NextError.

(** Modelled from the spec: on an error the handler only calls
    [next(error)]; the error handler that answers is not in the sources.
    "Unexpected errors logged and surfaced as generic 500." *)
Definition errorStatus : nat := 500.

(** The status of the response: [res.status(400)], [res.json] and, for
    [next(error)], the status modelled as [errorStatus]. *)
Definition status (r : Response) : nat :=
  match r with
  | Status400 _ => 400
  | Json _ _ => 200
  | NextError => errorStatus
  end.

(** [body('message').trim()]: the sanitizer runs on the field as a string
    (an absent field is the empty string) and writes the result back into
    [req.body]. *)
Definition sanitizedMessage (b : SendBody) : jsstring :=
  trim (match body_message b with Some s => s | None => [] end).

(** [.notEmpty()] *)
Definition notEmpty (s : jsstring) : bool :=
  negb (Nat.eqb (List.length s) 0).

Definition messageError : ValidationError :=
  {| path := js "message"; msg := js "Message cannot be empty." |}.

Definition sessionIdError : ValidationError :=
  {| path := js "sessionId"; msg := js "Session ID must be a string." |}.

(** [body('sessionId').optional().isString()] *)
Definition sessionIdErrors (b : SendBody) : list ValidationError :=
  match body_sessionId b with
  | None => []
  | Some (JString _) => []
  | Some JOther => [sessionIdError]
  end.

Definition validationResult (b : SendBody) : list ValidationError :=
  (if notEmpty (sanitizedMessage b) then [] else [messageError])
  ++ sessionIdErrors b.

(** [existingSessionId || `session_${Date.now()}`]: the empty string is
    falsy.  A non-string value never gets past the validation. *)
Definition sessionIdOr (existing : option JsonField) (now : N) : jsstring :=
  match existing with
  | Some (JString (c :: s)) => c :: s
  | _ => js "session_" ++ ofN now
  end.

(** The clock readings of one call: [Date.now()] and the two creation
    stamps. *)
Record Clock := {
  dateNow : N;
  userSavedAt : N;
  aiSavedAt : N
}.

Section Route.

Variable toLowerCase : jsstring -> jsstring.
Variable randomFloor : nat -> nat.

(** Whether [save()] of a document resolves (the schema of
    models/ChatMessage and the database write); it rejects otherwise. *)
Variable saves : ChatMessage -> bool.

Definition save (db : Collection) (doc : ChatMessage)
  : option Collection :=
  if saves doc then Some (db ++ [doc]) else None.

(** The handler behind [requireUser]; [uid] is [req.user._id]. *)
Definition send (clock : Clock) (uid : UserId) (b : SendBody)
    (db : Collection) : Response * Collection :=
  match validationResult b with
  | (_ :: _) as errors => (Status400 errors, db)
  | [] =>
      let message := sanitizedMessage b in
      let sessionId := sessionIdOr (body_sessionId b) (dateNow clock) in
      let userMessage :=
        {| user := uid; sessionId := sessionId; message := message;
           messageType := user_; createdAt := userSavedAt clock |} in
      match save db userMessage with
      | None => (NextError, db)
      | Some db1 =>
          let aiResponse :=
            generateLocalResponse toLowerCase randomFloor message in
          let aiMessage :=
            {| user := uid; sessionId := sessionId; message := aiResponse;
               messageType := ai; createdAt := aiSavedAt clock |} in
          match save db1 aiMessage with
          | None => (NextError, db1)
          | Some db2 => (Json aiMessage sessionId, db2)
          end
      end
  end.

End Route.

(** ** GET /history and GET /sessions *)

(** [.sort({ key: -1 })] as an insertion sort, largest key first.  The
    database leaves the order of rows with equal keys open, in each query
    anew; the function fixes one (rows of equal key come out in the reverse
    of their order in the input).  What depends on the order of such rows
    is stated for keys that differ. *)
Section SortDesc.
Variable A : Type.
Variable key : A -> N.

Fixpoint insertDesc (x : A) (l : list A) : list A :=
  match l with
  | [] => [x]
  | y :: l' =>
      if (key y <? key x)%N then x :: l else y :: insertDesc x l'
  end.

Fixpoint sortDesc (l : list A) : list A :=
  match l with
  | [] => []
  | x :: l' => insertDesc x (sortDesc l')
  end.
End SortDesc.

(** The query string after [parseInt], for a [page] and a [limit] that
    parse to natural numbers; they default to 1 and 50.  The handler does
    not validate them: a negative value or [NaN] goes to [.limit] and
    [.skip] as it is, and what the driver answers then is not in the
    sources, so such queries are outside this record ([ChatbotMore.queryOf]
    is the way in from the values of [parseInt]).  The response's
    [totalPages], a quotient of floating-point numbers, is left out. *)
Record HistoryQuery := {
  q_sessionId : option jsstring;
  q_page : option N;
  q_limit : option N
}.

Record HistoryResponse := {
  messages : list ChatMessage;
  currentPage : N;
  total : nat
}.

(** [{ user: req.user._id }], with [sessionId] added when the query has a
    truthy one. *)
Definition matchesFilter (uid : UserId) (sid : option jsstring)
    (m : ChatMessage) : bool :=
  (user m =? uid)%N
  && match sid with
     | Some (c :: s) => Js.eqb (sessionId m) (c :: s)
     | _ => true
     end.

Definition find (uid : UserId) (sid : option jsstring) (db : Collection)
  : list ChatMessage :=
  filter (matchesFilter uid sid) db.

(** [.limit(n)]: zero means no limit. *)
Definition limitTo (n : N) (l : list ChatMessage) : list ChatMessage :=
  if (n =? 0)%N then l else firstn (N.to_nat n) l.

(** [None] when the skip [(page - 1) * limit] is negative, which the
    database rejects. *)
Definition history (uid : UserId) (q : HistoryQuery) (db : Collection)
  : option HistoryResponse :=
  let page := match q_page q with Some p => p | None => 1%N end in
  let limit := match q_limit q with Some l => l | None => 50%N end in
  let found := find uid (q_sessionId q) db in
  if ((page =? 0) && negb (limit =? 0))%N then None
  else
    let skip := N.to_nat ((page - 1) * limit) in
    let page_rows := limitTo limit (skipn skip (sortDesc createdAt found)) in
    Some {| messages := rev page_rows;
            currentPage := page;
            total := List.length found |}.

Record SessionSummary := {
  _id : jsstring;
  lastMessage : jsstring;
  lastTimestamp : N
}.

(** The rows of one user. *)
Definition ownedBy (uid : UserId) (m : ChatMessage) : bool :=
  (user m =? uid)%N.

(** The session ids of a list of rows, each once, by first occurrence. *)
Fixpoint sessionIds (seen : list jsstring) (l : list ChatMessage)
  : list jsstring :=
  match l with
  | [] => []
  | m :: l' =>
      if existsb (Js.eqb (sessionId m)) seen then sessionIds seen l'
      else sessionId m :: sessionIds (sessionId m :: seen) l'
  end.

(** [$last] of a group: the last row with that session id in the order in
    which the rows reach [$group], taken to be the order of the list.  The
    pipeline has no [$sort] before [$group], so that order is the
    database's choice: which row of the session it is is not fixed by the
    code. *)
Definition lastOf (sid : jsstring) (l : list ChatMessage)
  : option ChatMessage :=
  List.find (fun m => Js.eqb (sessionId m) sid) (rev l).

Definition group (l : list ChatMessage) : list SessionSummary :=
  flat_map
    (fun sid =>
       match lastOf sid l with
       | Some m => [ {| _id := sid; lastMessage := message m;
                        lastTimestamp := createdAt m |} ]
       | None => []
       end)
    (sessionIds [] l).

(** [$match], [$group], [$sort] *)
Definition sessions (uid : UserId) (db : Collection)
  : list SessionSummary :=
  sortDesc lastTimestamp (group (find uid None db)).

(** Every operation of the router, and its effect on the collection. *)
Inductive Operation :=
| Send (clock : Clock) (uid : UserId) (b : SendBody)
| History (uid : UserId) (q : HistoryQuery)
| Sessions (uid : UserId).

Section Router.
Variable toLowerCase : jsstring -> jsstring.
Variable randomFloor : nat -> nat.
Variable saves : ChatMessage -> bool.

Definition run (op : Operation) (db : Collection) : Collection :=
  match op with
  | Send clock uid b =>
      snd (send toLowerCase randomFloor saves clock uid b db)
  | History _ _ => db
  | Sessions _ => db
  end.
End Router.

(** Concrete requests, to run the route on. *)
Module Examples.

Definition clock0 : Clock :=
  {| dateNow := 1700000000000; userSavedAt := 1700000000001;
     aiSavedAt := 1700000000002 |}.

Definition lastIndex (n : nat) : nat := n - 1.

Definition allSaved (_ : ChatMessage) : bool := true.

(** [{ message: " hi ", sessionId: "" }] *)
Definition paddedBody : SendBody :=
  {| body_message := Some (js " hi ");
     body_sessionId := Some (JString []) |}.

(** [{ message: "I feel anxious", sessionId: "s1" }] *)
Definition plainBody : SendBody :=
  {| body_message := Some (js "I feel anxious");
     body_sessionId := Some (JString (js "s1")) |}.

Definition row (u : UserId) (sid text : string) (t : MessageType)
    (at_ : N) : ChatMessage :=
  {| user := u; sessionId := js sid; message := js text;
     messageType := t; createdAt := at_ |}.

(** Two users, three sessions. *)
Definition db0 : Collection :=
  [ row 1%N "s1" "hello" user_ 10%N;
    row 1%N "s1" "Hello." ai 11%N;
    row 2%N "s2" "i am sad" user_ 12%N;
    row 2%N "s2" "You matter." ai 13%N;
    row 1%N "s3" "work" user_ 14%N ].

Definition allRows : HistoryQuery :=
  {| q_sessionId := None; q_page := None; q_limit := None |}.

(** The first page of user 1, oldest row first. *)
Definition history1 : HistoryResponse :=
  {| messages := [ row 1%N "s1" "hello" user_ 10%N;
                   row 1%N "s1" "Hello." ai 11%N;
                   row 1%N "s3" "work" user_ 14%N ];
     currentPage := 1; total := 3 |}.

Definition crisisText : jsstring :=
  js "I am SAD and worried about work, I want to END IT".

Definition worriedText : jsstring := js "Worried about my EXAM".

(** The rows [plainBody] adds for user 1. *)
Definition plainUserRow : ChatMessage :=
  {| user := 1%N; sessionId := js "s1"; message := js "I feel anxious";
     messageType := user_; createdAt := 1700000000001 |}.

Definition plainAiRow : ChatMessage :=
  {| user := 1%N; sessionId := js "s1"; message := nth 1 anxiety undefined;
     messageType := ai; createdAt := 1700000000002 |}.

End Examples.

End Chatbot.

(* ================================================================== *)
(** * Appointments *)
(* ================================================================== *)

Module Appointments.
Import Js.

Inductive Status := pending | confirmed | completed | cancelled.

Definition Status_eqb (a b : Status) : bool :=
  match a, b with
  | pending, pending | confirmed, confirmed
  | completed, completed | cancelled, cancelled => true
  | _, _ => false
  end.

(** An appointment document: the fields the two dashboards display
    ([_id], [date], [startTime], [endTime], [status], [amount],
    [sessionType], [sessionMode], [rating]) and the references and review
    text of the data model.  A date is a day number, a time the minute of
    the day. *)
Record Appointment := {
  _id : N;
  user : N;
  therapist : N;
  date : N;
  startTime : nat;
  endTime : nat;
  status : Status;
  sessionType : jsstring;
  sessionMode : jsstring;
  amount : N;
  rating : option N;
  review : option jsstring
}.

Definition Store := list Appointment.

Definition lookup (id : N) (store : Store) : option Appointment :=
  List.find (fun a => (_id a =? id)%N) store.

(** ** pages/user/UserDashboard.tsx *)

(** [!appointment.rating]: no rating, or the number zero. *)
Definition unrated (a : Appointment) : bool :=
  match rating a with
  | None => true
  | Some r => (r =? 0)%N
  end.

(** The condition under which the Rate button is rendered:
    [appointment.status === 'completed' && !appointment.rating]. *)
Definition showsRateButton (a : Appointment) : bool :=
  Status_eqb (status a) completed && unrated a.

Record RatingDialog := {
  ratingDialogOpen : bool;
  ratingValue : option N;
  reviewText : jsstring;
  selectedAppointmentId : option N
}.

Definition handleOpenRatingDialog (appointmentId : N) : RatingDialog :=
  {| ratingDialogOpen := true; ratingValue := None; reviewText := [];
     selectedAppointmentId := Some appointmentId |}.

Definition handleCloseRatingDialog : RatingDialog :=
  {| ratingDialogOpen := false; ratingValue := None; reviewText := [];
     selectedAppointmentId := None |}.

(** The request [handleSubmitRating] sends, if any:
    [if (!selectedAppointmentId || !ratingValue) return;] *)
Definition handleSubmitRating (d : RatingDialog)
  : option (N * N * jsstring) :=
  match selectedAppointmentId d, ratingValue d with
  | Some id, Some r =>
      if (r =? 0)%N then None else Some (id, r, reviewText d)
  | _, _ => None
  end.

(** ** pages/therapist/TherapistDashboard.tsx *)

(** The Update Status button is rendered when
    [appointment.status === 'pending']. *)
Definition showsUpdateStatus (a : Appointment) : bool :=
  Status_eqb (status a) pending.

Record StatusDialog := {
  selectedAppointment : option Appointment;
  statusDialogOpen : bool
}.

Inductive DialogEvent :=
| ClickUpdateStatus (a : Appointment)
| ClickConfirm
| ClickCancelAppointment
| ClickCancel
| RequestSucceeded.

(** The request [handleStatusUpdate(appointmentId, status)] sends. *)
Definition StatusRequest := (N * Status)%type.

(** One event on the status dialog: the next state and the request sent.
    The Update Status button exists only on the rows that show it; the two
    action buttons call [handleStatusUpdate] only [if (selectedAppointment)],
    and the dialog's buttons exist only while it is open. *)
Definition dialogStep (d : StatusDialog) (e : DialogEvent)
  : StatusDialog * option StatusRequest :=
  match e with
  | ClickUpdateStatus a =>
      if showsUpdateStatus a
      then ({| selectedAppointment := Some a; statusDialogOpen := true |},
            None)
      else (d, None)
  | ClickConfirm =>
      match statusDialogOpen d, selectedAppointment d with
      | true, Some a => (d, Some (_id a, confirmed))
      | _, _ => (d, None)
      end
  | ClickCancelAppointment =>
      match statusDialogOpen d, selectedAppointment d with
      | true, Some a => (d, Some (_id a, cancelled))
      | _, _ => (d, None)
      end
  | ClickCancel =>
      ({| selectedAppointment := selectedAppointment d;
          statusDialogOpen := false |}, None)
  | RequestSucceeded =>
      ({| selectedAppointment := None; statusDialogOpen := false |}, None)
  end.

Definition initialDialog : StatusDialog :=
  {| selectedAppointment := None; statusDialogOpen := false |}.

(** The requests sent along a sequence of events. *)
Fixpoint dialogRequests (d : StatusDialog) (es : list DialogEvent)
  : list (Appointment * Status) :=
  match es with
  | [] => []
  | e :: es' =>
      let (d', req) := dialogStep d e in
      match req, selectedAppointment d with
      | Some (_, target), Some a => (a, target) :: dialogRequests d' es'
      | _, _ => dialogRequests d' es'
      end
  end.

(** ** The appointment endpoints *)

(** The lifecycle in the words of the specification: "pending → confirmed
    → completed; pending/confirmed → cancelled". *)
Inductive Transition : Status -> Status -> Prop :=
| T_confirm : Transition pending confirmed
| T_complete : Transition confirmed completed
| T_cancel_pending : Transition pending cancelled
| T_cancel_confirmed : Transition confirmed cancelled.

Inductive Reply :=
| Ok
| Created
| BadRequest
| NotFound
| Conflict.

Definition code (r : Reply) : nat :=
  match r with
  | Ok => 200
  | Created => 201
  | BadRequest => 400
  | NotFound => 404
  | Conflict => 409
  end.

Definition update (id : N) (f : Appointment -> Appointment)
    (store : Store) : Store :=
  map (fun a => if (_id a =? id)%N then f a else a) store.

Definition setStatus (s : Status) (a : Appointment) : Appointment :=
  {| _id := _id a; user := user a; therapist := therapist a;
     date := date a; startTime := startTime a; endTime := endTime a;
     status := s; sessionType := sessionType a;
     sessionMode := sessionMode a; amount := amount a;
     rating := rating a; review := review a |}.

Definition setReview (r : N) (text : jsstring) (a : Appointment)
  : Appointment :=
  {| _id := _id a; user := user a; therapist := therapist a;
     date := date a; startTime := startTime a; endTime := endTime a;
     status := status a; sessionType := sessionType a;
     sessionMode := sessionMode a; amount := amount a;
     rating := Some r; review := Some text |}.

(** Modelled from the spec: the status-update handler behind
    PUT /therapist/appointments/:id/status is not in the sources.  A
    therapist moves one of their own appointments along the lifecycle
    "pending → confirmed → completed; pending/confirmed → cancelled";
    any other request is refused. *)
Definition statusAllowed (from to : Status) : bool :=
  match from, to with
  | pending, confirmed => true
  | confirmed, completed => true
  | pending, cancelled => true
  | confirmed, cancelled => true
  | _, _ => false
  end.

(** Modelled from the spec: the handler itself; a therapist reaches only
    their own appointments, "not-found as 404". *)
Definition updateAppointmentStatus (therapistId id : N) (to : Status)
    (store : Store) : Reply * Store :=
  match lookup id store with
  | None => (NotFound, store)
  | Some a =>
      if negb (therapist a =? therapistId)%N then (NotFound, store)
      else if statusAllowed (status a) to
      then (Ok, update id (setStatus to) store)
      else (BadRequest, store)
  end.

(** Modelled from the spec: the handler behind PUT /appointments/:id/cancel
    is not in the sources.  The user or the therapist of an appointment
    cancels it while it is pending or confirmed. *)
Definition cancelAppointment (actor id : N) (store : Store)
  : Reply * Store :=
  match lookup id store with
  | None => (NotFound, store)
  | Some a =>
      if negb ((user a =? actor) || (therapist a =? actor))%N
      then (NotFound, store)
      else if statusAllowed (status a) cancelled
      then (Ok, update id (setStatus cancelled) store)
      else (BadRequest, store)
  end.

(** Modelled from the spec: the handler behind
    POST /user/appointments/:id/review is not in the sources.  "Appointment
    review can be submitted only once per completed appointment": the
    user's own appointment, completed and without a rating, receives the
    rating and the review text. *)
Definition reviewAppointment (userId id r : N) (text : jsstring)
    (store : Store) : Reply * Store :=
  match lookup id store with
  | None => (NotFound, store)
  | Some a =>
      if negb (user a =? userId)%N then (NotFound, store)
      else
        match status a, rating a with
        | completed, None => (Ok, update id (setReview r text) store)
        | _, _ => (BadRequest, store)
        end
  end.

(** What one operation can do to an appointment that exists. *)
Inductive Change (a : Appointment) : Appointment -> Prop :=
| Unchanged : Change a a
| Moved : forall to,
    statusAllowed (status a) to = true -> Change a (setStatus to a)
| Reviewed : forall r text,
    status a = completed -> rating a = None ->
    Change a (setReview r text a).

(** ** Booking *)

Record BookingRequest := {
  req_user : N;
  therapistId : N;
  req_date : N;
  req_startTime : nat;
  duration : nat;
  req_sessionType : jsstring;
  req_sessionMode : jsstring
}.

Definition active (a : Appointment) : bool :=
  match status a with
  | pending | confirmed => true
  | completed | cancelled => false
  end.

(** The key of the uniqueness constraint: therapist, date and slot. *)
Definition sameSlot (r : BookingRequest) (a : Appointment) : bool :=
  ((therapist a =? therapistId r) && (date a =? req_date r))%N
  && Nat.eqb (startTime a) (req_startTime r).

Definition freshId (store : Store) : N :=
  N.succ (fold_right N.max 0%N (map _id store)).

Definition newAppointment (r : BookingRequest) (rate : N) (store : Store)
  : Appointment :=
  {| _id := freshId store; user := req_user r;
     therapist := therapistId r; date := req_date r;
     startTime := req_startTime r;
     endTime := req_startTime r + duration r;
     status := pending; sessionType := req_sessionType r;
     sessionMode := req_sessionMode r;
     amount := (rate * N.of_nat (duration r) / 60)%N;
     rating := None; review := None |}.

(** Modelled from the spec: the handler behind POST /appointments/book and
    the appointment collection are not in the sources.  The write is one
    data-layer operation that checks uniqueness as it inserts: it refuses
    with a conflict when a pending or confirmed appointment holds the same
    therapist, date and slot, and appends the new pending appointment
    otherwise. *)
Definition insertUnique (r : BookingRequest) (rate : N) (store : Store)
  : Reply * Store :=
  if existsb (fun a => active a && sameSlot r a) store
  then (Conflict, store)
  else (Created, store ++ [newAppointment r rate store]).

(** Modelled from the spec: every operation on the appointment
    collection, "created by user booking action; status transitions driven
    by therapist action or cancellation", and the review. *)
Inductive Operation :=
| Book (r : BookingRequest) (rate : N)
| UpdateStatus (therapistId id : N) (to : Status)
| Cancel (actor id : N)
| Review (userId id r : N) (text : jsstring).

Definition step (op : Operation) (store : Store) : Reply * Store :=
  match op with
  | Book r rate => insertUnique r rate store
  | UpdateStatus t id to => updateAppointmentStatus t id to store
  | Cancel actor id => cancelAppointment actor id store
  | Review u id r text => reviewAppointment u id r text store
  end.

Definition run (ops : list Operation) (store : Store) : Store :=
  fold_left (fun st op => snd (step op st)) ops store.

(** Equal in every field but the rating and the review. *)
Definition sameButReview (a b : Appointment) : Prop :=
  _id a = _id b /\ user a = user b /\ therapist a = therapist b
  /\ date a = date b /\ startTime a = startTime b
  /\ endTime a = endTime b /\ status a = status b
  /\ sessionType a = sessionType b /\ sessionMode a = sessionMode b
  /\ amount a = amount b.

(** ** Two booking requests in flight *)

(** Modelled from the spec: "single-request-per-handler execution", the two
    handlers interleave between their steps, each of which is atomic: the
    handler first validates the request (no access to the collection), then
    performs the write [insertUnique], then has responded. *)
Inductive Phase :=
| Received
| Validated
| Responded (r : Reply).

Record Racing := {
  store : Store;
  first : Phase;
  second : Phase
}.

(** Modelled from the spec: one step of a booking handler. *)
Definition advance (r : BookingRequest) (rate : N) (ph : Phase)
    (st : Store) : Phase * Store :=
  match ph with
  | Received => (Validated, st)
  | Validated =>
      let (reply, st') := insertUnique r rate st in (Responded reply, st')
  | Responded _ => (ph, st)
  end.

(** Modelled from the spec: a schedule names the handler that takes the
    next step, [true] the first, [false] the second. *)
Definition schedStep (r1 r2 : BookingRequest) (rate : N) (s : Racing)
    (turn : bool) : Racing :=
  if turn then
    let (ph, st) := advance r1 rate (first s) (store s) in
    {| store := st; first := ph; second := second s |}
  else
    let (ph, st) := advance r2 rate (second s) (store s) in
    {| store := st; first := first s; second := ph |}.

(** Modelled from the spec: the two handlers run from a collection [st]
    under a schedule. *)
Definition race (r1 r2 : BookingRequest) (rate : N) (st : Store)
    (schedule : list bool) : Racing :=
  fold_left (schedStep r1 r2 rate) schedule
    {| store := st; first := Received; second := Received |}.

Definition turns (who : bool) (schedule : list bool) : nat :=
  count_occ bool_dec schedule who.

(** The two requests name the same therapist, date and slot. *)
Definition sameBooking (r1 r2 : BookingRequest) : Prop :=
  therapistId r1 = therapistId r2 /\ req_date r1 = req_date r2
  /\ req_startTime r1 = req_startTime r2.

Definition slotFree (r : BookingRequest) (st : Store) : Prop :=
  existsb (fun a => active a && sameSlot r a) st = false.

(** The steps a handler still has to take. *)
Definition needed (ph : Phase) : nat :=
  match ph with
  | Received => 2
  | Validated => 1
  | Responded _ => 0
  end.

Definition unresponded (ph : Phase) : Prop :=
  match ph with
  | Responded _ => False
  | _ => True
  end.

(** The states a race passes through from a collection [st] in which the
    slot is free: nobody has written, or one handler has and holds
    [Created], the other not having written or holding [Conflict]. *)
Inductive RaceInv (r1 r2 : BookingRequest) (rate : N) (st : Store)
  : Racing -> Prop :=
| NoneWrote : forall p1 p2,
    unresponded p1 -> unresponded p2 ->
    RaceInv r1 r2 rate st {| store := st; first := p1; second := p2 |}
| FirstWrote : forall p2,
    unresponded p2 ->
    RaceInv r1 r2 rate st
      {| store := st ++ [newAppointment r1 rate st];
         first := Responded Created; second := p2 |}
| SecondWrote : forall p1,
    unresponded p1 ->
    RaceInv r1 r2 rate st
      {| store := st ++ [newAppointment r2 rate st];
         first := p1; second := Responded Created |}
| FirstWon :
    RaceInv r1 r2 rate st
      {| store := st ++ [newAppointment r1 rate st];
         first := Responded Created; second := Responded Conflict |}
| SecondWon :
    RaceInv r1 r2 rate st
      {| store := st ++ [newAppointment r2 rate st];
         first := Responded Conflict; second := Responded Created |}.

(** Appointments to run the endpoints on: therapist 7, users 1 and 2,
    day 4 (a Monday). *)
Module Examples.

Definition appt (id u : N) (from to : nat) (s : Status)
    (r : option N) : Appointment :=
  {| _id := id; user := u; therapist := 7; date := 4;
     startTime := from; endTime := to; status := s;
     sessionType := js "individual"; sessionMode := js "video";
     amount := 50; rating := r; review := None |}.

Definition store0 : Store :=
  [ appt 1 1 540 600 pending None;
    appt 2 2 600 660 cancelled None;
    appt 3 1 900 960 completed None ].

Definition request (u : N) : BookingRequest :=
  {| req_user := u; therapistId := 7; req_date := 4;
     req_startTime := 600; duration := 60;
     req_sessionType := js "individual";
     req_sessionMode := js "video" |}.

Definition reviewed : Appointment :=
  setReview 5 (js "Very helpful") (appt 3 1 900 960 completed None).

End Examples.

End Appointments.

(* ================================================================== *)
(** * Availability and slots *)
(* ================================================================== *)

Module Slots.
Import Appointments.

(** components/TherapistAvailability.tsx: the days of the week and one
    day's availability, [{ start, end, available }]; the times, written
    'HH:mm' there, are minutes of the day here. *)
Inductive Day :=
| monday | tuesday | wednesday | thursday | friday | saturday | sunday.

Definition daysOfWeek : list Day :=
  [monday; tuesday; wednesday; thursday; friday; saturday; sunday].

Record DayAvailability := {
  start : nat;
  end_ : nat;
  available : bool
}.

Definition Availability := Day -> DayAvailability.

Definition defaultAvailability : Availability :=
  fun d =>
    match d with
    | saturday | sunday =>
        {| start := 600; end_ := 900; available := false |}
    | _ => {| start := 540; end_ := 1020; available := true |}
    end.

(** The day of the week of a day number; day 0 is a Thursday. *)
Definition dayOf (onDate : N) : Day :=
  nth (N.to_nat ((onDate + 3) mod 7)) daysOfWeek monday.

(** components/AppointmentBooking.tsx: [TimeSlot]. *)
Record TimeSlot := {
  slotStart : nat;
  slotEnd : nat
}.

(** Modelled from the spec: the handler behind
    GET /appointments/available-slots/:therapistId is not in the sources.
    "Enumerate fixed-duration slots across the day's enabled window,
    exclude slots overlapping existing appointments", the existing
    appointments being the confirmed and pending ones of the therapist on
    that date. *)
Definition enumerate (from to len : nat) : list TimeSlot :=
  map (fun i => {| slotStart := from + i * len;
                   slotEnd := from + (i + 1) * len |})
      (seq 0 ((to - from) / len)).

(** Modelled from the spec: a slot is excluded by a confirmed or pending
    appointment of the therapist on the date whose time window it
    overlaps. *)
Definition blocks (therapistId onDate : N) (slot : TimeSlot)
    (a : Appointment) : bool :=
  ((therapist a =? therapistId) && (date a =? onDate))%N
  && active a
  && (startTime a <? slotEnd slot) && (slotStart slot <? endTime a).

(** Modelled from the spec: the slots of the day's window, if the day is
    enabled, that no existing appointment excludes. *)
Definition getAvailableSlots (cfg : Availability) (len : nat)
    (therapistId onDate : N) (store : Store) : list TimeSlot :=
  let day := cfg (dayOf onDate) in
  if available day then
    filter
      (fun slot => negb (existsb (blocks therapistId onDate slot) store))
           (enumerate (start day) (end_ day) len)
  else [].

(** components/AppointmentBooking.tsx: the part of the component state
    that [loadAvailableSlots] writes. *)
Record BookingState := {
  availableSlots : list TimeSlot;
  loading : bool
}.

Definition initialBooking : BookingState :=
  {| availableSlots := []; loading := false |}.

(** [loadAvailableSlots]: nothing happens without a therapist and a valid
    date; otherwise the slots of the response replace the list, or, when
    the request fails, a toast is shown and the list stays.  [api] is
    [appointmentAPI.getAvailableSlots], [None] its failure. *)
Definition loadAvailableSlots (therapist selectedDate : option N)
    (api : N -> N -> option (list TimeSlot)) (st : BookingState)
  : BookingState :=
  match therapist, selectedDate with
  | Some t, Some d =>
      match api t d with
      | Some slots => {| availableSlots := slots; loading := false |}
      | None => {| availableSlots := availableSlots st; loading := false |}
      end
  | _, _ => st
  end.

(** Modelled from the spec: the endpoint as the client sees it, answering
    with the computed list. *)
Definition slotsEndpoint (cfg : Availability) (len : nat) (store : Store)
  : N -> N -> option (list TimeSlot) :=
  fun therapistId onDate =>
    Some (getAvailableSlots cfg len therapistId onDate store).

(** Two time windows overlap when some minute lies in both. *)
Definition Overlap (s1 e1 s2 e2 : nat) : Prop :=
  exists t, s1 <= t < e1 /\ s2 <= t < e2.

End Slots.

(* ================================================================== *)
(** * Role guards *)
(* ================================================================== *)

Module Guards.
Import Js.

(** ** components/PrivateRoute.tsx *)

Inductive Rendered :=
| Navigate (to : jsstring)
| children.

(** The parsed [localStorage] entry [user]; [userType] is [None] when the
    parsed value has no such property or one that is not a string (such a
    value takes the [default] branch of the [switch], like a missing
    one). *)
Record StoredUser := { userType : option jsstring }.

Definition truthy (s : option jsstring) : bool :=
  match s with
  | Some (_ :: _) => true
  | _ => false
  end.

(** [roles.includes(userRole)] *)
Definition rolesInclude (roles : list jsstring) (r : jsstring) : bool :=
  existsb (Js.eqb r) roles.

(** [token] is [localStorage.getItem('token')]; [stored] is the entry
    [user], absent (or empty) or parsed.  [JSON.parse] has no [try] around
    it: an entry that is not JSON makes the component throw, an outcome
    that is not in [Rendered]; [ClientSession.renderPrivateRoute] adds
    it. *)
Definition PrivateRoute (token : option jsstring)
    (stored : option StoredUser) (roles : list jsstring) : Rendered :=
  match truthy token, stored with
  | true, Some u =>
      let userRole := userType u in
      if negb (truthy userRole)
         || negb (match userRole with
                  | Some r => rolesInclude roles r
                  | None => false
                  end)
      then
        match userRole with
        | Some r =>
            if Js.eqb r (js "user") then Navigate (js "/user")
            else if Js.eqb r (js "therapist") then Navigate (js "/therapist")
            else if Js.eqb r (js "admin") then Navigate (js "/admin")
            else Navigate (js "/login")
        | None => Navigate (js "/login")
        end
      else children
  | _, _ => Navigate (js "/login")
  end.

(** ** The server side *)

Inductive Role := user | therapist | admin.

Record Principal := {
  principalId : N;
  role : Role
}.

(** The admin endpoints the client calls (services/api: [adminAPI]). *)
Inductive AdminEndpoint :=
| getUsers
| getTherapists
| verifyTherapist (id : N)
| toggleUserStatus (id : N) (userType : jsstring)
| getAnalytics
| getChatbotAnalytics
| changePassword
| updateUser (id : N)
| updateTherapist (id : N)
| deleteUser (id : N)
| deleteTherapist (id : N).

Section Server.

(** The state behind the admin endpoints, the verification of a bearer
    token and the handlers of the endpoints. *)
Variable State : Type.
Variable verify : jsstring -> option Principal.
Variable handler : AdminEndpoint -> Principal -> State -> nat * State.

(** Modelled from the spec: the authentication middleware
    (middleware/auth) and the admin router are not in the sources.  "JWT
    bearer auth", "auth failures as 401", "a user-role token accessing an
    admin-only endpoint receives 403/401": a request without a valid
    token is refused with 401, one whose token carries another role with
    403, and only then does the handler run. *)
Definition requireRole (required : Role) (authorization : option jsstring)
  : Principal + nat :=
  match authorization with
  | None => inr 401
  | Some token =>
      match verify token with
      | None => inr 401
      | Some p =>
          match role p, required with
          | user, user | therapist, therapist | admin, admin => inl p
          | _, _ => inr 403
          end
      end
  end.

(** Modelled from the spec: an admin endpoint behind the guard. *)
Definition adminRoute (e : AdminEndpoint) (authorization : option jsstring)
    (st : State) : nat * State :=
  match requireRole admin authorization with
  | inl p => handler e p st
  | inr refused => (refused, st)
  end.

End Server.

(** A server to run: the token is the role's name, the state counts the
    handled requests. *)
Module Examples.

Definition verify (token : jsstring) : option Principal :=
  if Js.eqb token (js "user")
  then Some {| principalId := 1; role := user |}
  else if Js.eqb token (js "admin")
  then Some {| principalId := 2; role := admin |}
  else None.

Definition handler (_ : AdminEndpoint) (_ : Principal) (st : nat)
  : nat * nat := (200, S st).

End Examples.

End Guards.

(* ================================================================== *)
(** * More of routes/chatbot.ts: what the properties below speak of *)
(* ================================================================== *)

Module ChatbotMore.
Import Js Chatbot.

Definition memb (x : jsstring) (l : list jsstring) : bool :=
  existsb (Js.eqb x) l.

(** The canned lists that the responder picks from at random. *)
Definition pickedLists : list (list jsstring) :=
  [panic; anxiety; lowMood; stress; sleep; anger; relationship; workStudy;
   physical; greetings; generic].

(** The value of [parseInt(x as string)]: [NaN], or an integer (the
    integers beyond 2^53, which JavaScript rounds, aside). *)
Inductive Parsed :=
| NaN
| Int (z : Z).

(** [req.query] of GET /history after the [parseInt]s of the handler; an
    absent [page] or [limit] is [None] and gets its default. *)
Record ParsedQuery := {
  p_sessionId : option jsstring;
  p_page : option Parsed;
  p_limit : option Parsed
}.

(** A parameter that is absent or parses to a natural number. *)
Definition natural (x : option Parsed) : option (option N) :=
  match x with
  | None => Some None
  | Some (Int z) => if (0 <=? z)%Z then Some (Some (Z.to_N z)) else None
  | Some NaN => None
  end.

(** The query as [history] takes it, for a [page] and a [limit] that are
    natural numbers.  The handler passes on any other value unchecked,
    [?limit=-5] as [.limit(-5)]; what the driver answers then is not in the
    sources, and no fact below speaks of such a query. *)
Definition queryOf (pq : ParsedQuery) : option HistoryQuery :=
  match natural (p_page pq), natural (p_limit pq) with
  | Some page, Some limit =>
      Some {| q_sessionId := p_sessionId pq; q_page := page;
              q_limit := limit |}
  | _, _ => None
  end.

(** The query [?sessionId=..&page=..&limit=..]. *)
Definition pageQuery (sid : option jsstring) (page limit : Z)
  : ParsedQuery :=
  {| p_sessionId := sid; p_page := Some (Int page);
     p_limit := Some (Int limit) |}.

(** The rows of page [p] as the database hands them over, newest first
    (the handler reverses them for the response). *)
Definition pageNewestFirst (uid : UserId) (sid : option jsstring)
    (limit : Z) (db : Collection) (p : nat) : list ChatMessage :=
  match queryOf (pageQuery sid (Z.of_nat p) limit) with
  | Some q =>
      match history uid q db with
      | Some r => rev (messages r)
      | None => []
      end
  | None => []
  end.

(** Oldest first, and newest first. *)
Definition Chronological (l : list ChatMessage) : Prop :=
  StronglySorted (fun a b => (createdAt a <= createdAt b)%N) l.

Definition NewestFirst (A : Type) (key : A -> N) (l : list A) : Prop :=
  StronglySorted (fun a b => (key b <= key a)%N) l.

(** The row the handler builds for the user's message and for the reply. *)
Definition userRow (clock : Clock) (uid : UserId) (b : SendBody)
  : ChatMessage :=
  {| user := uid;
     sessionId := sessionIdOr (body_sessionId b) (dateNow clock);
     message := sanitizedMessage b;
     messageType := user_; createdAt := userSavedAt clock |}.

Definition aiRow (toLowerCase : jsstring -> jsstring)
    (randomFloor : nat -> nat) (clock : Clock) (uid : UserId)
    (b : SendBody) : ChatMessage :=
  {| user := uid;
     sessionId := sessionIdOr (body_sessionId b) (dateNow clock);
     message :=
       generateLocalResponse toLowerCase randomFloor (sanitizedMessage b);
     messageType := ai; createdAt := aiSavedAt clock |}.

(** A body that carries on the session of an earlier response. *)
Definition followUp (text sid : jsstring) : SendBody :=
  {| body_message := Some text; body_sessionId := Some (JString sid) |}.

Module Examples.
Import Chatbot.Examples.

(** A database that stores the user's rows and fails on the replies. *)
Definition userRowsOnly (doc : ChatMessage) : bool :=
  match messageType doc with
  | user_ => true
  | ai => false
  end.

(** [{ message: "I feel anxious" }] and the clock of a later call. *)
Definition newBody : SendBody :=
  {| body_message := Some (js "I feel anxious"); body_sessionId := None |}.

Definition clock1 : Clock :=
  {| dateNow := 1700000060000; userSavedAt := 1700000060001;
     aiSavedAt := 1700000060002 |}.

Definition newSession : jsstring := js "session_1700000000000".

(** [?page=1&limit=2] and what user 1 gets for it. *)
Definition firstTwo : ParsedQuery :=
  {| p_sessionId := None; p_page := Some (Int 1); p_limit := Some (Int 2) |}.

Definition firstTwoQuery : HistoryQuery :=
  {| q_sessionId := None; q_page := Some 1%N; q_limit := Some 2%N |}.

Definition latestTwo : HistoryResponse :=
  {| messages := [ row 1%N "s1" "Hello." ai 11%N;
                   row 1%N "s3" "work" user_ 14%N ];
     currentPage := 1; total := 3 |}.

End Examples.

End ChatbotMore.

(* ================================================================== *)
(** * components/AIChatbot.tsx *)
(* ================================================================== *)

Module ChatClient.
Import Js.

(** An entry of the transcript: [{ _id, sender, message }]. *)
Record ChatMessage := {
  _id : jsstring;
  sender : Chatbot.MessageType;
  message : jsstring
}.

Record State := {
  input : jsstring;
  messages : list ChatMessage;
  loading : bool;
  sessionId : option jsstring
}.

Definition initial : State :=
  {| input := []; messages := []; loading := false; sessionId := None |}.

(** What [chatbotAPI.sendMessage] rejects with: no response at all, or a
    response whose data may hold a [message] and an [errors] array. *)
Inductive ApiError :=
| NoResponse
| ResponseData (message : option jsstring)
    (errors : option (list Chatbot.ValidationError)).

(** What the call resolves to, [{ aiMessage, sessionId }] with the
    document's [_id], or rejects with. *)
Inductive ApiResult :=
| Resolved (aiId : jsstring) (aiMessage : Chatbot.ChatMessage)
    (newSessionId : jsstring)
| Rejected (err : ApiError).

(** [Array.prototype.join] *)
Fixpoint join (sep : jsstring) (l : list jsstring) : jsstring :=
  match l with
  | [] => []
  | [x] => x
  | x :: rest => x ++ sep ++ join sep rest
  end.

(** The text shown for a failed call. *)
Definition errorMessage (err : ApiError) : jsstring :=
  match err with
  | ResponseData (Some (c :: m)) _ => c :: m
  | ResponseData _ (Some errors) =>
      join (js ", ") (map Chatbot.msg errors)
  | _ => js "An unexpected error occurred. Please try again."
  end.

(** [String.prototype.trim] strips the same characters as the class [\s]:
    white space and line terminators. *)
Definition blank (s : jsstring) : bool :=
  match trim s with
  | [] => true
  | _ :: _ => false
  end.

(** The body of the request: [{ message: currentInput, sessionId }]; an
    undefined [sessionId] is left out of the JSON. *)
Definition requestBody (st : State) : Chatbot.SendBody :=
  {| Chatbot.body_message := Some (input st);
     Chatbot.body_sessionId := option_map Chatbot.JString (sessionId st) |}.

(** The request [handleSend] sends, if any: [if (!input.trim()) return;] *)
Definition requestOf (st : State) : option Chatbot.SendBody :=
  if blank (input st) then None else Some (requestBody st).

(** [handleSend], from the click to the end of the [finally] block; the
    field and the button are disabled while the call is in flight.  [now]
    and [later] are the two readings of [Date.now()], [api] is
    [chatbotAPI.sendMessage]. *)
Definition handleSend (now later : N)
    (api : Chatbot.SendBody -> ApiResult) (st : State) : State :=
  if blank (input st) then st
  else
    let userMessage :=
      {| _id := js "user-" ++ ofN now; sender := Chatbot.user_;
         message := input st |} in
    match api (requestBody st) with
    | Resolved aiId aiMessage newSessionId =>
        let formattedAiMessage :=
          {| _id := aiId; sender := Chatbot.messageType aiMessage;
             message := Chatbot.message aiMessage |} in
        {| input := [];
           messages := (messages st ++ [userMessage])
                       ++ [formattedAiMessage];
           loading := false;
           sessionId := if Guards.truthy (sessionId st) then sessionId st
                        else Some newSessionId |}
    | Rejected err =>
        let errorResponseMessage :=
          {| _id := js "error-" ++ ofN later; sender := Chatbot.ai;
             message := js "Sorry, an error occurred: "
                        ++ errorMessage err |} in
        {| input := [];
           messages := (messages st ++ [userMessage])
                       ++ [errorResponseMessage];
           loading := false;
           sessionId := sessionId st |}
    end.

(** ** The component against the route *)

(** One turn of a conversation: what the user typed, the clock readings of
    the browser and of the server, and the [_id] the reply is stored
    under. *)
Record Turn := {
  typed : jsstring;
  clickedAt : N;
  failedAt : N;
  serverClock : Chatbot.Clock;
  replyId : jsstring
}.

Section Conversation.

Variable toLowerCase : jsstring -> jsstring.
Variable randomFloor : nat -> nat.
Variable saves : Chatbot.ChatMessage -> bool.

(** What the global error handler of the server answers; it is not in the
    sources. *)
Variable errorBody : ApiError.

(** The route as the component's [api], for the signed-in user [uid], and
    the collection it leaves. *)
Definition serverSend (t : Turn) (uid : Chatbot.UserId)
    (db : Chatbot.Collection) (b : Chatbot.SendBody)
  : ApiResult * Chatbot.Collection :=
  match Chatbot.send toLowerCase randomFloor saves (serverClock t) uid b db
  with
  | (Chatbot.Json a sid, db') => (Resolved (replyId t) a sid, db')
  | (Chatbot.Status400 errors, db') =>
      (Rejected (ResponseData None (Some errors)), db')
  | (Chatbot.NextError, db') => (Rejected errorBody, db')
  end.

(** The user types [typed t] and sends it. *)
Definition turn (uid : Chatbot.UserId) (s : State * Chatbot.Collection)
    (t : Turn) : State * Chatbot.Collection :=
  let (st, db) := s in
  let typing :=
    {| input := typed t; messages := messages st; loading := loading st;
       sessionId := sessionId st |} in
  (handleSend (clickedAt t) (failedAt t)
     (fun b => fst (serverSend t uid db b)) typing,
   match requestOf typing with
   | Some b => snd (serverSend t uid db b)
   | None => db
   end).

Definition converse (uid : Chatbot.UserId) (turns : list Turn)
    (st : State) (db : Chatbot.Collection) : State * Chatbot.Collection :=
  fold_left (turn uid) turns (st, db).

End Conversation.

(** The transcript and the rows stored so far are in step, and the rows
    are rows of [uid] in the session the component holds. *)
Definition InStep (uid : Chatbot.UserId) (st : State)
    (added : Chatbot.Collection) : Prop :=
  List.length (messages st) = List.length added
  /\ ((sessionId st = None /\ added = [])
      \/ exists s, s <> [] /\ sessionId st = Some s
                   /\ Forall (fun m => Chatbot.sessionId m = s
                                       /\ Chatbot.user m = uid) added).

Module Examples.

(** Three turns, the second one blank. *)
Definition turns : list Turn :=
  [ {| typed := js "hello"; clickedAt := 1700000000000;
       failedAt := 1700000000005;
       serverClock := Chatbot.Examples.clock0; replyId := js "a1" |};
    {| typed := js "  "; clickedAt := 1700000030000;
       failedAt := 1700000030005;
       serverClock := Chatbot.Examples.clock0; replyId := js "a2" |};
    {| typed := js "I feel anxious"; clickedAt := 1700000060000;
       failedAt := 1700000060005;
       serverClock := ChatbotMore.Examples.clock1; replyId := js "a3" |} ].

End Examples.

End ChatClient.

(* ================================================================== *)
(** * The client's session: Login, Header, services/api, App *)
(* ================================================================== *)

Module ClientSession.
Import Js Guards.

(** [localStorage]: the entries [token] and [user], the latter parsed. *)
Record Storage := {
  token : option jsstring;
  stored : option StoredUser
}.

(** pages/auth/Login.tsx, [onSubmit] after a successful call: the token
    and the user are stored and the browser is sent to the page of the
    user's type. *)
Definition loginRedirect (u : StoredUser) : jsstring :=
  match userType u with
  | Some r =>
      if Js.eqb r (js "user") then js "/user"
      else if Js.eqb r (js "therapist") then js "/therapist"
      else if Js.eqb r (js "admin") then js "/admin"
      else js "/"
  | None => js "/"
  end.

Definition onLogin (tok : jsstring) (u : StoredUser)
  : Storage * jsstring :=
  ({| token := Some tok; stored := Some u |}, loginRedirect u).

(** components/Header.tsx, [handleLogout]. *)
Definition handleLogout (_ : Storage) : Storage * jsstring :=
  ({| token := None; stored := None |}, js "/login").

(** services/api, the response interceptor: a 401 removes both entries
    and sends the browser to the login page. *)
Definition onResponseError (statusCode : nat) (st : Storage)
  : Storage * option jsstring :=
  if Nat.eqb statusCode 401
  then ({| token := None; stored := None |}, Some (js "/login"))
  else (st, None).

(** services/api, the request interceptor: the [Authorization] header. *)
Definition authorizationHeader (st : Storage) : option jsstring :=
  match token st with
  | Some (c :: t) => Some (js "Bearer " ++ c :: t)
  | _ => None
  end.

(** [JSON.parse(userString)]: a [SyntaxError], or the value, read as
    [PrivateRoute] reads it through [user?.userType] ([null], a number or
    a string have no such property). *)
Inductive JsonParse :=
| SyntaxError
| Value (u : StoredUser).

(** What rendering [PrivateRoute] comes to: the component returns an
    element, or the exception of [JSON.parse], which nothing catches,
    leaves it. *)
Inductive Render :=
| Throws
| Returns (r : Rendered).

Section Parse.

(** [JSON.parse] *)
Variable parse : jsstring -> JsonParse.

(** components/PrivateRoute from the two entries of [localStorage] as
    they are read: [if (!token || !userString)], then
    [JSON.parse(userString)], then the check of the role. *)
Definition renderPrivateRoute (token userString : option jsstring)
    (roles : list jsstring) : Render :=
  if truthy token && truthy userString then
    match userString with
    | Some text =>
        match parse text with
        | SyntaxError => Throws
        | Value u => Returns (PrivateRoute token (Some u) roles)
        end
    | None => Returns (Navigate (js "/login"))
    end
  else Returns (Navigate (js "/login")).

End Parse.

(** App.tsx: the routes. *)
Inductive Page :=
| LandingPage | Login | Register
| UserDashboard | TherapistDashboard | AdminDashboard | ChatbotPage.

Inductive Outcome :=
| Shows (page : Page)
| RedirectsTo (path : jsstring)
| NoRoute.

Definition guarded (st : Storage) (roles : list jsstring) (page : Page)
  : Outcome :=
  match PrivateRoute (token st) (stored st) roles with
  | children => Shows page
  | Navigate to => RedirectsTo to
  end.

(** The element of the route that matches [path], the pathname in the form
    the router compares it: React Router ignores case and a trailing
    slash. *)
Definition route (st : Storage) (path : jsstring) : Outcome :=
  if Js.eqb path (js "/") then Shows LandingPage
  else if Js.eqb path (js "/login") then Shows Login
  else if Js.eqb path (js "/register") then Shows Register
  else if Js.eqb path (js "/user")
  then guarded st [js "user"] UserDashboard
  else if Js.eqb path (js "/therapist")
  then guarded st [js "therapist"] TherapistDashboard
  else if Js.eqb path (js "/admin")
  then guarded st [js "admin"] AdminDashboard
  else if Js.eqb path (js "/chatbot")
  then guarded st [js "user"; js "therapist"; js "admin"] ChatbotPage
  else NoRoute.

(** The page a path ends on when the browser follows one redirect. *)
Definition landsOn (st : Storage) (path : jsstring) : Outcome :=
  match route st path with
  | RedirectsTo to => route st to
  | o => o
  end.

Definition protectedPaths : list jsstring :=
  [js "/user"; js "/therapist"; js "/admin"; js "/chatbot"].

(** The dashboard of a user type; the landing page for any other. *)
Definition homePage (u : StoredUser) : Page :=
  match userType u with
  | Some r =>
      if Js.eqb r (js "user") then UserDashboard
      else if Js.eqb r (js "therapist") then TherapistDashboard
      else if Js.eqb r (js "admin") then AdminDashboard
      else LandingPage
  | None => LandingPage
  end.

Module Examples.

Definition therapistUser : StoredUser :=
  {| userType := Some (js "therapist") |}.

Definition signedIn : Storage :=
  {| token := Some (js "t0k3n"); stored := Some therapistUser |}.

End Examples.

End ClientSession.

(* ================================================================== *)
(** * scripts/resetAdminPassword.ts *)
(* ================================================================== *)

Module ResetAdminPassword.
Import Js.

(** [Record<string, string>]: the object's own properties. *)
Definition Dict := list (jsstring * jsstring).

Definition get (key : jsstring) (d : Dict) : option jsstring :=
  option_map snd (List.find (fun kv => Js.eqb (fst kv) key) d).

Fixpoint put (key value : jsstring) (d : Dict) : Dict :=
  match d with
  | [] => [(key, value)]
  | (k, v) :: d' =>
      if Js.eqb k key then (k, value) :: d'
      else (k, v) :: put key value d'
  end.

(** [result[key] = value] for a string [value]: the key [__proto__] reaches
    the setter of the prototype, which ignores a string; any other key
    becomes or stays an own property. *)
Definition assign (key value : jsstring) (d : Dict) : Dict :=
  if Js.eqb key (js "__proto__") then d else put key value d.

(** [arg.startsWith('--')] and, for such an argument,
    [arg.replace(/^--/, '')]. *)
Definition isFlag (arg : jsstring) : bool := startsWith arg (js "--").

Definition keyOf (arg : jsstring) : jsstring := skipn 2 arg.

(** The loop of [parseArgs] from index [i] on, [args] being the arguments
    from that index: a flag takes the next argument as its value when that
    is a non-empty string that is not a flag itself, and then skips it;
    otherwise its value is ['true']; other arguments are passed over. *)
Fixpoint parseLoop (args : list jsstring) (result : Dict) : Dict :=
  match args with
  | [] => result
  | arg :: rest =>
      if isFlag arg then
        match rest with
        | value :: rest' =>
            if negb (Nat.eqb (List.length value) 0) && negb (isFlag value)
            then parseLoop rest' (assign (keyOf arg) value result)
            else parseLoop rest (assign (keyOf arg) (js "true") result)
        | [] => assign (keyOf arg) (js "true") result
        end
      else parseLoop rest result
  end.

(** [parseArgs]; [argv] is [process.argv]. *)
Definition parseArgs (argv : list jsstring) : Dict :=
  parseLoop (skipn 2 argv) [].

(** The start of [main]: [None] is the usage message and exit code 1,
    otherwise the e-mail address and the password the script goes on
    with.  [!email] holds for a missing key and for the empty string. *)
Definition credentials (argv : list jsstring)
  : option (jsstring * jsstring) :=
  match get (js "email") (parseArgs argv),
        get (js "password") (parseArgs argv) with
  | Some (c :: e), Some (d :: p) => Some (c :: e, d :: p)
  | _, _ => None
  end.

(** The values the result may hold: non-empty and not flags. *)
Definition GoodValues (d : Dict) : Prop :=
  forall k v, get k d = Some v -> v <> [] /\ isFlag v = false.

Module Examples.

(** [node reset.js --email a@b.c --password --force] *)
Definition argv1 : list jsstring :=
  [js "node"; js "reset.js"; js "--email"; js "a@b.c"; js "--password";
   js "--force"].

(** [node reset.js --email old@b.c --email new@b.c --force] *)
Definition argv2 : list jsstring :=
  [js "node"; js "reset.js"; js "--email"; js "old@b.c"; js "--email";
   js "new@b.c"; js "--force"].

End Examples.

End ResetAdminPassword.

(* ================================================================== *)
(** * cleanData of UserProfile.tsx and TherapistProfile.tsx *)
(* ================================================================== *)

Module Profile.
Import Js.

#[local] Set Warnings "-register-all".

(** A value as it comes out of a JSON body, or [undefined] for a field
    that is missing; a number stands by its JSON text.  The fields of an
    object are its own properties in the order [for ... in] visits them. *)
Inductive Json :=
| JNull
| JUndefined
| JBool (b : bool)
| JNumber (text : jsstring)
| JString (s : jsstring)
| JArray (items : list Json)
| JObject (fields : list (jsstring * Json)).

(** [cleaned[key] = value] creates a property unless the key is
    [__proto__], which reaches the setter of [Object.prototype]. *)
Definition assignable (key : jsstring) : bool :=
  negb (Js.eqb key (js "__proto__")).

(** UserProfile.tsx: [null] and [undefined] become the empty string, other
    primitives stay, arrays and objects are rebuilt from their cleaned
    items.  The result of the object case lists the own properties of
    [cleaned]. *)
Fixpoint cleanData (data : Json) : Json :=
  match data with
  | JNull | JUndefined => JString []
  | JBool _ | JNumber _ | JString _ => data
  | JArray items => JArray (map cleanData items)
  | JObject fields =>
      JObject
        (flat_map
           (fun kv : jsstring * Json =>
              let (k, v) := kv in
              if assignable k then [(k, cleanData v)] else [])
           fields)
  end.

(** TherapistProfile.tsx: the same, but only [null] is tested for, and
    [typeof undefined] is not ['object']. *)
Fixpoint cleanDataTherapist (data : Json) : Json :=
  match data with
  | JNull => JString []
  | JUndefined | JBool _ | JNumber _ | JString _ => data
  | JArray items => JArray (map cleanDataTherapist items)
  | JObject fields =>
      JObject
        (flat_map
           (fun kv : jsstring * Json =>
              let (k, v) := kv in
              if assignable k then [(k, cleanDataTherapist v)] else [])
           fields)
  end.

(** No value satisfying [bad] anywhere in the data. *)
Fixpoint free (bad : Json -> bool) (data : Json) : bool :=
  negb (bad data)
  && match data with
     | JArray items => forallb (free bad) items
     | JObject fields =>
         forallb (fun kv : jsstring * Json => let (_, v) := kv in free bad v)
           fields
     | _ => true
     end.

Definition isNull (d : Json) : bool :=
  match d with JNull => true | _ => false end.

Definition isUndefined (d : Json) : bool :=
  match d with JUndefined => true | _ => false end.

Definition isNullish (d : Json) : bool := isNull d || isUndefined d.

(** No object of the data has the key [__proto__]. *)
Fixpoint plainKeys (data : Json) : bool :=
  match data with
  | JArray items => forallb plainKeys items
  | JObject fields =>
      forallb
        (fun kv : jsstring * Json =>
           let (k, v) := kv in assignable k && plainKeys v)
        fields
  | _ => true
  end.

(** The keys of the objects and the lengths of the arrays, all the way
    down. *)
Inductive Shape :=
| Leaf
| Items (items : list Shape)
| Fields (fields : list (jsstring * Shape)).

Fixpoint shapeOf (data : Json) : Shape :=
  match data with
  | JArray items => Items (map shapeOf items)
  | JObject fields =>
      Fields
        (map (fun kv : jsstring * Json => let (k, v) := kv in (k, shapeOf v))
           fields)
  | _ => Leaf
  end.

(** Structural size, for induction. *)
Fixpoint size (data : Json) : nat :=
  match data with
  | JArray items => S (list_sum (map size items))
  | JObject fields =>
      S (list_sum
           (map (fun kv : jsstring * Json => let (_, v) := kv in size v)
              fields))
  | _ => 1
  end.

(** A profile as the server may send it. *)
Module Examples.

Definition profile : Json :=
  JObject
    [(js "firstName", JString (js "Ada"));
     (js "phone", JNull);
     (js "age", JNumber (js "36"));
     (js "address", JObject [(js "city", JNull); (js "zip", JUndefined)]);
     (js "languages", JArray [JString (js "en"); JNull])].

End Examples.

End Profile.

(* ================================================================== *)
(** * pages/auth/Register.tsx: the comma-separated fields *)
(* ================================================================== *)

Module Register.
Import Js.

(** [s.split(',')] for a one-character separator. *)
Fixpoint split (sep : N) (s : jsstring) : list jsstring :=
  match s with
  | [] => [[]]
  | c :: s' =>
      if (c =? sep)%N then [] :: split sep s'
      else
        match split sep s' with
        | piece :: rest => (c :: piece) :: rest
        | [] => [[c]]
        end
  end.

Definition comma : N := 44.

(** [field?.split(',').map(s => s.trim()) || []]: what [onSubmit] sends
    for [specializations] and for [languages]. *)
Definition listOf (field : option jsstring) : list jsstring :=
  match field with
  | Some s => map trim (split comma s)
  | None => []
  end.

(** An entry as it is meant to arrive: no comma inside, no white space
    around. *)
Definition Clean (t : jsstring) : Prop := trim t = t /\ ~ In comma t.

Module Examples.

Definition tags : list jsstring := [js "CBT"; js "Trauma care"].

End Examples.

End Register.

(* ================================================================== *)
(** * pages/admin/AdminDashboard.tsx: the filtered tables *)
(* ================================================================== *)

Module AdminUsers.
Import Js.

(** The fields of [User] and of [Therapist] that the filter reads. *)
Record Account := {
  firstName : jsstring;
  lastName : jsstring;
  email : jsstring;
  isActive : bool
}.

Section Filter.

Variable toLowerCase : jsstring -> jsstring.

Definition matchesSearch (searchTerm : jsstring) (a : Account) : bool :=
  includes (toLowerCase (firstName a)) (toLowerCase searchTerm)
  || includes (toLowerCase (lastName a)) (toLowerCase searchTerm)
  || includes (toLowerCase (email a)) (toLowerCase searchTerm).

(** [!statusFilter || (statusFilter === 'active' ? a.isActive
    : !a.isActive)] *)
Definition matchesStatus (statusFilter : jsstring) (a : Account) : bool :=
  match statusFilter with
  | [] => true
  | _ :: _ =>
      if Js.eqb statusFilter (js "active") then isActive a
      else negb (isActive a)
  end.

(** [filteredUsers] and [filteredTherapists]. *)
Definition filtered (searchTerm statusFilter : jsstring)
    (accounts : list Account) : list Account :=
  filter (fun a => matchesSearch searchTerm a && matchesStatus statusFilter a)
    accounts.

End Filter.

Module Examples.

Definition ada : Account :=
  {| firstName := js "Ada"; lastName := js "Lovelace";
     email := js "ada@example.org"; isActive := true |}.

Definition bob : Account :=
  {| firstName := js "Bob"; lastName := js "Stone";
     email := js "bob@example.org"; isActive := false |}.

End Examples.

End AdminUsers.

(* ================================================================== *)
(** * components/AppointmentBooking.tsx: the dialog *)
(* ================================================================== *)

Module BookingDialog.
Import Js Slots.

(** The state of the component, the list of slots and the loading flag
    being the part [loadAvailableSlots] writes. *)
Record Form := {
  selectedDate : option N;
  selectedTimeSlot : option TimeSlot;
  slots : BookingState;
  bookingLoading : bool;
  sessionType : jsstring;
  sessionMode : jsstring;
  duration : nat;
  notes : jsstring
}.

Definition initialForm : Form :=
  {| selectedDate := None; selectedTimeSlot := None;
     slots := initialBooking; bookingLoading := false;
     sessionType := js "individual"; sessionMode := js "video";
     duration := 60; notes := [] |}.

(** [handleDateChange]; [None] is [null] or an invalid date. *)
Definition handleDateChange (date : option N) (f : Form) : Form :=
  {| selectedDate := date; selectedTimeSlot := None; slots := slots f;
     bookingLoading := bookingLoading f; sessionType := sessionType f;
     sessionMode := sessionMode f; duration := duration f;
     notes := notes f |}.

(** The effect on [open], [therapist] and [selectedDate]: the slots are
    loaded when the dialog is open for a therapist and a date is
    selected. *)
Definition slotsEffect (open : bool) (therapist : option N)
    (api : N -> N -> option (list TimeSlot)) (f : Form) : Form :=
  if open then
    {| selectedDate := selectedDate f;
       selectedTimeSlot := selectedTimeSlot f;
       slots := loadAvailableSlots therapist (selectedDate f) api (slots f);
       bookingLoading := bookingLoading f; sessionType := sessionType f;
       sessionMode := sessionMode f; duration := duration f;
       notes := notes f |}
  else f.

(** The user picks a date in the open dialog. *)
Definition pickDate (therapist : option N) (date : option N)
    (api : N -> N -> option (list TimeSlot)) (f : Form) : Form :=
  slotsEffect true therapist api (handleDateChange date f).

(** A click on the button of a slot; the buttons are those of the list,
    shown when it is not being loaded. *)
Definition clickSlot (slot : TimeSlot) (f : Form) : Form :=
  if negb (loading (slots f))
     && existsb (fun s => Nat.eqb (slotStart s) (slotStart slot)
                          && Nat.eqb (slotEnd s) (slotEnd slot))
          (availableSlots (slots f))
  then
    {| selectedDate := selectedDate f; selectedTimeSlot := Some slot;
       slots := slots f; bookingLoading := bookingLoading f;
       sessionType := sessionType f; sessionMode := sessionMode f;
       duration := duration f; notes := notes f |}
  else f.

(** [bookingData] *)
Record BookingData := {
  therapistId : N;
  date : N;
  startTime : nat;
  data_duration : nat;
  data_sessionType : jsstring;
  data_sessionMode : jsstring;
  data_notes : jsstring
}.

(** The request a click on Book Appointment sends, if any: the button is
    disabled without a date or a slot and while a booking is in flight,
    and [handleBookAppointment] asks for a therapist, a date and a slot. *)
Definition handleBookAppointment (therapist : option N) (f : Form)
  : option BookingData :=
  if bookingLoading f then None
  else
    match therapist, selectedDate f, selectedTimeSlot f with
    | Some t, Some d, Some slot =>
        Some {| therapistId := t; date := d; startTime := slotStart slot;
                data_duration := duration f;
                data_sessionType := sessionType f;
                data_sessionMode := sessionMode f;
                data_notes := notes f |}
    | _, _, _ => None
    end.

Module Examples.

Definition nine : TimeSlot := {| slotStart := 540; slotEnd := 600 |}.

(** A server that answers for day 10 and fails for every other day. *)
Definition flaky : N -> N -> option (list TimeSlot) :=
  fun _ d => if (d =? 10)%N then Some [nine] else None.

End Examples.

End BookingDialog.

(* ================================================================== *)
(** * Facts about strings *)
(* ================================================================== *)

Unset Implicit Arguments.

Import Js.

Lemma startsWith_spec (s w : jsstring) :
  startsWith s w = true <-> exists post, s = w ++ post.
Proof.
  revert s; induction w as [|a w IH]; intros s; simpl.
  - split; [intros _; now exists s | reflexivity].
  - destruct s as [|b s].
    + split; [discriminate | intros [post H]; discriminate].
    + rewrite andb_true_iff, N.eqb_eq, IH. split.
      * intros [-> [post ->]]. now exists post.
      * intros [post H]. injection H as -> ->. split; [reflexivity|now exists post].
Qed.

Lemma includes_spec (s w : jsstring) :
  includes s w = true <-> Contains s w.
Proof.
  unfold Contains. induction s as [|c s IH].
  - simpl. rewrite orb_false_r, startsWith_spec. split.
    + intros [post H]. now exists [], post.
    + intros [pre [post H]]. destruct pre; simpl in H.
      * now exists post.
      * discriminate.
  - cbn [includes]. rewrite orb_true_iff, IH, startsWith_spec. split.
    + intros [[post H] | [pre [post H]]].
      * now exists [], post.
      * exists (c :: pre), post. now rewrite H.
    + intros [pre [post H]]. destruct pre as [|c' pre]; simpl in H.
      * left. now exists post.
      * right. injection H as _ H. now exists pre, post.
Qed.

Lemma js_eqb_eq (a b : jsstring) : Js.eqb a b = true <-> a = b.
Proof.
  unfold Js.eqb. destruct (list_eq_dec N.eq_dec a b); split;
    intros; try discriminate; congruence.
Qed.

(* ================================================================== *)
(** * The responder *)
(* ================================================================== *)

Import Chatbot.

Lemma has_spec (text : jsstring) (k : list jsstring) :
  has text k = true <-> exists w, In w k /\ Contains text w.
Proof.
  unfold has. rewrite existsb_exists.
  split; intros [w [Hin H]]; exists w; split; auto; now apply includes_spec.
Qed.

Lemma has_Matches (text : jsstring) (b : Bucket) :
  has text (keywordsOf b) = true <-> Matches text b.
Proof. apply has_spec. Qed.

Lemma crisis_is_safetyMessage : nth 0 crisis undefined = safetyMessage.
Proof. vm_compute. reflexivity. Qed.

Section ResponderFacts.

Variable toLowerCase : jsstring -> jsstring.
Variable randomFloor : nat -> nat.

Lemma pick_In (arr : list jsstring) :
  (forall n, 0 < n -> randomFloor n < n) ->
  arr <> [] -> In (pick randomFloor arr) arr.
Proof.
  intros Hr Hne. unfold pick. apply nth_In. apply Hr.
  destruct arr; [congruence | simpl; lia].
Qed.

(** C1: a message whose lower-cased text contains a crisis keyword gets
    the fixed safety message, whatever other keywords it contains and
    whatever the random draw is. *)
Theorem crisis_keyword_gives_safetyMessage (message : jsstring) :
  (exists w, In w crisisKeywords /\ Contains (toLowerCase message) w) ->
  generateLocalResponse toLowerCase randomFloor message = safetyMessage.
Proof.
  intros H. apply has_spec in H.
  unfold generateLocalResponse. fold crisisKeywords.
  rewrite H. apply crisis_is_safetyMessage.
Qed.

Lemma generateLocalResponse_chain (message : jsstring) :
  generateLocalResponse toLowerCase randomFloor message =
  let text := toLowerCase message in
  if has text (keywordsOf Crisis) then nth 0 crisis undefined
  else if has text (keywordsOf Panic) then pick randomFloor panic
  else if has text (keywordsOf Anxiety) then pick randomFloor anxiety
  else if has text (keywordsOf LowMood) then pick randomFloor lowMood
  else if has text (keywordsOf Stress) then pick randomFloor stress
  else if has text (keywordsOf Sleep) then pick randomFloor sleep
  else if has text (keywordsOf Anger) then pick randomFloor anger
  else if has text (keywordsOf Relationship)
       then pick randomFloor relationship
  else if has text (keywordsOf WorkStudy) then pick randomFloor workStudy
  else if has text (keywordsOf Physical) then pick randomFloor physical
  else if has text (keywordsOf Greeting) then pick randomFloor greetings
  else pick randomFloor generic.
Proof. reflexivity. Qed.

Lemma not_Matches (text : jsstring) (b : Bucket) :
  has text (keywordsOf b) = false -> ~ Matches text b.
Proof. intros H M. apply has_Matches in M. congruence. Qed.

Lemma responses_nonempty (b : Bucket) : responsesOf b <> [].
Proof. destruct b; discriminate. Qed.

Ltac first_match :=
  repeat (apply FirstMatch_later; [apply not_Matches; assumption|]);
  first [ apply FirstMatch_here; apply has_Matches; assumption
        | apply FirstMatch_none ].

(** C2: the reply is one of the canned responses of the first bucket, in
    the order crisis, panic, anxiety, low mood, stress, sleep, anger,
    relationship, work/study, physical, greeting, one of whose keywords
    occurs in the lower-cased message, and one of the generic prompts when
    no bucket matches; two messages with the same lower-cased text get the
    same reply from the same draw. *)
Theorem generateLocalResponse_first_matching_bucket (message : jsstring) :
  (forall n, 0 < n -> randomFloor n < n) ->
  (exists b,
      FirstMatch (toLowerCase message) bucketOrder b
      /\ In (generateLocalResponse toLowerCase randomFloor message)
            (responsesOf b))
  /\ (forall message',
         toLowerCase message' = toLowerCase message ->
         generateLocalResponse toLowerCase randomFloor message'
         = generateLocalResponse toLowerCase randomFloor message).
Proof.
  intros Hr. split.
  - rewrite generateLocalResponse_chain. cbv zeta.
    set (text := toLowerCase message).
    destruct (has text (keywordsOf Crisis)) eqn:H1.
    { exists Crisis. split; [unfold bucketOrder; first_match|].
      apply (nth_In crisis undefined). unfold crisis. cbn [List.length]. lia. }
    destruct (has text (keywordsOf Panic)) eqn:H2;
      [exists Panic; split;
       [unfold bucketOrder; first_match
       |apply (pick_In _ Hr (responses_nonempty Panic))]|].
    destruct (has text (keywordsOf Anxiety)) eqn:H3;
      [exists Anxiety; split;
       [unfold bucketOrder; first_match
       |apply (pick_In _ Hr (responses_nonempty Anxiety))]|].
    destruct (has text (keywordsOf LowMood)) eqn:H4;
      [exists LowMood; split;
       [unfold bucketOrder; first_match
       |apply (pick_In _ Hr (responses_nonempty LowMood))]|].
    destruct (has text (keywordsOf Stress)) eqn:H5;
      [exists Stress; split;
       [unfold bucketOrder; first_match
       |apply (pick_In _ Hr (responses_nonempty Stress))]|].
    destruct (has text (keywordsOf Sleep)) eqn:H6;
      [exists Sleep; split;
       [unfold bucketOrder; first_match
       |apply (pick_In _ Hr (responses_nonempty Sleep))]|].
    destruct (has text (keywordsOf Anger)) eqn:H7;
      [exists Anger; split;
       [unfold bucketOrder; first_match
       |apply (pick_In _ Hr (responses_nonempty Anger))]|].
    destruct (has text (keywordsOf Relationship)) eqn:H8;
      [exists Relationship; split;
       [unfold bucketOrder; first_match
       |apply (pick_In _ Hr (responses_nonempty Relationship))]|].
    destruct (has text (keywordsOf WorkStudy)) eqn:H9;
      [exists WorkStudy; split;
       [unfold bucketOrder; first_match
       |apply (pick_In _ Hr (responses_nonempty WorkStudy))]|].
    destruct (has text (keywordsOf Physical)) eqn:H10;
      [exists Physical; split;
       [unfold bucketOrder; first_match
       |apply (pick_In _ Hr (responses_nonempty Physical))]|].
    destruct (has text (keywordsOf Greeting)) eqn:H11;
      [exists Greeting; split;
       [unfold bucketOrder; first_match
       |apply (pick_In _ Hr (responses_nonempty Greeting))]|].
    exists Generic. split; [unfold bucketOrder; first_match|].
    apply (pick_In _ Hr (responses_nonempty Generic)).
  - intros message' E. unfold generateLocalResponse. now rewrite E.
Qed.

End ResponderFacts.

(* ================================================================== *)
(** * Trimming *)
(* ================================================================== *)

Lemma dropWhile_nil_iff (p : N -> bool) (s : jsstring) :
  dropWhile p s = [] <-> Forall (fun c => p c = true) s.
Proof.
  induction s as [|c s IH]; simpl.
  - split; auto.
  - destruct (p c) eqn:E.
    + rewrite IH. split; intros H.
      * now constructor.
      * now inversion H.
    + split; [discriminate|]. intros H. inversion H. congruence.
Qed.

Lemma dropWhile_head (p : N -> bool) (s : jsstring) (c : N) (t : jsstring) :
  dropWhile p s = c :: t -> p c = false.
Proof.
  induction s as [|d s IH]; simpl; [discriminate|].
  destruct (p d) eqn:E; [exact IH|]. intros H. injection H as -> _. exact E.
Qed.

Lemma dropWhile_suffix (p : N -> bool) (s : jsstring) :
  exists pre, s = pre ++ dropWhile p s
              /\ Forall (fun c => p c = true) pre.
Proof.
  induction s as [|d s [pre [E F]]]; simpl.
  - exists []. split; [reflexivity | constructor].
  - destruct (p d) eqn:Ed.
    + exists (d :: pre). split; [simpl; now f_equal | now constructor].
    + exists []. split; [reflexivity | constructor].
Qed.

Lemma rtrim_nil_iff (s : jsstring) : rtrim s = [] <-> whitespaceOnly s.
Proof.
  unfold rtrim, whitespaceOnly. split.
  - intros H. apply (f_equal (@rev N)) in H. rewrite rev_involutive in H.
    simpl in H. apply dropWhile_nil_iff in H.
    apply Forall_rev in H. now rewrite rev_involutive in H.
  - intros H. apply Forall_rev in H. apply dropWhile_nil_iff in H.
    now rewrite H.
Qed.

Lemma trim_nil_iff (s : jsstring) : trim s = [] <-> whitespaceOnly s.
Proof.
  unfold trim. rewrite rtrim_nil_iff. unfold ltrim, whitespaceOnly. split.
  - intros H. destruct (dropWhile isWhitespace s) as [|c t] eqn:E.
    + now apply dropWhile_nil_iff.
    + apply dropWhile_head in E. inversion H. congruence.
  - intros H. apply dropWhile_nil_iff in H. rewrite H. constructor.
Qed.

Lemma notEmpty_trim (s : jsstring) :
  Chatbot.notEmpty (trim s) = false <-> whitespaceOnly s.
Proof.
  rewrite <- trim_nil_iff. unfold Chatbot.notEmpty.
  destruct (trim s); simpl; split; congruence.
Qed.

(* ================================================================== *)
(** * POST /send *)
(* ================================================================== *)

Lemma sessionIdError_neq_messageError : sessionIdError <> messageError.
Proof.
  intros H. apply (f_equal path) in H. vm_compute in H. discriminate.
Qed.

Section RouteFacts.

Variable toLowerCase : jsstring -> jsstring.
Variable randomFloor : nat -> nat.
Variable saves : ChatMessage -> bool.

Lemma validationResult_blank (b : SendBody) :
  notEmpty (sanitizedMessage b) = false ->
  validationResult b = messageError :: sessionIdErrors b.
Proof. unfold validationResult. now intros ->. Qed.

Lemma validationResult_filled (b : SendBody) :
  notEmpty (sanitizedMessage b) = true ->
  validationResult b = sessionIdErrors b.
Proof. unfold validationResult. now intros ->. Qed.

Lemma messageError_not_in_sessionIdErrors (b : SendBody) :
  ~ In messageError (sessionIdErrors b).
Proof.
  unfold sessionIdErrors.
  destruct (body_sessionId b) as [[s|]|]; simpl; try tauto.
  intros [H|[]]. now apply sessionIdError_neq_messageError.
Qed.

(** C7: a request whose message is empty or only whitespace is answered
    with status 400 and a list of field errors that holds the error of the
    [message] field, and the collection is left as it was; a message with
    some non-whitespace character raises no error on the [message] field,
    and the request is not answered with 400 unless [sessionId] is
    invalid. *)
Theorem send_blank_message_400 (clock : Clock) (uid : UserId)
    (m : jsstring) (sid : option JsonField) (db : Collection) :
  (whitespaceOnly m ->
   exists errors,
     send toLowerCase randomFloor saves clock uid
       {| body_message := Some m; body_sessionId := sid |} db
     = (Status400 errors, db)
     /\ In messageError errors)
  /\ (~ whitespaceOnly m ->
      ~ In messageError
          (validationResult
             {| body_message := Some m; body_sessionId := sid |})
      /\ (sessionIdErrors
            {| body_message := Some m; body_sessionId := sid |} = [] ->
          status
            (fst (send toLowerCase randomFloor saves clock uid
                    {| body_message := Some m; body_sessionId := sid |}
                    db)) <> 400)).
Proof.
  set (b := {| body_message := Some m; body_sessionId := sid |}).
  assert (Hs : sanitizedMessage b = trim m) by reflexivity.
  split.
  - intros Hw. apply notEmpty_trim in Hw. rewrite <- Hs in Hw.
    exists (messageError :: sessionIdErrors b). split; [|now left].
    unfold send. now rewrite (validationResult_blank _ Hw).
  - intros Hw.
    assert (Hn : notEmpty (sanitizedMessage b) = true).
    { destruct (notEmpty (sanitizedMessage b)) eqn:E; [reflexivity|].
      rewrite Hs in E. apply notEmpty_trim in E. contradiction. }
    rewrite (validationResult_filled _ Hn). split.
    + apply messageError_not_in_sessionIdErrors.
    + intros He. unfold send.
      rewrite (validationResult_filled _ Hn), He.
      unfold save.
      destruct (saves _); [|simpl; discriminate].
      destruct (saves _); simpl; discriminate.
Qed.

Lemma sessionIdOr_provided (s : jsstring) (now : N) :
  s <> [] -> sessionIdOr (Some (JString s)) now = s.
Proof. destruct s; [congruence | reflexivity]. Qed.

Lemma send_appends (clock : Clock) (uid : UserId) (b : SendBody)
    (db : Collection) :
  exists added,
    snd (send toLowerCase randomFloor saves clock uid b db) = db ++ added
    /\ List.length added <= 2.
Proof.
  unfold send, save.
  destruct (validationResult b).
  - destruct (saves _).
    + destruct (saves _); simpl.
      * rewrite <- app_assoc. eexists. split; [reflexivity | simpl; lia].
      * eexists. split; [reflexivity | simpl; lia].
    + exists []. split; [now rewrite app_nil_r | simpl; lia].
  - exists []. split; [now rewrite app_nil_r | simpl; lia].
Qed.

Lemma new_session_nonempty (now : N) : js "session_" ++ ofN now <> [].
Proof. vm_compute (js "session_"). discriminate. Qed.

(** C8, amended: a successful call appends exactly two rows, the first of
    type user holding the request message with the whitespace at both ends
    removed, the second of type ai holding the reply generated for that
    trimmed message; both carry the requesting user and the session id of
    the response.  The request's [sessionId] is then absent or a string;
    the session id is that string when it is not empty, and the new id
    [session_<Date.now()>] when it is empty or absent; it is never empty.
    And every operation of the router leaves the rows that exist in place,
    adding at most two at the end. *)
Theorem send_appends_user_and_ai_rows :
  (forall clock uid b db aiMessage sid db',
      send toLowerCase randomFloor saves clock uid b db = (Json aiMessage sid, db') ->
      exists m userMessage,
        body_message b = Some m
        /\ db' = db ++ [userMessage; aiMessage]
        /\ messageType userMessage = user_
        /\ message userMessage = trim m
        /\ messageType aiMessage = ai
        /\ message aiMessage
           = generateLocalResponse toLowerCase randomFloor (trim m)
        /\ sessionId userMessage = sid
        /\ sessionId aiMessage = sid
        /\ user userMessage = uid
        /\ user aiMessage = uid
        /\ (forall s, body_sessionId b = Some (JString s) ->
                      s <> [] -> sid = s)
        /\ (body_sessionId b = None
            \/ exists s, body_sessionId b = Some (JString s))
        /\ (body_sessionId b = None
            \/ body_sessionId b = Some (JString []) ->
            sid = js "session_" ++ ofN (dateNow clock))
        /\ sid <> [])
  /\ (forall op db,
         exists added,
           run toLowerCase randomFloor saves op db = db ++ added
           /\ List.length added <= 2).
Proof.
  split.
  - intros clock uid b db aiMessage sid db'.
    unfold send, save.
    destruct (validationResult b) eqn:Ev; [|discriminate].
    destruct (saves _); [|discriminate].
    destruct (saves _); [|discriminate].
    intros H. injection H as <- <- <-.
    destruct (body_message b) as [m|] eqn:Em.
    + exists m. eexists. split; [reflexivity|].
      assert (Hs : sanitizedMessage b = trim m)
        by (unfold sanitizedMessage; now rewrite Em).
      rewrite <- app_assoc. simpl. rewrite Hs.
      repeat (split; [reflexivity|]).
      split; [|split; [|split]].
      * intros s Hsid Hne. rewrite Hsid. now apply sessionIdOr_provided.
      * unfold validationResult in Ev. apply app_eq_nil in Ev.
        destruct Ev as [_ Ev]. unfold sessionIdErrors in Ev.
        destruct (body_sessionId b) as [[s|]|];
          [right; now exists s | discriminate | now left].
      * intros [E|E]; rewrite E; reflexivity.
      * unfold sessionIdOr.
        destruct (body_sessionId b) as [[[|c s]|]|];
          try apply new_session_nonempty.
        discriminate.
    + exfalso. unfold validationResult, sanitizedMessage in Ev.
      rewrite Em in Ev. simpl in Ev. discriminate.
  - intros [clock uid b|uid q|uid] db; simpl.
    + apply send_appends.
    + exists []. split; [now rewrite app_nil_r | simpl; lia].
    + exists []. split; [now rewrite app_nil_r | simpl; lia].
Qed.

End RouteFacts.

(* ================================================================== *)
(** * GET /history and GET /sessions *)
(* ================================================================== *)

Section SortFacts.
Variable A : Type.
Variable key : A -> N.

Lemma insertDesc_In (x y : A) (l : list A) :
  In y (insertDesc key x l) <-> y = x \/ In y l.
Proof.
  induction l as [|z l IH]; simpl.
  - intuition.
  - destruct (key z <? key x)%N; simpl; [|rewrite IH]; intuition.
Qed.

Lemma sortDesc_In (y : A) (l : list A) :
  In y (sortDesc key l) <-> In y l.
Proof.
  induction l as [|x l IH]; simpl; [tauto|].
  rewrite insertDesc_In, IH. intuition.
Qed.
End SortFacts.

Lemma In_skipn_In (A : Type) (n : nat) (l : list A) (x : A) :
  In x (skipn n l) -> In x l.
Proof.
  intros H. rewrite <- (firstn_skipn n l). apply in_or_app. now right.
Qed.

Lemma In_firstn_In (A : Type) (n : nat) (l : list A) (x : A) :
  In x (firstn n l) -> In x l.
Proof.
  intros H. rewrite <- (firstn_skipn n l). apply in_or_app. now left.
Qed.

Lemma limitTo_In (n : N) (l : list ChatMessage) (m : ChatMessage) :
  In m (limitTo n l) -> In m l.
Proof.
  unfold limitTo. destruct (n =? 0)%N; [auto | apply In_firstn_In].
Qed.

Lemma find_In (uid : UserId) (sid : option jsstring) (db : Collection)
    (m : ChatMessage) :
  In m (find uid sid db) -> In m db /\ user m = uid.
Proof.
  unfold find. rewrite filter_In. unfold matchesFilter.
  rewrite andb_true_iff, N.eqb_eq. tauto.
Qed.

(** The filter sees the collection only through the user's own rows. *)
Lemma find_owned (uid : UserId) (sid : option jsstring) (db : Collection) :
  find uid sid db = find uid sid (filter (ownedBy uid) db).
Proof.
  unfold find. induction db as [|m db IH]; simpl; [reflexivity|].
  assert (Ho : matchesFilter uid sid m = true -> ownedBy uid m = true).
  { unfold matchesFilter, ownedBy. rewrite andb_true_iff. tauto. }
  destruct (matchesFilter uid sid m) eqn:Em.
  - rewrite (Ho eq_refl). simpl. rewrite Em. now f_equal.
  - destruct (ownedBy uid m); simpl; [rewrite Em|]; exact IH.
Qed.

Lemma history_In (uid : UserId) (q : HistoryQuery) (db : Collection)
    (r : HistoryResponse) (m : ChatMessage) :
  history uid q db = Some r -> In m (messages r) ->
  In m db /\ user m = uid.
Proof.
  unfold history.
  destruct (_ && _)%bool; [discriminate|].
  intros H. injection H as <-. simpl. intros Hin.
  apply in_rev, limitTo_In, In_skipn_In in Hin.
  apply sortDesc_In in Hin. now apply find_In in Hin.
Qed.

Lemma sessions_In (uid : UserId) (db : Collection) (s : SessionSummary) :
  In s (sessions uid db) ->
  exists m, In m db /\ user m = uid /\ sessionId m = _id s
            /\ message m = lastMessage s /\ createdAt m = lastTimestamp s.
Proof.
  unfold sessions. rewrite sortDesc_In. unfold group.
  rewrite in_flat_map. intros [sid [_ H]].
  destruct (lastOf sid (find uid None db)) as [m|] eqn:E; [|contradiction].
  destruct H as [<-|[]]. simpl.
  unfold lastOf in E. apply find_some in E. destruct E as [Hin Heq].
  apply in_rev, find_In in Hin. apply js_eqb_eq in Heq.
  exists m. tauto.
Qed.

(** C10: every message of a history response and every session of a
    sessions response comes from a row of the requesting user; both
    responses are the same on any two collections that hold the same rows of
    that user, so the rows of other users have no influence; and no row is
    in the histories of two distinct users. *)
Theorem history_sessions_own_rows_only (uid : UserId) (db : Collection) :
  (forall q r m,
      history uid q db = Some r -> In m (messages r) ->
      In m db /\ user m = uid)
  /\ (forall s,
         In s (sessions uid db) ->
         exists m, In m db /\ user m = uid /\ sessionId m = _id s
                   /\ message m = lastMessage s
                   /\ createdAt m = lastTimestamp s)
  /\ (forall db',
         filter (ownedBy uid) db' = filter (ownedBy uid) db ->
         (forall q, history uid q db' = history uid q db)
         /\ sessions uid db' = sessions uid db)
  /\ (forall uid' q q' r r' m,
         uid' <> uid ->
         history uid q db = Some r -> history uid' q' db = Some r' ->
         In m (messages r) -> ~ In m (messages r')).
Proof.
  split; [|split; [|split]].
  - intros q r m. apply history_In.
  - apply sessions_In.
  - intros db' E. split.
    + intros q. unfold history.
      rewrite (find_owned uid (q_sessionId q) db'), E, <- find_owned.
      reflexivity.
    + unfold sessions.
      rewrite (find_owned uid None db'), E, <- find_owned. reflexivity.
  - intros uid' q q' r r' m Hne H H' Hin Hin'.
    destruct (history_In uid q db r m H Hin) as [_ Hu].
    destruct (history_In uid' q' db r' m H' Hin') as [_ Hu']. congruence.
Qed.

(* ================================================================== *)
(** * The appointment lifecycle *)
(* ================================================================== *)

Module LifecycleFacts.
Import Appointments.

Lemma statusAllowed_Transition (a b : Status) :
  statusAllowed a b = true <-> Transition a b.
Proof.
  split.
  - destruct a, b; simpl; intros H; try discriminate; constructor.
  - intros []; reflexivity.
Qed.

Lemma lookup_update (id id' : N) (f : Appointment -> Appointment)
    (st : Store) :
  (forall a, _id (f a) = _id a) ->
  lookup id' (update id f st)
  = option_map (fun a => if (_id a =? id)%N then f a else a)
      (lookup id' st).
Proof.
  intros Hf. unfold lookup, update.
  induction st as [|a st IH]; simpl; [reflexivity|].
  destruct (_id a =? id)%N eqn:E; [rewrite Hf|];
    destruct (_id a =? id')%N; simpl; rewrite ?E; auto.
Qed.

Lemma lookup_app (id : N) (st more : Store) (a : Appointment) :
  lookup id st = Some a -> lookup id (st ++ more) = Some a.
Proof.
  unfold lookup. induction st as [|b st IH]; simpl; [discriminate|].
  destruct (_id b =? id)%N; auto.
Qed.

Lemma lookup_id (id : N) (st : Store) (a : Appointment) :
  lookup id st = Some a -> _id a = id.
Proof.
  unfold lookup. intros H. apply find_some in H. now apply N.eqb_eq.
Qed.

Lemma update_Change (id id' : N) (f : Appointment -> Appointment)
    (st : Store) (a b : Appointment) :
  (forall x, _id (f x) = _id x) ->
  lookup id st = Some b -> Change b (f b) ->
  lookup id' st = Some a ->
  exists a', lookup id' (update id f st) = Some a' /\ Change a a'.
Proof.
  intros Hf Hb Hc Ha. rewrite (lookup_update _ _ _ _ Hf), Ha. simpl.
  destruct (_id a =? id)%N eqn:E.
  - apply N.eqb_eq in E. apply lookup_id in Ha as Hid.
    assert (a = b) by (rewrite <- E, Hid, Ha in Hb; congruence).
    subst b. eauto.
  - eexists. split; [reflexivity | constructor].
Qed.

Lemma step_Change (op : Operation) (st : Store) (id : N) (a : Appointment) :
  lookup id st = Some a ->
  exists a', lookup id (snd (step op st)) = Some a' /\ Change a a'.
Proof.
  intros Ha.
  assert (Hsame : exists a', lookup id st = Some a' /\ Change a a')
    by (exists a; split; [assumption | constructor]).
  destruct op as [r rate | t i to | actor i | u i r text]; simpl.
  - unfold insertUnique. destruct (existsb _ st); simpl; [assumption|].
    exists a. split; [now apply lookup_app | constructor].
  - unfold updateAppointmentStatus.
    destruct (lookup i st) as [b|] eqn:Eb; [|assumption].
    destruct (negb _); [assumption|].
    destruct (statusAllowed (status b) to) eqn:Et; [|assumption].
    simpl. apply (update_Change i id (setStatus to) st a b); auto.
    now constructor.
  - unfold cancelAppointment.
    destruct (lookup i st) as [b|] eqn:Eb; [|assumption].
    destruct (negb _); [assumption|].
    destruct (statusAllowed (status b) cancelled) eqn:Et; [|assumption].
    simpl. apply (update_Change i id (setStatus cancelled) st a b); auto.
    now constructor.
  - unfold reviewAppointment.
    destruct (lookup i st) as [b|] eqn:Eb; [|assumption].
    destruct (negb _); [assumption|].
    destruct (status b) eqn:Es; try assumption.
    destruct (rating b) eqn:Er; [assumption|].
    simpl. apply (update_Change i id (setReview r text) st a b); auto.
    now constructor.
Qed.

Lemma Change_status (a a' : Appointment) :
  Change a a' -> status a' = status a \/ Transition (status a) (status a').
Proof.
  intros [|to H|r text _ _]; simpl; auto.
  right. now apply statusAllowed_Transition.
Qed.

Lemma Change_final (a a' : Appointment) :
  Change a a' -> status a = completed \/ status a = cancelled ->
  status a' = status a.
Proof.
  intros [|to H|r text _ _] Hs; simpl; auto.
  destruct Hs as [Hs|Hs]; rewrite Hs in H; destruct to; discriminate.
Qed.

Lemma Change_completed (a a' : Appointment) :
  Change a a' -> status a = completed ->
  sameButReview a a'
  /\ (rating a <> None -> a' = a).
Proof.
  unfold sameButReview.
  intros [|to H|r text _ Hr] Hs; simpl.
  - repeat split; reflexivity.
  - rewrite Hs in H. destruct to; discriminate.
  - repeat split; try reflexivity. congruence.
Qed.

Lemma sameButReview_trans (a b c : Appointment) :
  sameButReview a b -> sameButReview b c -> sameButReview a c.
Proof. unfold sameButReview. intuition congruence. Qed.

Lemma run_cons (op : Operation) (ops : list Operation) (st : Store) :
  run (op :: ops) st = run ops (snd (step op st)).
Proof. reflexivity. Qed.

Lemma run_final (ops : list Operation) (st : Store) (id : N)
    (a : Appointment) :
  lookup id st = Some a ->
  status a = completed \/ status a = cancelled ->
  exists a', lookup id (run ops st) = Some a' /\ status a' = status a.
Proof.
  revert st a. induction ops as [|op ops IH]; intros st a Ha Hs.
  - exists a. auto.
  - rewrite run_cons.
    destruct (step_Change op st id a Ha) as [a1 [H1 Hc]].
    pose proof (Change_final _ _ Hc Hs) as E.
    destruct (IH _ a1 H1) as [a' [H' E']]; [now rewrite E|].
    exists a'. split; [assumption | congruence].
Qed.

Lemma run_completed (ops : list Operation) (st : Store) (id : N)
    (a : Appointment) :
  lookup id st = Some a -> status a = completed ->
  exists a', lookup id (run ops st) = Some a'
             /\ sameButReview a a'
             /\ (rating a <> None -> a' = a).
Proof.
  revert st a. induction ops as [|op ops IH]; intros st a Ha Hs.
  - exists a. unfold sameButReview. intuition.
  - rewrite run_cons.
    destruct (step_Change op st id a Ha) as [a1 [H1 Hc]].
    destruct (Change_completed _ _ Hc Hs) as [S1 K1].
    assert (Hs1 : status a1 = completed)
      by (destruct S1 as (_&_&_&_&_&_&E&_); congruence).
    destruct (IH _ a1 H1 Hs1) as [a' [H' [S' K']]].
    exists a'. split; [assumption|]. split.
    + now apply (sameButReview_trans a a1 a').
    + intros Hr. rewrite <- (K1 Hr). apply K'. now rewrite (K1 Hr).
Qed.

(** The status dialog holds, if anything, an appointment that was shown as
    pending. *)
Lemma dialogRequests_pending (es : list DialogEvent) (d : StatusDialog)
    (a : Appointment) (target : Status) :
  (forall b, selectedAppointment d = Some b -> status b = pending) ->
  In (a, target) (dialogRequests d es) ->
  status a = pending /\ (target = confirmed \/ target = cancelled).
Proof.
  revert d. induction es as [|e es IH]; intros d Hd; simpl; [tauto|].
  assert (Keep : In (a, target) (dialogRequests d es) ->
                 status a = pending
                 /\ (target = confirmed \/ target = cancelled))
    by (now apply IH).
  destruct e; simpl.
  - unfold showsUpdateStatus.
    destruct (Status_eqb (status a0) pending) eqn:E; simpl; [|assumption].
    destruct (selectedAppointment d); apply IH; simpl; intros b Hb;
      injection Hb as <-; destruct (status a0); try discriminate;
      reflexivity.
  - destruct (statusDialogOpen d); [|assumption].
    destruct (selectedAppointment d) as [b|] eqn:Eb; [|assumption].
    simpl. intros [H|H]; [|now apply Keep].
    injection H as <- <-. split; [now apply Hd | now left].
  - destruct (statusDialogOpen d); [|assumption].
    destruct (selectedAppointment d) as [b|] eqn:Eb; [|assumption].
    simpl. intros [H|H]; [|now apply Keep].
    injection H as <- <-. split; [now apply Hd | now right].
  - destruct (selectedAppointment d) eqn:Eb; apply IH; simpl;
      try discriminate. intros b Hb. apply Hd. congruence.
  - destruct (selectedAppointment d); apply IH; simpl; discriminate.
Qed.

(** C6: an operation leaves the status of an existing appointment as it
    is or moves it along pending to confirmed, pending to cancelled,
    confirmed to cancelled or confirmed to completed; an appointment that is
    completed or cancelled keeps that status through every sequence of
    operations; and the therapist dashboard only ever asks to move an
    appointment it showed as pending, to confirmed or to cancelled. *)
Theorem status_changes_follow_lifecycle :
  (forall op st id a,
      lookup id st = Some a ->
      exists a', lookup id (snd (step op st)) = Some a'
                 /\ (status a' = status a
                     \/ Transition (status a) (status a')))
  /\ (forall ops st id a,
         lookup id st = Some a ->
         status a = completed \/ status a = cancelled ->
         exists a', lookup id (run ops st) = Some a'
                    /\ status a' = status a)
  /\ (forall es a target,
         In (a, target) (dialogRequests initialDialog es) ->
         Transition (status a) target).
Proof.
  split; [|split].
  - intros op st id a Ha.
    destruct (step_Change op st id a Ha) as [a' [H' Hc]].
    exists a'. split; [assumption | now apply Change_status].
  - intros ops st id a. apply run_final.
  - intros es a target Hin.
    apply dialogRequests_pending in Hin; [|simpl; discriminate].
    destruct Hin as [-> [-> | ->]]; constructor.
Qed.

Lemma review_Ok (u id r : N) (text : jsstring) (st st' : Store) :
  reviewAppointment u id r text st = (Ok, st') ->
  exists a, lookup id st = Some a /\ user a = u
            /\ status a = completed /\ rating a = None
            /\ lookup id st' = Some (setReview r text a).
Proof.
  unfold reviewAppointment.
  destruct (lookup id st) as [a|] eqn:Ea; [|discriminate].
  destruct (user a =? u)%N eqn:Eu; simpl; [|discriminate].
  destruct (status a) eqn:Es; try discriminate.
  destruct (rating a) eqn:Er; [discriminate|].
  intros H. injection H as <-. exists a.
  apply N.eqb_eq in Eu. split; [reflexivity|].
  repeat (split; [assumption|]).
  rewrite lookup_update by reflexivity. rewrite Ea. simpl.
  apply lookup_id in Ea. rewrite Ea, N.eqb_refl. reflexivity.
Qed.

Lemma showsRateButton_iff (a : Appointment) :
  showsRateButton a = true
  <-> status a = completed /\ (rating a = None \/ rating a = Some 0%N).
Proof.
  unfold showsRateButton, unrated. rewrite andb_true_iff. split.
  - intros [Hs Hr]. split.
    + destruct (status a); try discriminate; reflexivity.
    + destruct (rating a) as [r|]; [right|now left].
      apply N.eqb_eq in Hr. now subst.
  - intros [-> [-> | ->]]; split; reflexivity.
Qed.

(** The rating dialog sends a review only for the appointment whose Rate
    button opened it, and only with a rating chosen. *)
Lemma handleSubmitRating_sends (d : RatingDialog) (id r : N)
    (text : jsstring) :
  handleSubmitRating d = Some (id, r, text) ->
  selectedAppointmentId d = Some id /\ ratingValue d = Some r
  /\ r <> 0%N /\ text = reviewText d.
Proof.
  unfold handleSubmitRating.
  destruct (selectedAppointmentId d) as [i|]; [|discriminate].
  destruct (ratingValue d) as [v|]; [|discriminate].
  destruct (v =? 0)%N eqn:E; [discriminate|].
  intros H. injection H as -> -> <-. apply N.eqb_neq in E. auto.
Qed.

(** A dialog that was just opened has no rating yet and sends nothing. *)
Lemma handleSubmitRating_fresh (id : N) :
  handleSubmitRating (handleOpenRatingDialog id) = None
  /\ handleSubmitRating handleCloseRatingDialog = None.
Proof. split; reflexivity. Qed.

(** C5: a review is accepted only for an appointment that is completed and
    has no rating, and the Rate button of the user dashboard is shown for
    exactly the completed appointments without a (non-zero) rating; once a
    review is accepted, no later review of that appointment is, whatever
    operations come in between; and through every sequence of operations a
    completed appointment keeps all its fields but the rating and the
    review. *)
Theorem review_once_per_completed_appointment :
  (forall u id r text st st',
      reviewAppointment u id r text st = (Ok, st') ->
      exists a, lookup id st = Some a
                /\ status a = completed /\ rating a = None
                /\ showsRateButton a = true)
  /\ (forall u id r text st st' ops u2 r2 text2,
         reviewAppointment u id r text st = (Ok, st') ->
         fst (reviewAppointment u2 id r2 text2 (run ops st')) <> Ok)
  /\ (forall ops st id a,
         lookup id st = Some a -> status a = completed ->
         exists a', lookup id (run ops st) = Some a'
                    /\ sameButReview a a').
Proof.
  split; [|split].
  - intros u id r text st st' H.
    destruct (review_Ok _ _ _ _ _ _ H) as [a (Ha & _ & Hs & Hr & _)].
    exists a. repeat (split; [assumption|]).
    apply showsRateButton_iff. auto.
  - intros u id r text st st' ops u2 r2 text2 H.
    destruct (review_Ok _ _ _ _ _ _ H) as [a (_ & _ & Hs & _ & Ha')].
    destruct (run_completed ops st' id (setReview r text a) Ha' Hs)
      as [a' (H' & _ & K)].
    rewrite (K ltac:(simpl; discriminate)) in H'.
    unfold reviewAppointment. rewrite H'. simpl.
    destruct (negb _); simpl; [discriminate|].
    rewrite Hs. simpl. discriminate.
  - intros ops st id a Ha Hs.
    destruct (run_completed ops st id a Ha Hs) as [a' (H' & S' & _)].
    now exists a'.
Qed.

End LifecycleFacts.

(* ================================================================== *)
(** * Two bookings of one slot *)
(* ================================================================== *)

Module BookingFacts.
Import Appointments.

Lemma sameSlot_sameBooking (r1 r2 : BookingRequest) (a : Appointment) :
  sameBooking r1 r2 -> sameSlot r1 a = sameSlot r2 a.
Proof. unfold sameBooking, sameSlot. intros (-> & -> & ->). reflexivity. Qed.

Lemma slotFree_sameBooking (r1 r2 : BookingRequest) (st : Store) :
  sameBooking r1 r2 -> slotFree r1 st -> slotFree r2 st.
Proof.
  unfold slotFree. intros Hs H. rewrite <- H.
  clear H. induction st as [|a st IH]; simpl; [reflexivity|].
  now rewrite IH, (sameSlot_sameBooking r1 r2 a Hs).
Qed.

Lemma insertUnique_free (r : BookingRequest) (rate : N) (st : Store) :
  slotFree r st ->
  insertUnique r rate st = (Created, st ++ [newAppointment r rate st]).
Proof. unfold slotFree, insertUnique. now intros ->. Qed.

Lemma sameSlot_new (r r' : BookingRequest) (rate : N) (st : Store) :
  sameBooking r r' -> sameSlot r' (newAppointment r rate st) = true.
Proof.
  unfold sameBooking, sameSlot. intros (E1 & E2 & E3). simpl.
  now rewrite E1, E2, E3, !N.eqb_refl, Nat.eqb_refl.
Qed.

Lemma insertUnique_taken (r r' : BookingRequest) (rate : N) (st : Store) :
  sameBooking r r' ->
  insertUnique r' rate (st ++ [newAppointment r rate st])
  = (Conflict, st ++ [newAppointment r rate st]).
Proof.
  intros Hs. unfold insertUnique. rewrite existsb_app. simpl.
  rewrite (sameSlot_new r r' rate st Hs). simpl.
  now rewrite orb_true_r.
Qed.

Lemma Conflict_code : code Conflict = 409 /\ code Created = 201.
Proof. split; reflexivity. Qed.

Lemma sameBooking_sym (r1 r2 : BookingRequest) :
  sameBooking r1 r2 -> sameBooking r2 r1.
Proof. unfold sameBooking. intuition. Qed.

Section Race.

Variables r1 r2 : BookingRequest.
Variable rate : N.
Variable st : Store.
Hypothesis same : sameBooking r1 r2.
Hypothesis free : slotFree r1 st.

Lemma schedStep_inv (s : Racing) (turn : bool) :
  RaceInv r1 r2 rate st s ->
  RaceInv r1 r2 rate st (schedStep r1 r2 rate s turn).
Proof.
  pose proof (slotFree_sameBooking r1 r2 st same free) as free2.
  pose proof (sameBooking_sym r1 r2 same) as same'.
  intros [p1 p2 U1 U2 | p2 U2 | p1 U1 | |]; destruct turn;
    unfold schedStep; simpl.
  - destruct p1; simpl; try contradiction.
    + now constructor.
    + rewrite (insertUnique_free r1 rate st free). now constructor.
  - destruct p2; simpl; try contradiction.
    + now constructor.
    + rewrite (insertUnique_free r2 rate st free2). now constructor.
  - now constructor.
  - destruct p2; simpl; try contradiction.
    + now constructor.
    + rewrite (insertUnique_taken r1 r2 rate st same). apply FirstWon.
  - destruct p1; simpl; try contradiction.
    + now constructor.
    + rewrite (insertUnique_taken r2 r1 rate st same'). apply SecondWon.
  - now constructor.
  - apply FirstWon.
  - apply FirstWon.
  - apply SecondWon.
  - apply SecondWon.
Qed.

Lemma advance_needed (r : BookingRequest) (ph : Phase) (db : Store) :
  needed (fst (advance r rate ph db)) = pred (needed ph).
Proof.
  destruct ph; simpl; try reflexivity.
  now destruct (insertUnique r rate db).
Qed.

Lemma schedStep_needed (s : Racing) (turn : bool) :
  needed (first (schedStep r1 r2 rate s turn))
  = (if turn then pred (needed (first s)) else needed (first s))
  /\ needed (second (schedStep r1 r2 rate s turn))
     = (if turn then needed (second s) else pred (needed (second s))).
Proof.
  unfold schedStep. destruct turn.
  - pose proof (advance_needed r1 (first s) (store s)) as H.
    destruct (advance r1 rate (first s) (store s)). simpl in *. auto.
  - pose proof (advance_needed r2 (second s) (store s)) as H.
    destruct (advance r2 rate (second s) (store s)). simpl in *. auto.
Qed.

Lemma race_from (schedule : list bool) (s : Racing) :
  RaceInv r1 r2 rate st s ->
  needed (first s) <= turns true schedule ->
  needed (second s) <= turns false schedule ->
  let s' := fold_left (schedStep r1 r2 rate) schedule s in
  RaceInv r1 r2 rate st s'
  /\ needed (first s') = 0 /\ needed (second s') = 0.
Proof.
  revert s. induction schedule as [|turn schedule IH]; intros s I N1 N2.
  - simpl in *. repeat split; [assumption | lia | lia].
  - simpl fold_left.
    destruct (schedStep_needed s turn) as [E1 E2].
    apply IH.
    + now apply schedStep_inv.
    + rewrite E1. unfold turns in *. destruct turn; simpl in N1; lia.
    + rewrite E2. unfold turns in *. destruct turn; simpl in N2; lia.
Qed.

End Race.

(** C4: two requests for the same therapist, date and slot, the slot being
    free, run as two handlers whose steps interleave in any order: when
    both have responded, one holds [Created], the other [Conflict] (409),
    and the collection has gained the winner's appointment and nothing
    else. *)
Theorem concurrent_booking_one_winner (r1 r2 : BookingRequest) (rate : N)
    (st : Store) (schedule : list bool) :
  sameBooking r1 r2 ->
  slotFree r1 st ->
  2 <= turns true schedule ->
  2 <= turns false schedule ->
  race r1 r2 rate st schedule
  = {| store := st ++ [newAppointment r1 rate st];
       first := Responded Created; second := Responded Conflict |}
  \/ race r1 r2 rate st schedule
     = {| store := st ++ [newAppointment r2 rate st];
          first := Responded Conflict; second := Responded Created |}.
Proof.
  intros same free T1 T2. unfold race.
  destruct (race_from r1 r2 rate st same free schedule
              {| store := st; first := Received; second := Received |})
    as (I & N1 & N2); try (simpl; assumption).
  { constructor; exact Logic.I. }
  destruct I as [p1 p2 U1 U2 | p2 U2 | p1 U1 | |]; simpl in N1, N2.
  - destruct p1; simpl in *; try contradiction; discriminate.
  - destruct p2; simpl in *; try contradiction; discriminate.
  - destruct p1; simpl in *; try contradiction; discriminate.
  - now left.
  - now right.
Qed.

End BookingFacts.

(* ================================================================== *)
(** * Available slots *)
(* ================================================================== *)

Module SlotFacts.
Import Appointments Slots.

Lemma enumerate_In (from to len : nat) (slot : TimeSlot) :
  In slot (enumerate from to len) ->
  from <= slotStart slot /\ slotEnd slot <= to
  /\ slotEnd slot = slotStart slot + len /\ 0 < len.
Proof.
  unfold enumerate. rewrite in_map_iff. intros [i [<- Hi]]. simpl.
  apply in_seq in Hi. destruct Hi as [_ Hi]. simpl in Hi.
  destruct len as [|len]; [simpl in Hi; lia|].
  pose proof (Nat.Div0.mul_div_le (to - from) (S len)) as Hd.
  assert (S len * (i + 1) <= S len * ((to - from) / S len))
    by (apply Nat.mul_le_mono_l; lia).
  repeat split; nia.
Qed.

Lemma blocks_false_no_overlap (t d : N) (slot : TimeSlot)
    (a : Appointment) :
  blocks t d slot a = false ->
  therapist a = t -> date a = d ->
  status a = confirmed \/ status a = pending ->
  ~ Overlap (slotStart slot) (slotEnd slot) (startTime a) (endTime a).
Proof.
  unfold blocks, active, Overlap. intros Hb <- <- Hs [x [H1 H2]].
  rewrite !N.eqb_refl in Hb. simpl in Hb.
  assert (Ha : match status a with
               | pending | confirmed => true
               | _ => false
               end = true) by (destruct Hs as [-> | ->]; reflexivity).
  rewrite Ha in Hb. simpl in Hb.
  apply andb_false_iff in Hb.
  destruct Hb as [Hb|Hb]; apply Nat.ltb_ge in Hb; lia.
Qed.

Lemma getAvailableSlots_In (cfg : Availability) (len : nat)
    (therapistId onDate : N) (st : Store) (slot : TimeSlot) :
  In slot (getAvailableSlots cfg len therapistId onDate st) ->
  available (cfg (dayOf onDate)) = true
  /\ In slot (enumerate (start (cfg (dayOf onDate)))
                (end_ (cfg (dayOf onDate))) len)
  /\ existsb (blocks therapistId onDate slot) st = false.
Proof.
  unfold getAvailableSlots.
  destruct (available (cfg (dayOf onDate))); [|contradiction].
  rewrite filter_In, negb_true_iff. tauto.
Qed.

(** C3: every slot the booking dialog holds after loading the slots of a
    therapist for a date lies inside the window of that day of the week,
    which is enabled, has the fixed length, and shares no minute with a
    confirmed or pending appointment of the therapist on that date; this
    needs no assumption on the availability configuration. *)
Theorem availableSlots_inside_window_and_free (cfg : Availability)
    (len : nat) (therapistId onDate : N) (st : Store)
    (before : BookingState) (slot : TimeSlot) :
  In slot
     (availableSlots
        (loadAvailableSlots (Some therapistId) (Some onDate)
           (slotsEndpoint cfg len st) before)) ->
  available (cfg (dayOf onDate)) = true
  /\ start (cfg (dayOf onDate)) <= slotStart slot
  /\ slotStart slot < slotEnd slot
  /\ slotEnd slot <= end_ (cfg (dayOf onDate))
  /\ slotEnd slot = slotStart slot + len
  /\ (forall a,
         In a st -> therapist a = therapistId -> date a = onDate ->
         status a = confirmed \/ status a = pending ->
         ~ Overlap (slotStart slot) (slotEnd slot)
             (startTime a) (endTime a)).
Proof.
  unfold loadAvailableSlots, slotsEndpoint. simpl. intros Hin.
  apply getAvailableSlots_In in Hin. destruct Hin as (Ha & Hin & Hfree).
  apply enumerate_In in Hin. destruct Hin as (H1 & H2 & H3 & H4).
  repeat split; try assumption; try lia.
  intros a Hst Ht Hd Hs.
  apply (blocks_false_no_overlap therapistId onDate); try assumption.
  destruct (blocks therapistId onDate slot a) eqn:Eb; [|reflexivity].
  rewrite <- Hfree. symmetry. apply existsb_exists. now exists a.
Qed.

End SlotFacts.

(* ================================================================== *)
(** * Role guards *)
(* ================================================================== *)

Module GuardFacts.
Import Guards.

Lemma PrivateRoute_user_on_admin (token : option jsstring) :
  PrivateRoute token (Some {| userType := Some (js "user") |}) [js "admin"]
  = Navigate (js "/user")
  \/ PrivateRoute token (Some {| userType := Some (js "user") |})
       [js "admin"]
     = Navigate (js "/login").
Proof.
  unfold PrivateRoute. destruct (truthy token); [left | right].
  - vm_compute. reflexivity.
  - reflexivity.
Qed.

(** C9: a request to an admin endpoint whose token verifies to a principal
    of role user is answered with 403 (a request with no token or a token
    that does not verify, with 401), and the state behind the endpoints is
    left as it was; on the client, the route guard of the admin page never
    renders the page for a stored user of type user. *)
Theorem user_token_refused_by_admin_route (State : Type)
    (verify : jsstring -> option Principal)
    (handler : AdminEndpoint -> Principal -> State -> nat * State)
    (token : jsstring) (p : Principal) (e : AdminEndpoint) (st : State) :
  verify token = Some p ->
  role p = user ->
  (fst (adminRoute verify handler e (Some token) st) = 403
   \/ fst (adminRoute verify handler e (Some token) st) = 401)
  /\ snd (adminRoute verify handler e (Some token) st) = st
  /\ adminRoute verify handler e None st = (401, st)
  /\ (forall stored,
         PrivateRoute stored (Some {| userType := Some (js "user") |})
           [js "admin"] <> children).
Proof.
  intros Hv Hr. unfold adminRoute, requireRole. rewrite Hv, Hr. simpl.
  repeat split; auto.
  intros stored. destruct (PrivateRoute_user_on_admin stored) as [-> | ->];
    discriminate.
Qed.

End GuardFacts.

(* ================================================================== *)
(** * The theorems at work *)
(* ================================================================== *)

Module Runs.
Import Js.

Module ChatbotRuns.
Import Chatbot Chatbot.Examples.

Lemma lastIndex_lt (n : nat) : 0 < n -> lastIndex n < n.
Proof. unfold lastIndex. lia. Defined.

(** C1 at work: a message that names sadness, worry and work as well as
    "end it". *)
Lemma crisis_keyword_run :
  (exists w, In w crisisKeywords
             /\ Contains (asciiToLowerCase crisisText) w)
  /\ generateLocalResponse asciiToLowerCase lastIndex crisisText
     = safetyMessage.
Proof.
  assert (H : exists w, In w crisisKeywords
                        /\ Contains (asciiToLowerCase crisisText) w).
  { exists (js "end it"). split.
    - unfold crisisKeywords. simpl. tauto.
    - apply includes_spec. vm_compute. reflexivity. }
  split; [exact H|].
  apply (crisis_keyword_gives_safetyMessage asciiToLowerCase lastIndex
           crisisText H).
Defined.

(** C2 at work: worry comes before exams in the order of the buckets. *)
Lemma first_matching_bucket_run :
  (forall n, 0 < n -> lastIndex n < n)
  /\ (exists b,
         FirstMatch (asciiToLowerCase worriedText) bucketOrder b
         /\ In (generateLocalResponse asciiToLowerCase lastIndex
                  worriedText) (responsesOf b))
  /\ (forall message',
         asciiToLowerCase message' = asciiToLowerCase worriedText ->
         generateLocalResponse asciiToLowerCase lastIndex message'
         = generateLocalResponse asciiToLowerCase lastIndex worriedText).
Proof.
  split; [exact lastIndex_lt|].
  apply (generateLocalResponse_first_matching_bucket asciiToLowerCase
           lastIndex worriedText lastIndex_lt).
Defined.

(** C7 at work: three blanks are refused; the collection stays as it
    was. *)
Lemma blank_message_run :
  whitespaceOnly (js "   ")
  /\ exists errors,
       send asciiToLowerCase lastIndex allSaved clock0 1%N
         {| body_message := Some (js "   "); body_sessionId := None |} db0
       = (Status400 errors, db0)
       /\ In messageError errors.
Proof.
  assert (H : whitespaceOnly (js "   "))
    by (vm_compute; repeat constructor).
  split; [exact H|].
  apply (proj1 (send_blank_message_400 asciiToLowerCase lastIndex allSaved
                  clock0 1%N (js "   ") None db0) H).
Defined.

(** C8 at work: a plain message in the session "s1". *)
Lemma send_run :
  send asciiToLowerCase lastIndex allSaved clock0 1%N plainBody db0
  = (Json plainAiRow (js "s1"), db0 ++ [plainUserRow; plainAiRow])
  /\ exists m userMessage,
       body_message plainBody = Some m
       /\ db0 ++ [plainUserRow; plainAiRow]
          = db0 ++ [userMessage; plainAiRow]
       /\ messageType userMessage = user_
       /\ message userMessage = trim m
       /\ messageType plainAiRow = ai
       /\ message plainAiRow
          = generateLocalResponse asciiToLowerCase lastIndex (trim m)
       /\ sessionId userMessage = js "s1"
       /\ sessionId plainAiRow = js "s1"
       /\ user userMessage = 1%N
       /\ user plainAiRow = 1%N
       /\ (forall s, body_sessionId plainBody = Some (JString s) ->
                     s <> [] -> js "s1" = s)
       /\ (body_sessionId plainBody = None
           \/ exists s, body_sessionId plainBody = Some (JString s))
       /\ (body_sessionId plainBody = None
           \/ body_sessionId plainBody = Some (JString []) ->
           js "s1" = js "session_" ++ ofN (dateNow clock0))
       /\ js "s1" <> [].
Proof.
  assert (H : send asciiToLowerCase lastIndex allSaved clock0 1%N
                plainBody db0
              = (Json plainAiRow (js "s1"),
                 db0 ++ [plainUserRow; plainAiRow]))
    by (vm_compute; reflexivity).
  split; [exact H|].
  apply (proj1 (send_appends_user_and_ai_rows asciiToLowerCase lastIndex
                  allSaved)
           clock0 1%N plainBody db0 plainAiRow (js "s1")
           (db0 ++ [plainUserRow; plainAiRow]) H).
Defined.

(** C8 as it was stated fails on [{ message: " hi ", sessionId: "" }]:
    the call succeeds, the user row holds "hi" and not the request's
    " hi ", and the session id is a new one and not the request's. *)
Lemma send_paddedBody_trims_and_renames :
  exists userMessage aiMessage sid,
    send asciiToLowerCase lastIndex allSaved clock0 1%N paddedBody []
    = (Json aiMessage sid, [userMessage; aiMessage])
    /\ body_message paddedBody = Some (js " hi ")
    /\ message userMessage = js "hi"
    /\ message userMessage <> js " hi "
    /\ body_sessionId paddedBody = Some (JString [])
    /\ sid = js "session_1700000000000"
    /\ sid <> [].
Proof.
  eexists. eexists. eexists.
  split; [vm_compute; reflexivity|].
  split; [reflexivity|].
  split; [vm_compute; reflexivity|].
  split; [vm_compute; discriminate|].
  split; [reflexivity|].
  split; [vm_compute; reflexivity|].
  vm_compute. discriminate.
Qed.

(** C10 at work: the history of user 1 in a collection shared with
    user 2. *)
Lemma history_run :
  history 1%N allRows db0 = Some history1
  /\ In (row 1%N "s3" "work" user_ 14%N) (messages history1)
  /\ In (row 1%N "s3" "work" user_ 14%N) db0
  /\ user (row 1%N "s3" "work" user_ 14%N) = 1%N.
Proof.
  assert (H : history 1%N allRows db0 = Some history1)
    by (vm_compute; reflexivity).
  assert (Hin : In (row 1%N "s3" "work" user_ 14%N) (messages history1))
    by (simpl; tauto).
  split; [exact H|]. split; [exact Hin|].
  apply (proj1 (history_sessions_own_rows_only 1%N db0)
           allRows history1 (row 1%N "s3" "work" user_ 14%N) H Hin).
Defined.

End ChatbotRuns.

Module AppointmentRuns.
Import Appointments Appointments.Examples Slots.

(** C3 at work: Monday, one-hour slots; 10:00 is offered, 09:00 is
    taken. *)
Lemma availableSlots_run :
  In {| slotStart := 600; slotEnd := 660 |}
     (availableSlots
        (loadAvailableSlots (Some 7%N) (Some 4%N)
           (slotsEndpoint defaultAvailability 60 store0) initialBooking))
  /\ available (defaultAvailability (dayOf 4)) = true
  /\ start (defaultAvailability (dayOf 4)) <= 600
  /\ 600 < 660
  /\ 660 <= end_ (defaultAvailability (dayOf 4))
  /\ 660 = 600 + 60
  /\ (forall a,
         In a store0 -> therapist a = 7%N -> date a = 4%N ->
         status a = confirmed \/ status a = pending ->
         ~ Overlap 600 660 (startTime a) (endTime a)).
Proof.
  assert (H : In {| slotStart := 600; slotEnd := 660 |}
                 (availableSlots
                    (loadAvailableSlots (Some 7%N) (Some 4%N)
                       (slotsEndpoint defaultAvailability 60 store0)
                       initialBooking)))
    by (vm_compute; tauto).
  split; [exact H|].
  apply (SlotFacts.availableSlots_inside_window_and_free
           defaultAvailability 60 7 4 store0 initialBooking
           {| slotStart := 600; slotEnd := 660 |} H).
Defined.

(** C4 at work: users 1 and 2 both ask for 10:00, the second handler
    writes first. *)
Lemma concurrent_booking_run :
  sameBooking (request 1) (request 2)
  /\ slotFree (request 1) store0
  /\ 2 <= turns true [true; false; false; true]
  /\ 2 <= turns false [true; false; false; true]
  /\ (race (request 1) (request 2) 50 store0 [true; false; false; true]
      = {| store := store0 ++ [newAppointment (request 1) 50 store0];
           first := Responded Created; second := Responded Conflict |}
      \/ race (request 1) (request 2) 50 store0 [true; false; false; true]
         = {| store := store0 ++ [newAppointment (request 2) 50 store0];
              first := Responded Conflict;
              second := Responded Created |}).
Proof.
  assert (H1 : sameBooking (request 1) (request 2))
    by (repeat split; reflexivity).
  assert (H2 : slotFree (request 1) store0) by reflexivity.
  assert (H3 : 2 <= turns true [true; false; false; true])
    by (vm_compute; lia).
  assert (H4 : 2 <= turns false [true; false; false; true])
    by (vm_compute; lia).
  repeat (split; [assumption|]).
  apply (BookingFacts.concurrent_booking_one_winner (request 1) (request 2)
           50 store0 [true; false; false; true] H1 H2 H3 H4).
Defined.

(** C5 at work: user 1 reviews the completed appointment 3. *)
Lemma review_run :
  reviewAppointment 1 3 5 (js "Very helpful") store0
  = (Ok, update 3 (setReview 5 (js "Very helpful")) store0)
  /\ exists a, lookup 3 store0 = Some a
               /\ status a = completed /\ rating a = None
               /\ showsRateButton a = true.
Proof.
  assert (H : reviewAppointment 1 3 5 (js "Very helpful") store0
              = (Ok, update 3 (setReview 5 (js "Very helpful")) store0))
    by reflexivity.
  split; [exact H|].
  apply (proj1 LifecycleFacts.review_once_per_completed_appointment
           1%N 3%N 5%N (js "Very helpful") store0
           (update 3 (setReview 5 (js "Very helpful")) store0) H).
Defined.

(** C6 at work: the therapist confirms the pending appointment 1. *)
Lemma status_update_run :
  lookup 1 store0 = Some (appt 1 1 540 600 pending None)
  /\ exists a',
       lookup 1 (snd (step (UpdateStatus 7 1 confirmed) store0)) = Some a'
       /\ (status a' = status (appt 1 1 540 600 pending None)
           \/ Transition (status (appt 1 1 540 600 pending None))
                (status a')).
Proof.
  assert (H : lookup 1 store0 = Some (appt 1 1 540 600 pending None))
    by reflexivity.
  split; [exact H|].
  apply (proj1 LifecycleFacts.status_changes_follow_lifecycle
           (UpdateStatus 7 1 confirmed) store0 1%N
           (appt 1 1 540 600 pending None) H).
Defined.

End AppointmentRuns.

Module GuardRuns.
Import Guards.

(** C9 at work: a user's token on DELETE /admin/users/5. *)
Lemma user_token_run :
  Guards.Examples.verify (js "user")
  = Some {| principalId := 1; role := user |}
  /\ role {| principalId := 1; role := user |} = user
  /\ (fst (adminRoute Guards.Examples.verify Guards.Examples.handler
             (deleteUser 5) (Some (js "user")) 0) = 403
      \/ fst (adminRoute Guards.Examples.verify Guards.Examples.handler
                (deleteUser 5) (Some (js "user")) 0) = 401)
  /\ snd (adminRoute Guards.Examples.verify Guards.Examples.handler
            (deleteUser 5) (Some (js "user")) 0) = 0
  /\ adminRoute Guards.Examples.verify Guards.Examples.handler
       (deleteUser 5) None 0 = (401, 0)
  /\ (forall stored,
         PrivateRoute stored (Some {| userType := Some (js "user") |})
           [js "admin"] <> children).
Proof.
  assert (H : Guards.Examples.verify (js "user")
              = Some {| principalId := 1; role := user |})
    by (vm_compute; reflexivity).
  split; [exact H|]. split; [reflexivity|].
  apply (GuardFacts.user_token_refused_by_admin_route nat
           Guards.Examples.verify Guards.Examples.handler (js "user")
           {| principalId := 1; role := user |} (deleteUser 5) 0 H
           eq_refl).
Defined.

End GuardRuns.

End Runs.


(* ================================================================== *)
(** * More about the chatbot route *)
(* ================================================================== *)

Module ChatbotMoreFacts.
Import Js Chatbot ChatbotMore.

Lemma memb_false (x : jsstring) (l : list jsstring) :
  memb x l = false -> ~ In x l.
Proof.
  unfold memb. intros H Hin.
  assert (existsb (Js.eqb x) l = true)
    by (apply existsb_exists; exists x; split;
        [assumption | now apply js_eqb_eq]).
  congruence.
Qed.

Lemma nth_apart (i : nat) (l : list jsstring) (x : jsstring) :
  memb x l = false -> x <> undefined -> nth i l undefined <> x.
Proof.
  intros Hm Hu E. destruct (nth_in_or_default i l undefined) as [H|H].
  - rewrite E in H. now apply (memb_false x l).
  - congruence.
Qed.

Lemma safetyMessage_apart :
  safetyMessage <> undefined
  /\ forall l, In l pickedLists -> memb safetyMessage l = false.
Proof.
  split; [vm_compute; discriminate|].
  assert (H : forallb (fun l => negb (memb safetyMessage l)) pickedLists
              = true) by (vm_compute; reflexivity).
  intros l Hl. rewrite forallb_forall in H.
  apply negb_true_iff. now apply H.
Qed.

Lemma pick_not_safetyMessage (randomFloor : nat -> nat)
    (l : list jsstring) :
  In l pickedLists -> pick randomFloor l <> safetyMessage.
Proof.
  intros Hl. destruct safetyMessage_apart as [Hu Ha].
  unfold pick. apply nth_apart; auto.
Qed.

(** X1: the safety message is the reply only when a crisis keyword occurs
    in the lower-cased message, whatever the random draw. *)
Theorem safetyMessage_only_for_crisis
    (toLowerCase : jsstring -> jsstring) (randomFloor : nat -> nat)
    (message : jsstring) :
  generateLocalResponse toLowerCase randomFloor message = safetyMessage ->
  exists w, In w crisisKeywords /\ Contains (toLowerCase message) w.
Proof.
  rewrite generateLocalResponse_chain. cbv zeta.
  set (text := toLowerCase message).
  destruct (has text (keywordsOf Crisis)) eqn:H0.
  { intros _. now apply has_spec. }
  assert (P : forall l n, nth_error pickedLists n = Some l ->
                          pick randomFloor l = safetyMessage -> False).
  { intros l n Hl E. apply nth_error_In in Hl.
    now apply (pick_not_safetyMessage randomFloor l). }
  destruct (has text (keywordsOf Panic));
    [intros E; exfalso; exact (P _ 0 eq_refl E)|].
  destruct (has text (keywordsOf Anxiety));
    [intros E; exfalso; exact (P _ 1 eq_refl E)|].
  destruct (has text (keywordsOf LowMood));
    [intros E; exfalso; exact (P _ 2 eq_refl E)|].
  destruct (has text (keywordsOf Stress));
    [intros E; exfalso; exact (P _ 3 eq_refl E)|].
  destruct (has text (keywordsOf Sleep));
    [intros E; exfalso; exact (P _ 4 eq_refl E)|].
  destruct (has text (keywordsOf Anger));
    [intros E; exfalso; exact (P _ 5 eq_refl E)|].
  destruct (has text (keywordsOf Relationship));
    [intros E; exfalso; exact (P _ 6 eq_refl E)|].
  destruct (has text (keywordsOf WorkStudy));
    [intros E; exfalso; exact (P _ 7 eq_refl E)|].
  destruct (has text (keywordsOf Physical));
    [intros E; exfalso; exact (P _ 8 eq_refl E)|].
  destruct (has text (keywordsOf Greeting));
    [intros E; exfalso; exact (P _ 9 eq_refl E)|].
  intros E; exfalso; exact (P _ 10 eq_refl E).
Qed.

Lemma sessionIdOr_nonempty (existing : option JsonField) (now : N) :
  sessionIdOr existing now <> [].
Proof.
  assert (G : js "session_" ++ ofN now <> [])
    by (vm_compute (js "session_"); discriminate).
  unfold sessionIdOr.
  destruct existing as [[[|c s]|]|]; try exact G. discriminate.
Qed.

Section SendFacts.

Variable toLowerCase : jsstring -> jsstring.
Variable randomFloor : nat -> nat.
Variable saves : ChatMessage -> bool.

Lemma send_cases (clock : Clock) (uid : UserId) (b : SendBody)
    (db : Collection) :
  send toLowerCase randomFloor saves clock uid b db
  = match validationResult b with
    | _ :: _ => (Status400 (validationResult b), db)
    | [] =>
        if saves (userRow clock uid b) then
          if saves (aiRow toLowerCase randomFloor clock uid b) then
            (Json (aiRow toLowerCase randomFloor clock uid b)
               (sessionIdOr (body_sessionId b) (dateNow clock)),
             db ++ [userRow clock uid b;
                    aiRow toLowerCase randomFloor clock uid b])
          else (NextError, db ++ [userRow clock uid b])
        else (NextError, db)
    end.
Proof.
  unfold send, save, userRow, aiRow.
  destruct (validationResult b); [|reflexivity].
  destruct (saves _); [|reflexivity].
  destruct (saves _); [|reflexivity].
  now rewrite <- app_assoc.
Qed.

Lemma send_Json (clock : Clock) (uid : UserId) (b : SendBody)
    (db db' : Collection) (a : ChatMessage) (sid : jsstring) :
  send toLowerCase randomFloor saves clock uid b db = (Json a sid, db') ->
  a = aiRow toLowerCase randomFloor clock uid b
  /\ sid = sessionIdOr (body_sessionId b) (dateNow clock)
  /\ db' = db ++ [userRow clock uid b; a].
Proof.
  rewrite send_cases.
  destruct (validationResult b); [|discriminate].
  destruct (saves _); [|discriminate].
  destruct (saves _); [|discriminate].
  intros H. injection H as <- <- <-. auto.
Qed.

(** X2: the two writes of a call are not atomic.  When the call ends in the
    error handler, either nothing was stored, or the save of the reply was
    the one that failed and the user's row stays in the collection, where
    the user's next history query finds it. *)
Theorem send_error_may_keep_user_row (clock : Clock) (uid : UserId)
    (b : SendBody) (db : Collection) :
  fst (send toLowerCase randomFloor saves clock uid b db) = NextError ->
  snd (send toLowerCase randomFloor saves clock uid b db) = db
  \/ (saves (userRow clock uid b) = true
      /\ saves (aiRow toLowerCase randomFloor clock uid b) = false
      /\ snd (send toLowerCase randomFloor saves clock uid b db)
         = db ++ [userRow clock uid b]
      /\ find uid None
           (snd (send toLowerCase randomFloor saves clock uid b db))
         = find uid None db ++ [userRow clock uid b]).
Proof.
  rewrite send_cases.
  destruct (validationResult b); [|discriminate].
  destruct (saves (userRow clock uid b)) eqn:Eu; [|now left].
  destruct (saves (aiRow toLowerCase randomFloor clock uid b)) eqn:Ea;
    [discriminate|].
  intros _. right. simpl. repeat split.
  unfold find. rewrite filter_app. simpl.
  unfold matchesFilter at 2. simpl. now rewrite N.eqb_refl.
Qed.

(** X3: the session id of a response is never empty, and a later request
    that sends it back is stored and answered under that same id. *)
Theorem returned_session_is_kept (clock1 clock2 : Clock) (uid : UserId)
    (b1 : SendBody) (db db1 db2 : Collection) (a1 a2 : ChatMessage)
    (sid sid2 text : jsstring) :
  send toLowerCase randomFloor saves clock1 uid b1 db
  = (Json a1 sid, db1) ->
  send toLowerCase randomFloor saves clock2 uid (followUp text sid) db1
  = (Json a2 sid2, db2) ->
  sid <> [] /\ sid2 = sid
  /\ exists u2, db2 = db1 ++ [u2; a2]
                /\ sessionId u2 = sid /\ sessionId a2 = sid.
Proof.
  intros H1 H2.
  apply send_Json in H1. destruct H1 as (_ & E1 & _).
  apply send_Json in H2. destruct H2 as (Ea & E2 & Ed).
  assert (Hne : sid <> []) by (rewrite E1; apply sessionIdOr_nonempty).
  assert (Hk : sessionIdOr (Some (JString sid)) (dateNow clock2) = sid)
    by (now apply sessionIdOr_provided).
  change (body_sessionId (followUp text sid))
    with (Some (JString sid)) in E2.
  rewrite Hk in E2.
  split; [assumption|]. split; [assumption|].
  exists (userRow clock2 uid (followUp text sid)).
  split; [assumption|]. rewrite Ea. unfold userRow, aiRow.
  change (body_sessionId (followUp text sid)) with (Some (JString sid)).
  cbn [sessionId]. now rewrite Hk.
Qed.

End SendFacts.

(** ** Sorting *)

Section SortMore.
Variable A : Type.
Variable key : A -> N.

Lemma insertDesc_Permutation (x : A) (l : list A) :
  Permutation (insertDesc key x l) (x :: l).
Proof.
  induction l as [|y l IH]; simpl; [reflexivity|].
  destruct (key y <? key x)%N; [reflexivity|].
  rewrite IH. apply perm_swap.
Qed.

Lemma sortDesc_Permutation (l : list A) : Permutation (sortDesc key l) l.
Proof.
  induction l as [|x l IH]; simpl; [reflexivity|].
  rewrite insertDesc_Permutation. now constructor.
Qed.

Lemma insertDesc_sorted (x : A) (l : list A) :
  NewestFirst key l -> NewestFirst key (insertDesc key x l).
Proof.
  unfold NewestFirst. induction l as [|y l IH]; intros Hs; simpl.
  - repeat constructor.
  - inversion Hs as [|? ? Hl Hy]; subst.
    destruct (key y <? key x)%N eqn:E.
    + apply N.ltb_lt in E. constructor; [assumption|].
      constructor; [lia|]. rewrite Forall_forall in *.
      intros z Hz. specialize (Hy z Hz). simpl in Hy. lia.
    + apply N.ltb_ge in E. constructor; [now apply IH|].
      rewrite Forall_forall in *. intros z Hz.
      apply insertDesc_In in Hz. destruct Hz as [->|Hz]; auto.
Qed.

Lemma sortDesc_sorted (l : list A) : NewestFirst key (sortDesc key l).
Proof.
  induction l as [|x l IH]; simpl; [constructor|].
  now apply insertDesc_sorted.
Qed.
End SortMore.

Lemma StronglySorted_skipn (A : Type) (R : A -> A -> Prop) (n : nat)
    (l : list A) :
  StronglySorted R l -> StronglySorted R (skipn n l).
Proof.
  revert l. induction n as [|n IH]; intros l H; [exact H|].
  destruct l as [|x l]; [constructor|]. simpl. apply IH.
  now inversion H.
Qed.

Lemma StronglySorted_firstn (A : Type) (R : A -> A -> Prop) (n : nat)
    (l : list A) :
  StronglySorted R l -> StronglySorted R (firstn n l).
Proof.
  revert l. induction n as [|n IH]; intros l H; [constructor|].
  destruct l as [|x l]; [constructor|]. simpl.
  inversion H as [|? ? Hl Hx]; subst. constructor; [now apply IH|].
  rewrite Forall_forall in *. intros z Hz. apply Hx.
  now apply (In_firstn_In A n l z).
Qed.

Lemma StronglySorted_snoc (A : Type) (R : A -> A -> Prop) (l : list A)
    (x : A) :
  StronglySorted R l -> Forall (fun y => R y x) l ->
  StronglySorted R (l ++ [x]).
Proof.
  induction l as [|y l IH]; intros Hs Hf; simpl.
  - repeat constructor.
  - inversion Hs as [|? ? Hl Hy]; subst. inversion Hf; subst.
    constructor; [now apply IH|].
    apply Forall_app. split; [assumption | now constructor].
Qed.

Lemma StronglySorted_rev (A : Type) (R : A -> A -> Prop) (l : list A) :
  StronglySorted R l -> StronglySorted (fun a b => R b a) (rev l).
Proof.
  induction 1 as [|x l Hl IH Hx]; simpl; [constructor|].
  apply StronglySorted_snoc; [assumption|].
  apply Forall_rev. exact Hx.
Qed.

(** ** GET /history *)

Lemma history_Some (uid : UserId) (q : HistoryQuery) (db : Collection)
    (r : HistoryResponse) :
  history uid q db = Some r ->
  let page := match q_page q with Some p => p | None => 1%N end in
  let limit := match q_limit q with Some l => l | None => 50%N end in
  messages r
  = rev (limitTo limit
           (skipn (N.to_nat ((page - 1) * limit))
              (sortDesc createdAt (find uid (q_sessionId q) db))))
  /\ total r = List.length (find uid (q_sessionId q) db).
Proof.
  unfold history. destruct (_ && _)%bool; [discriminate|].
  intros H. injection H as <-. simpl. auto.
Qed.

(** X4: the messages of a history response are in chronological order:
    no message comes before one with an earlier creation time. *)
Theorem history_is_chronological (uid : UserId) (q : HistoryQuery)
    (db : Collection) (r : HistoryResponse) :
  history uid q db = Some r -> Chronological (messages r).
Proof.
  intros H. apply history_Some in H. destruct H as [-> _].
  unfold Chronological.
  apply (StronglySorted_rev ChatMessage
           (fun a b => (createdAt b <= createdAt a)%N)).
  unfold limitTo. destruct (_ =? 0)%N.
  - apply StronglySorted_skipn. apply sortDesc_sorted.
  - apply StronglySorted_firstn, StronglySorted_skipn.
    apply sortDesc_sorted.
Qed.

Lemma history_bounds (uid : UserId) (q : HistoryQuery)
    (db : Collection) (r : HistoryResponse) :
  history uid q db = Some r ->
  (forall limit, q_limit q = Some limit -> limit <> 0%N ->
                 List.length (messages r) <= N.to_nat limit)
  /\ (q_limit q = None -> List.length (messages r) <= 50)
  /\ total r = List.length (find uid (q_sessionId q) db)
  /\ List.length (messages r) <= total r.
Proof.
  intros H. apply history_Some in H. destruct H as [Em Et].
  assert (B : forall limit l,
             limit <> 0%N ->
             List.length (limitTo limit l) <= N.to_nat limit).
  { intros limit l Hl. unfold limitTo.
    apply N.eqb_neq in Hl. rewrite Hl. apply firstn_le_length. }
  assert (L : forall limit n,
             List.length
               (limitTo limit
                  (skipn n (sortDesc createdAt
                              (find uid (q_sessionId q) db))))
             <= List.length (find uid (q_sessionId q) db)).
  { intros limit n.
    rewrite <- (Permutation_length
                  (sortDesc_Permutation ChatMessage createdAt
                     (find uid (q_sessionId q) db))).
    unfold limitTo. destruct (limit =? 0)%N.
    - rewrite length_skipn. lia.
    - rewrite length_firstn, length_skipn. lia. }
  rewrite Em, Et, length_rev. repeat split.
  - intros limit El Hl. rewrite El. now apply B.
  - intros El. rewrite El. now apply (B 50%N).
  - apply L.
Qed.

Lemma queryOf_Some (pq : ParsedQuery) (q : HistoryQuery) :
  queryOf pq = Some q ->
  q_sessionId q = p_sessionId pq
  /\ natural (p_page pq) = Some (q_page q)
  /\ natural (p_limit pq) = Some (q_limit q).
Proof.
  unfold queryOf.
  destruct (natural (p_page pq)), (natural (p_limit pq)); try discriminate.
  intros H. injection H as <-. auto.
Qed.

Lemma natural_Int (z : Z) (n : option N) :
  natural (Some (Int z)) = Some n -> (0 <= z)%Z /\ n = Some (Z.to_N z).
Proof.
  simpl. destruct (Z.leb_spec 0 z) as [Hz|Hz]; [|discriminate].
  intros E. injection E as <-. auto.
Qed.

(** X5: for a [page] and a [limit] that parse to natural numbers, a history
    response holds at most [limit] messages when the limit is not zero, and
    at most 50 when none is given; its [total] counts all the rows of the
    user that match the query, whatever the page, and is never less than
    the number of messages returned.  (A negative or [NaN] value reaches
    the driver unchecked; nothing is said of it.) *)
Theorem history_page_is_bounded (uid : UserId) (pq : ParsedQuery)
    (q : HistoryQuery) (db : Collection) (r : HistoryResponse) :
  queryOf pq = Some q -> history uid q db = Some r ->
  (forall limit, p_limit pq = Some (Int limit) -> limit <> 0%Z ->
                 List.length (messages r) <= Z.to_nat limit)
  /\ (p_limit pq = None -> List.length (messages r) <= 50)
  /\ total r = List.length (find uid (p_sessionId pq) db)
  /\ List.length (messages r) <= total r.
Proof.
  intros Hq H. destruct (queryOf_Some pq q Hq) as (Es & _ & El).
  destruct (history_bounds uid q db r H) as (B1 & B2 & B3 & B4).
  rewrite <- Es. split; [|split; [|split]]; auto.
  - intros limit E Hl. rewrite E in El.
    apply natural_Int in El. destruct El as [Hz El].
    rewrite <- Z_N_nat. apply B1; [assumption | lia].
  - intros E. rewrite E in El. simpl in El. injection El as El.
    now apply B2.
Qed.

Lemma firstn_add (A : Type) (a b : nat) (l : list A) :
  firstn (a + b) l = firstn a l ++ firstn b (skipn a l).
Proof.
  revert l. induction a as [|a IH]; intros l; [reflexivity|].
  destruct l as [|x l]; simpl.
  - now rewrite firstn_nil.
  - now rewrite IH.
Qed.

Lemma pageNewestFirst_slice (uid : UserId) (sid : option jsstring)
    (limit : Z) (db : Collection) (p : nat) :
  (0 < limit)%Z ->
  exists q r,
    queryOf (pageQuery sid (Z.of_nat (S p)) limit) = Some q
    /\ history uid q db = Some r
    /\ pageNewestFirst uid sid limit db (S p) = rev (messages r)
    /\ rev (messages r)
       = firstn (Z.to_nat limit)
           (skipn (p * Z.to_nat limit)
              (sortDesc createdAt (find uid sid db))).
Proof.
  intros Hl. remember (Z.of_nat (S p)) as page eqn:Ep.
  assert (Hq : queryOf (pageQuery sid page limit)
               = Some {| q_sessionId := sid; q_page := Some (Z.to_N page);
                         q_limit := Some (Z.to_N limit) |}).
  { unfold queryOf, pageQuery, natural. cbn [p_page p_limit p_sessionId].
    destruct (Z.leb_spec 0 page); [|lia].
    destruct (Z.leb_spec 0 limit); [reflexivity|lia]. }
  assert (Hp : (Z.to_N page =? 0)%N = false) by (apply N.eqb_neq; lia).
  assert (Hn : (Z.to_N limit =? 0)%N = false) by (apply N.eqb_neq; lia).
  destruct (history uid
              {| q_sessionId := sid; q_page := Some (Z.to_N page);
                 q_limit := Some (Z.to_N limit) |} db) as [r|] eqn:H.
  - eexists. exists r. split; [exact Hq|]. split; [exact H|].
    split; [unfold pageNewestFirst; rewrite <- Ep, Hq, H; reflexivity|].
    apply history_Some in H. cbn [q_page q_limit q_sessionId] in H.
    destruct H as [-> _]. rewrite rev_involutive. unfold limitTo.
    rewrite Hn, Z_N_nat. f_equal. f_equal.
    rewrite N2Nat.inj_mul, Z_N_nat. f_equal. lia.
  - unfold history in H. cbn [q_page q_limit q_sessionId] in H.
    rewrite Hp in H. discriminate.
Qed.

Lemma newest_first_unique (A : Type) (key : A -> N) (l l' : list A) :
  NewestFirst key l -> NewestFirst key l' -> Permutation l l' ->
  NoDup (map key l) -> l = l'.
Proof.
  unfold NewestFirst. intros Hs. revert l'.
  induction Hs as [|x l Hs IH Hx]; intros l' Hs' P Hd.
  - now apply Permutation_nil in P.
  - destruct l' as [|y l'].
    + apply Permutation_sym, Permutation_nil in P. discriminate.
    + inversion Hs' as [|? ? Hl' Hy]; subst.
      inversion Hd as [|? ? Hnin Hd']; subst.
      rewrite Forall_forall in Hx, Hy.
      assert (E : x = y).
      { assert (Ix : In x (y :: l'))
          by (apply (Permutation_in _ P); now left).
        assert (Iy : In y (x :: l))
          by (apply (Permutation_in _ (Permutation_sym P)); now left).
        destruct Ix as [Ix|Ix]; [now symmetry|].
        destruct Iy as [Iy|Iy]; [assumption|].
        exfalso. apply Hnin.
        assert (K : key x = key y).
        { apply N.le_antisymm; [now apply Hy | now apply Hx]. }
        rewrite K. now apply in_map. }
      subst y. f_equal. apply IH; [assumption| |assumption].
      now apply Permutation_cons_inv in P.
Qed.

(** X6: when the matching rows have pairwise different creation times
    there is one newest-first order only, the one the model's sort gives,
    so every query sorts alike; for a limit that parses to a positive
    integer each of the pages 1, 2, ... then gets a response, and read one
    after the other from the same collection the pages 1 to n are the
    first n times limit rows of that order: paging skips no row and
    repeats none.  (Rows of equal
    creation time may come in another order in each query; nothing is said
    of them.) *)
Theorem history_pages_tile (uid : UserId) (sid : option jsstring)
    (limit : Z) (db : Collection) (n : nat) :
  (0 < limit)%Z ->
  NoDup (map createdAt (find uid sid db)) ->
  (forall sorted,
      Permutation (find uid sid db) sorted ->
      NewestFirst createdAt sorted ->
      sorted = sortDesc createdAt (find uid sid db))
  /\ (forall p, 1 <= p ->
        exists q r,
          queryOf (pageQuery sid (Z.of_nat p) limit) = Some q
          /\ history uid q db = Some r
          /\ pageNewestFirst uid sid limit db p = rev (messages r))
  /\ List.concat (map (pageNewestFirst uid sid limit db) (seq 1 n))
     = firstn (n * Z.to_nat limit) (sortDesc createdAt (find uid sid db)).
Proof.
  intros Hl Hd. split; [|split].
  - intros sorted P Hs. symmetry.
    apply (newest_first_unique ChatMessage createdAt).
    + apply sortDesc_sorted.
    + exact Hs.
    + apply (Permutation_trans
               (sortDesc_Permutation ChatMessage createdAt
                  (find uid sid db)) P).
    + apply (Permutation_NoDup
               (Permutation_map createdAt
                  (Permutation_sym
                     (sortDesc_Permutation ChatMessage createdAt
                        (find uid sid db)))) Hd).
  - intros [|p] Hp; [lia|].
    destruct (pageNewestFirst_slice uid sid limit db p Hl)
      as (q & r & Hq & Hr & E & _).
    now exists q, r.
  - induction n as [|n IH]; [reflexivity|].
    rewrite seq_S, map_app, concat_app, IH. simpl map. simpl List.concat.
    destruct (pageNewestFirst_slice uid sid limit db n Hl)
      as (q & r & _ & _ & E1 & E2).
    rewrite app_nil_r, E1, E2.
    replace (S n * Z.to_nat limit)
      with (n * Z.to_nat limit + Z.to_nat limit) by lia.
    now rewrite firstn_add.
Qed.

(** ** GET /sessions *)

Lemma seen_spec (sid : jsstring) (seen : list jsstring) :
  existsb (Js.eqb sid) seen = true <-> In sid seen.
Proof.
  rewrite existsb_exists. split.
  - intros [x [Hx E]]. apply js_eqb_eq in E. now subst.
  - intros H. exists sid. split; [assumption | now apply js_eqb_eq].
Qed.

Lemma sessionIds_In (l : list ChatMessage) (seen : list jsstring)
    (sid : jsstring) :
  In sid (sessionIds seen l)
  <-> ~ In sid seen /\ exists m, In m l /\ sessionId m = sid.
Proof.
  revert seen. induction l as [|m l IH]; intros seen; simpl.
  - split; [tauto | intros [_ [x [[] _]]]].
  - destruct (existsb (Js.eqb (sessionId m)) seen) eqn:E.
    + apply seen_spec in E. rewrite IH. split.
      * intros [Hn [x [Hx Ex]]]. split; [assumption|]. exists x. auto.
      * intros [Hn [x [[->|Hx] Ex]]]; [congruence|].
        split; [assumption|]. now exists x.
    + assert (Hn : ~ In (sessionId m) seen)
        by (rewrite <- seen_spec; congruence).
      simpl. rewrite IH. simpl. split.
      * intros [<- | [Hs [x [Hx Ex]]]].
        -- split; [assumption|]. exists m. auto.
        -- split; [tauto|]. exists x. auto.
      * intros [Hs [x [[->|Hx] Ex]]]; [now left|].
        destruct (list_eq_dec N.eq_dec (sessionId m) sid) as [D|D];
          [now left|].
        right. split; [tauto|]. now exists x.
Qed.

Lemma sessionIds_NoDup (l : list ChatMessage) (seen : list jsstring) :
  NoDup (sessionIds seen l).
Proof.
  revert seen. induction l as [|m l IH]; intros seen; simpl;
    [constructor|].
  destruct (existsb (Js.eqb (sessionId m)) seen); [apply IH|].
  constructor; [|apply IH].
  rewrite sessionIds_In. simpl. tauto.
Qed.

Lemma lastOf_Some (l : list ChatMessage) (sid : jsstring) :
  (exists m, In m l /\ sessionId m = sid) ->
  exists m, lastOf sid l = Some m.
Proof.
  intros [m [Hm E]]. unfold lastOf.
  destruct (List.find _ (rev l)) as [x|] eqn:F; [now exists x|].
  exfalso. apply in_rev in Hm. pose proof (find_none _ _ F m Hm) as Hf.
  simpl in Hf. rewrite <- E in Hf.
  assert (Js.eqb (sessionId m) (sessionId m) = true)
    by now apply js_eqb_eq.
  congruence.
Qed.

Lemma group_ids (l : list ChatMessage) :
  map _id (group l) = sessionIds [] l.
Proof.
  unfold group.
  assert (G : forall ids,
             (forall sid, In sid ids ->
                          exists m, In m l /\ sessionId m = sid) ->
             map _id
               (flat_map
                  (fun sid =>
                     match lastOf sid l with
                     | Some m => [ {| _id := sid; lastMessage := message m;
                                      lastTimestamp := createdAt m |} ]
                     | None => []
                     end) ids) = ids).
  { induction ids as [|sid ids IH]; intros H; [reflexivity|].
    simpl. destruct (lastOf_Some l sid) as [m ->]; [apply H; now left|].
    simpl. f_equal. apply IH. intros x Hx. apply H. now right. }
  apply G. intros sid H. apply sessionIds_In in H. tauto.
Qed.

(** X7: the sessions response lists every session in which the user has a
    row, each exactly once, the session with the latest last row first. *)
Theorem sessions_lists_each_session_once (uid : UserId) (db : Collection) :
  NoDup (map _id (sessions uid db))
  /\ (forall m, In m db -> user m = uid ->
                In (sessionId m) (map _id (sessions uid db)))
  /\ NewestFirst lastTimestamp (sessions uid db).
Proof.
  assert (P : Permutation (map _id (sessions uid db))
                (sessionIds [] (find uid None db))).
  { unfold sessions. rewrite <- group_ids. apply Permutation_map.
    apply sortDesc_Permutation. }
  split; [|split].
  - apply (Permutation_NoDup (Permutation_sym P)). apply sessionIds_NoDup.
  - intros m Hm Hu. apply (Permutation_in _ (Permutation_sym P)).
    apply sessionIds_In. split; [tauto|]. exists m. split; [|reflexivity].
    unfold find. apply filter_In. split; [assumption|].
    unfold matchesFilter. rewrite Hu, N.eqb_refl. reflexivity.
  - apply sortDesc_sorted.
Qed.

Lemma sessions_ids_In (uid : UserId) (db : Collection)
    (m : ChatMessage) :
  In m db -> user m = uid -> In (sessionId m) (map _id (sessions uid db)).
Proof.
  intros Hm Hu. unfold sessions.
  apply (Permutation_in _
           (Permutation_map _id
              (Permutation_sym
                 (sortDesc_Permutation SessionSummary lastTimestamp
                    (group (find uid None db)))))).
  rewrite group_ids. apply sessionIds_In. split; [tauto|].
  exists m. split; [|reflexivity].
  unfold find. apply filter_In. split; [assumption|].
  unfold matchesFilter. rewrite Hu, N.eqb_refl. reflexivity.
Qed.

(** ** A call and the queries after it *)

Lemma find_app (uid : UserId) (sid : option jsstring)
    (l l' : Collection) :
  find uid sid (l ++ l') = find uid sid l ++ find uid sid l'.
Proof. unfold find. apply filter_app. Qed.

Lemma history_owned (uid : UserId) (q : HistoryQuery)
    (db db' : Collection) :
  filter (ownedBy uid) db' = filter (ownedBy uid) db ->
  history uid q db' = history uid q db.
Proof.
  intros E. unfold history.
  now rewrite (find_owned uid (q_sessionId q) db'), E, <- find_owned.
Qed.

Lemma sessions_owned (uid : UserId) (db db' : Collection) :
  filter (ownedBy uid) db' = filter (ownedBy uid) db ->
  sessions uid db' = sessions uid db.
Proof.
  intros E. unfold sessions.
  now rewrite (find_owned uid None db'), E, <- find_owned.
Qed.

(** X9: after a successful call the two new rows are what a history query
    for the returned session finds in addition, the returned session is
    listed by the sessions query, in whichever order the rows reach the
    grouping, and the responses to every other user are what they were.
    (Which row of the session gives its last message is the database's
    choice, the pipeline having no sort before the grouping.) *)
Theorem send_then_history_and_sessions
    (toLowerCase : jsstring -> jsstring) (randomFloor : nat -> nat)
    (saves : ChatMessage -> bool) (clock : Clock) (uid : UserId)
    (b : SendBody) (db db' : Collection) (a : ChatMessage)
    (sid : jsstring) :
  send toLowerCase randomFloor saves clock uid b db = (Json a sid, db') ->
  find uid (Some sid) db'
  = find uid (Some sid) db ++ [userRow clock uid b; a]
  /\ (forall scan, Permutation scan db' ->
                    In sid (map _id (sessions uid scan)))
  /\ (forall v q, v <> uid ->
                  history v q db' = history v q db
                  /\ sessions v db' = sessions v db).
Proof.
  intros H. apply send_Json in H. destruct H as (Ea & Es & Ed).
  assert (Hne : sid <> []) by (rewrite Es; apply sessionIdOr_nonempty).
  assert (Hua : sessionId a = sid) by (rewrite Ea, Es; reflexivity).
  assert (Huu : sessionId (userRow clock uid b) = sid)
    by (rewrite Es; reflexivity).
  assert (Ua : user a = uid) by (rewrite Ea; reflexivity).
  assert (Ee : Js.eqb sid sid = true) by now apply js_eqb_eq.
  subst db'. split; [|split].
  - rewrite find_app. f_equal. unfold find. simpl.
    unfold matchesFilter. rewrite Huu, Hua, Ua. simpl user.
    rewrite N.eqb_refl. destruct sid as [|c t]; [congruence|].
    simpl. now rewrite Ee.
  - intros scan P. rewrite <- Hua. apply sessions_ids_In; [|exact Ua].
    apply (Permutation_in _ (Permutation_sym P)).
    apply in_or_app. right. simpl. tauto.
  - intros v q Hv.
    assert (O : filter (ownedBy v) (db ++ [userRow clock uid b; a])
                = filter (ownedBy v) db).
    { rewrite filter_app. simpl. unfold ownedBy. rewrite Ua. simpl user.
      assert (N : (uid =? v)%N = false) by (apply N.eqb_neq; congruence).
      rewrite N. apply app_nil_r. }
    split; [now apply history_owned | now apply sessions_owned].
Qed.

End ChatbotMoreFacts.


(* ================================================================== *)
(** * The chat component and the route *)
(* ================================================================== *)

Module ChatClientFacts.
Import Js ChatClient.

Lemma blank_spec (s : jsstring) : blank s = true <-> whitespaceOnly s.
Proof.
  unfold blank. rewrite <- trim_nil_iff.
  destruct (trim s); split; congruence.
Qed.

Lemma requestBody_valid (st : State) :
  blank (input st) = false ->
  Chatbot.validationResult (requestBody st) = [].
Proof.
  intros Hb. unfold Chatbot.validationResult, Chatbot.sanitizedMessage,
    Chatbot.sessionIdErrors, requestBody. simpl.
  unfold blank in Hb. destruct (trim (input st)); [discriminate|].
  simpl. now destruct (sessionId st).
Qed.

(** X10: the component sends nothing for an input that is empty or only
    whitespace, and whatever it does send passes the validation of the
    route: the handler never takes its 400 branch for a request of the
    component, it answers with the reply or hands an error to
    [next]. *)
Theorem component_requests_pass_validation
    (toLowerCase : jsstring -> jsstring) (randomFloor : nat -> nat)
    (saves : Chatbot.ChatMessage -> bool) (st : State) :
  (requestOf st = None <-> whitespaceOnly (input st))
  /\ (forall b clock uid db,
         requestOf st = Some b ->
         Chatbot.validationResult b = []
         /\ ((exists aiMessage sid,
                 fst (Chatbot.send toLowerCase randomFloor saves clock uid
                        b db) = Chatbot.Json aiMessage sid)
             \/ fst (Chatbot.send toLowerCase randomFloor saves clock uid
                       b db) = Chatbot.NextError)).
Proof.
  unfold requestOf. split.
  - rewrite <- blank_spec. destruct (blank (input st)); split;
      congruence.
  - intros b clock uid db. destruct (blank (input st)) eqn:Hb;
      [discriminate|].
    intros H. injection H as <-.
    pose proof (requestBody_valid st Hb) as V. split; [exact V|].
    rewrite ChatbotMoreFacts.send_cases, V.
    destruct (saves _); [|now right].
    destruct (saves _); [|now right].
    left. now eexists; eexists.
Qed.

Section ConversationFacts.

Variable toLowerCase : jsstring -> jsstring.
Variable randomFloor : nat -> nat.
Variable saves : Chatbot.ChatMessage -> bool.
Variable errorBody : ApiError.
Variable uid : Chatbot.UserId.
Hypothesis saved : forall doc, saves doc = true.

Lemma turn_InStep (t : Turn) (st : State) (db0 added : Chatbot.Collection) :
  InStep uid st added ->
  exists added',
    turn toLowerCase randomFloor saves errorBody uid (st, db0 ++ added) t
    = (fst (turn toLowerCase randomFloor saves errorBody uid
              (st, db0 ++ added) t),
       db0 ++ added')
    /\ InStep uid
         (fst (turn toLowerCase randomFloor saves errorBody uid
                 (st, db0 ++ added) t)) added'.
Proof.
  destruct st as [inp msgs ld sidv]. unfold InStep. cbn [messages sessionId].
  intros [Hl Hs]. unfold turn, requestOf, handleSend. cbn [input fst snd].
  destruct (blank (typed t)) eqn:Hb.
  - exists added. split; [reflexivity|]. cbn [messages sessionId]. auto.
  - cbn [messages sessionId loading].
    assert (V : forall sv,
               Chatbot.validationResult
                 (requestBody {| input := typed t; messages := msgs;
                                 loading := ld; sessionId := sv |}) = [])
      by (intros sv; apply requestBody_valid; exact Hb).
    unfold serverSend.
    destruct Hs as [[-> ->] | [s (Hne & -> & Hf)]];
      rewrite ChatbotMoreFacts.send_cases, V, !saved; cbn [fst snd].
    + eexists. split; [rewrite app_nil_r; reflexivity|].
      cbn [messages sessionId Guards.truthy].
      split; [rewrite !length_app; simpl in *; lia|].
      right. eexists. split; [|split; [reflexivity|]].
      * apply ChatbotMoreFacts.sessionIdOr_nonempty.
      * repeat constructor.
    + assert (K : Chatbot.sessionIdOr
                    (Chatbot.body_sessionId
                       (requestBody {| input := typed t; messages := msgs;
                                       loading := ld;
                                       sessionId := Some s |}))
                    (Chatbot.dateNow (serverClock t)) = s)
        by (now apply sessionIdOr_provided).
      exists (added ++
                [ChatbotMore.userRow (serverClock t) uid
                   (requestBody {| input := typed t; messages := msgs;
                                   loading := ld; sessionId := Some s |});
                 ChatbotMore.aiRow toLowerCase randomFloor (serverClock t)
                   uid
                   (requestBody {| input := typed t; messages := msgs;
                                   loading := ld; sessionId := Some s |})]).
      split; [now rewrite app_assoc|].
      cbn [messages sessionId]. split.
      * rewrite !length_app. simpl. simpl in Hl. lia.
      * right. destruct s as [|c s']; [congruence|]. cbn [Guards.truthy].
        exists (c :: s'). split; [assumption|]. split; [reflexivity|].
        apply Forall_app. split; [assumption|].
        repeat constructor; exact K.
Qed.

Lemma converse_cons (t : Turn) (turns : list Turn) (st : State)
    (db : Chatbot.Collection) :
  converse toLowerCase randomFloor saves errorBody uid (t :: turns) st db
  = converse toLowerCase randomFloor saves errorBody uid turns
      (fst (turn toLowerCase randomFloor saves errorBody uid (st, db) t))
      (snd (turn toLowerCase randomFloor saves errorBody uid (st, db) t)).
Proof.
  unfold converse. cbn [fold_left].
  now destruct (turn toLowerCase randomFloor saves errorBody uid (st, db) t).
Qed.

Lemma converse_InStep (turns : list Turn) (st : State)
    (db0 added : Chatbot.Collection) :
  InStep uid st added ->
  exists added',
    converse toLowerCase randomFloor saves errorBody uid turns st
      (db0 ++ added)
    = (fst (converse toLowerCase randomFloor saves errorBody uid turns st
              (db0 ++ added)),
       db0 ++ added')
    /\ InStep uid
         (fst (converse toLowerCase randomFloor saves errorBody uid turns
                 st (db0 ++ added))) added'.
Proof.
  revert st added. induction turns as [|t turns IH]; intros st added I.
  - exists added. split; [reflexivity | exact I].
  - destruct (turn_InStep t st db0 added I) as [added1 [E1 I1]].
    apply (f_equal snd) in E1. cbn [snd] in E1.
    destruct (IH _ added1 I1) as [added' [E I']].
    rewrite <- E1 in E, I'. rewrite converse_cons.
    exists added'. split; [exact E | exact I'].
Qed.

End ConversationFacts.

(** X11: a conversation of a fresh component with the route, all saves
    succeeding, stays in one session: the collection grows by the rows of
    the conversation only, all of them rows of the signed-in user under the
    session id the component holds at the end, and the transcript has one
    entry for each of them. *)
Theorem conversation_stays_in_one_session
    (toLowerCase : jsstring -> jsstring) (randomFloor : nat -> nat)
    (saves : Chatbot.ChatMessage -> bool) (errorBody : ApiError)
    (uid : Chatbot.UserId) (turns : list Turn) (db : Chatbot.Collection) :
  (forall doc, saves doc = true) ->
  exists added,
    snd (converse toLowerCase randomFloor saves errorBody uid turns
           initial db) = db ++ added
    /\ List.length
         (messages
            (fst (converse toLowerCase randomFloor saves errorBody uid
                    turns initial db)))
       = List.length added
    /\ ((added = []
         /\ sessionId
              (fst (converse toLowerCase randomFloor saves errorBody uid
                      turns initial db)) = None)
        \/ exists s,
             s <> []
             /\ sessionId
                  (fst (converse toLowerCase randomFloor saves errorBody
                          uid turns initial db)) = Some s
             /\ Forall (fun m => Chatbot.sessionId m = s
                                 /\ Chatbot.user m = uid) added).
Proof.
  intros saved.
  assert (I0 : InStep uid initial []).
  { split; [reflexivity|]. left. split; reflexivity. }
  destruct (converse_InStep toLowerCase randomFloor saves errorBody uid
              saved turns initial db [] I0) as [added [E [Hl Hs]]].
  rewrite app_nil_r in *.
  exists added. split; [now rewrite E|]. split; [exact Hl|].
  destruct Hs as [[Hn ->] | Hs]; [left; auto | right; exact Hs].
Qed.

End ChatClientFacts.

(* ================================================================== *)
(** * The client's session *)
(* ================================================================== *)

Module ClientSessionFacts.
Import Js Guards ClientSession.

Lemma rolesInclude_In (roles : list jsstring) (r : jsstring) :
  rolesInclude roles r = true <-> In r roles.
Proof.
  unfold rolesInclude. rewrite existsb_exists. split.
  - intros [x [Hx E]]. apply js_eqb_eq in E. now subst.
  - intros H. exists r. split; [assumption | now apply js_eqb_eq].
Qed.

Lemma redirect_not_children (r : jsstring) :
  (if Js.eqb r (js "user") then Navigate (js "/user")
   else if Js.eqb r (js "therapist") then Navigate (js "/therapist")
   else if Js.eqb r (js "admin") then Navigate (js "/admin")
   else Navigate (js "/login")) <> children.
Proof.
  destruct (Js.eqb r (js "user")); [discriminate|].
  destruct (Js.eqb r (js "therapist")); [discriminate|].
  destruct (Js.eqb r (js "admin")); discriminate.
Qed.

Lemma PrivateRoute_children_iff (tok : option jsstring)
    (stored : option StoredUser) (roles : list jsstring) :
  PrivateRoute tok stored roles = children
  <-> truthy tok = true
      /\ exists u r, stored = Some u /\ userType u = Some r
                     /\ r <> [] /\ In r roles.
Proof.
  unfold PrivateRoute. destruct (truthy tok).
  2: { split; [destruct stored; discriminate | intros [H _]; discriminate]. }
  destruct stored as [u|].
  2: { split; [discriminate | intros [_ (u & r & H & _)]; discriminate]. }
  destruct (userType u) as [r|] eqn:Er.
  2: { simpl. split; [discriminate|].
       intros [_ (u' & r & H & H' & _)]. injection H as <-. congruence. }
  destruct r as [|c r].
  { cbn [truthy negb orb]. split.
    - intros H. exfalso. revert H. apply (redirect_not_children []).
    - intros [_ (u' & r & H & H' & Hne & _)]. injection H as <-.
      congruence. }
  cbn [truthy negb orb].
  destruct (rolesInclude roles (c :: r)) eqn:Ei; cbn [negb].
  - split; [|reflexivity]. intros _. split; [reflexivity|].
    exists u, (c :: r). repeat split; auto; [discriminate|].
    now apply rolesInclude_In.
  - split.
    + intros H. exfalso. revert H. apply redirect_not_children.
    + intros [_ (u' & r' & H & H' & _ & Hin)]. injection H as <-.
      rewrite Er in H'. injection H' as <-.
      apply rolesInclude_In in Hin. congruence.
Qed.

Lemma truthy_Some (s : option jsstring) :
  truthy s = true <-> exists text, s = Some text /\ text <> [].
Proof.
  destruct s as [[|c t]|]; simpl; split; try discriminate.
  - intros (text & E & Hne). injection E as <-. congruence.
  - intros _. exists (c :: t). split; [reflexivity|discriminate].
  - reflexivity.
  - intros (text & E & _). discriminate.
Qed.

(** X12: the route guard renders the page exactly when a non-empty token
    is stored together with a [user] entry that parses to a value whose
    [userType] is one of the roles of the route; it throws, [JSON.parse]
    having no [try] around it, exactly when a non-empty token is stored
    together with a non-empty [user] entry that is not JSON; and it
    navigates to the login page when the token or the entry is missing or
    empty. *)
Theorem PrivateRoute_renders_iff (parse : jsstring -> JsonParse)
    (tok userString : option jsstring) (roles : list jsstring) :
  (renderPrivateRoute parse tok userString roles = Returns children
   <-> truthy tok = true
       /\ exists text u r,
            userString = Some text /\ text <> []
            /\ parse text = Value u /\ userType u = Some r
            /\ r <> [] /\ In r roles)
  /\ (renderPrivateRoute parse tok userString roles = Throws
      <-> truthy tok = true
          /\ exists text,
               userString = Some text /\ text <> []
               /\ parse text = SyntaxError)
  /\ (truthy tok = false \/ truthy userString = false ->
      renderPrivateRoute parse tok userString roles
      = Returns (Navigate (js "/login"))).
Proof.
  unfold renderPrivateRoute. split; [|split].
  - destruct (truthy tok) eqn:Ht; cbn [andb].
    2: { split; [discriminate | intros [H _]; discriminate]. }
    destruct (truthy userString) eqn:Hu.
    2: { split; [discriminate|]. intros [_ (text & u & r & E & Hne & _)].
         assert (T : truthy userString = true)
           by (apply truthy_Some; now exists text).
         congruence. }
    apply truthy_Some in Hu. destruct Hu as (text & -> & Hne).
    destruct (parse text) as [|u] eqn:Ep.
    + split; [discriminate|].
      intros [_ (text' & u & r & E & _ & Ep' & _)].
      injection E as <-. congruence.
    + split.
      * intros H. injection H as H.
        apply PrivateRoute_children_iff in H.
        destruct H as [_ (u' & r & Eu & Er & Hr & Hin)].
        injection Eu as <-. split; [reflexivity|].
        now exists text, u, r.
      * intros [_ (text' & u' & r & E & _ & Ep' & Er & Hr & Hin)].
        injection E as <-. rewrite Ep in Ep'. injection Ep' as <-.
        f_equal. apply PrivateRoute_children_iff. rewrite Ht.
        split; [reflexivity|]. now exists u, r.
  - destruct (truthy tok) eqn:Ht; cbn [andb].
    2: { split; [discriminate | intros [H _]; discriminate]. }
    destruct (truthy userString) eqn:Hu.
    2: { split; [discriminate|]. intros [_ (text & E & Hne & _)].
         assert (T : truthy userString = true)
           by (apply truthy_Some; now exists text).
         congruence. }
    apply truthy_Some in Hu. destruct Hu as (text & -> & Hne).
    destruct (parse text) as [|u] eqn:Ep.
    + split; [|reflexivity]. intros _. split; [reflexivity|].
      now exists text.
    + split; [discriminate|].
      intros [_ (text' & E & _ & Ep')]. injection E as <-. congruence.
  - intros [H|H]; rewrite H; [reflexivity|].
    now rewrite andb_false_r.
Qed.

Lemma PrivateRoute_own_role (tok : option jsstring) (u : StoredUser)
    (r : jsstring) (roles : list jsstring) :
  truthy tok = true -> userType u = Some r -> r <> [] -> In r roles ->
  PrivateRoute tok (Some u) roles = children.
Proof.
  intros Ht Er Hne Hin. unfold PrivateRoute. rewrite Ht, Er.
  destruct r as [|c r]; [congruence|]. cbn [truthy negb orb].
  apply rolesInclude_In in Hin. now rewrite Hin.
Qed.

(** Where the guard navigates to, and when. *)
Lemma PrivateRoute_target (tok : option jsstring)
    (stored : option StoredUser) (roles : list jsstring) (to : jsstring) :
  PrivateRoute tok stored roles = Navigate to ->
  to = js "/login"
  \/ (truthy tok = true
      /\ exists u, stored = Some u
         /\ ((userType u = Some (js "user") /\ to = js "/user")
             \/ (userType u = Some (js "therapist")
                 /\ to = js "/therapist")
             \/ (userType u = Some (js "admin") /\ to = js "/admin"))).
Proof.
  unfold PrivateRoute. destruct (truthy tok) eqn:Ht.
  2: { destruct stored; intros H; injection H as <-; now left. }
  destruct stored as [u|]; [|intros H; injection H as <-; now left].
  destruct (userType u) as [r|] eqn:Er.
  2: { simpl. intros H; injection H as <-; now left. }
  destruct (_ || _)%bool; [|discriminate].
  destruct (Js.eqb r (js "user")) eqn:E1.
  { apply js_eqb_eq in E1. subst r. intros H; injection H as <-.
    right. split; [reflexivity|]. exists u. split; [reflexivity|]. tauto. }
  destruct (Js.eqb r (js "therapist")) eqn:E2.
  { apply js_eqb_eq in E2. subst r. intros H; injection H as <-.
    right. split; [reflexivity|]. exists u. split; [reflexivity|]. tauto. }
  destruct (Js.eqb r (js "admin")) eqn:E3.
  { apply js_eqb_eq in E3. subst r. intros H; injection H as <-.
    right. split; [reflexivity|]. exists u. split; [reflexivity|]. tauto. }
  intros H; injection H as <-; now left.
Qed.

Lemma route_login (st : Storage) : route st (js "/login") = Shows Login.
Proof. destruct st. vm_compute. reflexivity. Qed.

Lemma route_home (st : Storage) : route st (js "/") = Shows LandingPage.
Proof. destruct st. vm_compute. reflexivity. Qed.

Lemma route_user (st : Storage) :
  route st (js "/user") = guarded st [js "user"] UserDashboard.
Proof. destruct st. vm_compute. reflexivity. Qed.

Lemma route_therapist (st : Storage) :
  route st (js "/therapist")
  = guarded st [js "therapist"] TherapistDashboard.
Proof. destruct st. vm_compute. reflexivity. Qed.

Lemma route_admin (st : Storage) :
  route st (js "/admin") = guarded st [js "admin"] AdminDashboard.
Proof. destruct st. vm_compute. reflexivity. Qed.

Lemma route_chatbot (st : Storage) :
  route st (js "/chatbot")
  = guarded st [js "user"; js "therapist"; js "admin"] ChatbotPage.
Proof. destruct st. vm_compute. reflexivity. Qed.

Lemma guarded_own (st : Storage) (u : StoredUser) (r : jsstring)
    (page : Page) :
  truthy (token st) = true -> stored st = Some u ->
  userType u = Some r -> r <> [] ->
  guarded st [r] page = Shows page.
Proof.
  intros Ht Es Er Hne. unfold guarded. rewrite Es.
  rewrite (PrivateRoute_own_role (token st) u r [r] Ht Er Hne); [reflexivity|].
  now left.
Qed.

Lemma route_redirect (st : Storage) (path to : jsstring) :
  route st path = RedirectsTo to ->
  exists roles, PrivateRoute (token st) (stored st) roles = Navigate to.
Proof.
  unfold route, guarded.
  repeat match goal with
         | |- (if ?c then _ else _) = _ -> _ => destruct c
         end; try discriminate;
    match goal with
    | |- match PrivateRoute ?t ?s ?roles with _ => _ end = _ -> _ =>
        destruct (PrivateRoute t s roles) eqn:E; [|discriminate];
        intros H; injection H as <-; now exists roles
    end.
Qed.

Lemma nonempty_paths :
  js "user" <> [] /\ js "therapist" <> [] /\ js "admin" <> [].
Proof. repeat split; vm_compute; discriminate. Qed.

(** X13: following one redirect always ends on a page: wherever a route
    guard navigates to, the route found there renders, so the guards never
    send the browser in a circle.  (A path without a route stays without
    one.) *)
Theorem one_redirect_suffices (st : Storage) (path : jsstring) :
  (exists page, landsOn st path = Shows page) \/ route st path = NoRoute.
Proof.
  unfold landsOn. destruct (route st path) as [page|to|] eqn:R.
  - left. now exists page.
  - left. apply route_redirect in R. destruct R as [roles R].
    destruct nonempty_paths as (N1 & N2 & N3).
    apply PrivateRoute_target in R.
    destruct R as [-> | [Ht (u & Es & [[Er ->] | [[Er ->] | [Er ->]]])]].
    + rewrite route_login. now eexists.
    + rewrite route_user, (guarded_own st u (js "user") _ Ht Es Er N1).
      now eexists.
    + rewrite route_therapist,
        (guarded_own st u (js "therapist") _ Ht Es Er N2).
      now eexists.
    + rewrite route_admin, (guarded_own st u (js "admin") _ Ht Es Er N3).
      now eexists.
  - now right.
Qed.

(** X14: after a login that stored a non-empty token, the address the
    browser is sent to renders without a redirect: the dashboard of the
    user's type, or the landing page for any other type. *)
Theorem login_lands_on_own_page (tok : jsstring) (u : StoredUser) :
  tok <> [] ->
  route (fst (onLogin tok u)) (snd (onLogin tok u)) = Shows (homePage u).
Proof.
  intros Hne. unfold onLogin, loginRedirect, homePage. cbn [fst snd].
  set (st := {| token := Some tok; stored := Some u |}).
  assert (Ht : truthy (token st) = true)
    by (destruct tok; [congruence | reflexivity]).
  destruct nonempty_paths as (N1 & N2 & N3).
  destruct (userType u) as [r|] eqn:Er; [|apply route_home].
  destruct (Js.eqb r (js "user")) eqn:E1.
  { apply js_eqb_eq in E1. subst r. rewrite route_user.
    now apply (guarded_own st u (js "user")). }
  destruct (Js.eqb r (js "therapist")) eqn:E2.
  { apply js_eqb_eq in E2. subst r. rewrite route_therapist.
    now apply (guarded_own st u (js "therapist")). }
  destruct (Js.eqb r (js "admin")) eqn:E3.
  { apply js_eqb_eq in E3. subst r. rewrite route_admin.
    now apply (guarded_own st u (js "admin")). }
  apply route_home.
Qed.

(** X15: after a logout, and after any response with status 401, every
    guarded route sends the browser to the login page and no request
    carries an [Authorization] header, whatever was stored before. *)
Theorem signed_out_is_locked_out (st : Storage) (path : jsstring) :
  In path protectedPaths ->
  route (fst (handleLogout st)) path = RedirectsTo (js "/login")
  /\ route (fst (onResponseError 401 st)) path = RedirectsTo (js "/login")
  /\ authorizationHeader (fst (handleLogout st)) = None
  /\ authorizationHeader (fst (onResponseError 401 st)) = None.
Proof.
  unfold protectedPaths. intros H.
  assert (E : fst (onResponseError 401 st) = fst (handleLogout st))
    by reflexivity.
  rewrite E. cbn [handleLogout fst].
  assert (G : forall roles page,
             guarded {| token := None; stored := None |} roles page
             = RedirectsTo (js "/login")) by reflexivity.
  repeat split; try reflexivity.
  - destruct H as [<-|[<-|[<-|[<-|[]]]]].
    + rewrite route_user. apply G.
    + rewrite route_therapist. apply G.
    + rewrite route_admin. apply G.
    + rewrite route_chatbot. apply G.
  - destruct H as [<-|[<-|[<-|[<-|[]]]]].
    + rewrite route_user. apply G.
    + rewrite route_therapist. apply G.
    + rewrite route_admin. apply G.
    + rewrite route_chatbot. apply G.
Qed.

End ClientSessionFacts.


(* ================================================================== *)
(** * The arguments of the password script *)
(* ================================================================== *)

Module ResetAdminPasswordFacts.
Import Js ResetAdminPassword.

Lemma eqb_refl (a : jsstring) : Js.eqb a a = true.
Proof. now apply js_eqb_eq. Qed.

Lemma eqb_neq (a b : jsstring) : Js.eqb a b = false <-> a <> b.
Proof.
  split.
  - intros H E. apply js_eqb_eq in E. congruence.
  - intros H. destruct (Js.eqb a b) eqn:E; [|reflexivity].
    apply js_eqb_eq in E. contradiction.
Qed.

Lemma get_put (key k value : jsstring) (d : Dict) :
  get k (put key value d)
  = if Js.eqb key k then Some value else get k d.
Proof.
  unfold get. induction d as [|[k0 v0] d IH]; simpl.
  - destruct (Js.eqb key k); reflexivity.
  - destruct (Js.eqb k0 key) eqn:E0; simpl.
    + apply js_eqb_eq in E0. subst k0.
      destruct (Js.eqb key k); reflexivity.
    + destruct (Js.eqb k0 k) eqn:E1; simpl.
      * apply js_eqb_eq in E1. subst k0.
        apply eqb_neq in E0.
        assert (Js.eqb key k = false) by (apply eqb_neq; congruence).
        now rewrite H.
      * exact IH.
Qed.

Lemma get_assign (key k value : jsstring) (d : Dict) :
  get k (assign key value d)
  = if Js.eqb key (js "__proto__") then get k d
    else if Js.eqb key k then Some value else get k d.
Proof.
  unfold assign. destruct (Js.eqb key (js "__proto__")); [reflexivity|].
  apply get_put.
Qed.

Lemma assign_good (key value : jsstring) (d : Dict) :
  value <> [] -> isFlag value = false ->
  GoodValues d -> GoodValues (assign key value d).
Proof.
  intros Hv Hf Hd k v. rewrite get_assign.
  destruct (Js.eqb key (js "__proto__")); [apply Hd|].
  destruct (Js.eqb key k); [|apply Hd].
  intros H. injection H as <-. auto.
Qed.

Lemma true_good : js "true" <> [] /\ isFlag (js "true") = false.
Proof. split; [vm_compute; discriminate | vm_compute; reflexivity]. Qed.

(** Induction on the arguments as the loop consumes them. *)
Lemma parseLoop_ind (P : list jsstring -> Dict -> Dict -> Prop) :
  (forall r, P [] r r) ->
  (forall arg rest r,
      isFlag arg = false -> P rest r (parseLoop rest r) ->
      P (arg :: rest) r (parseLoop rest r)) ->
  (forall arg r,
      isFlag arg = true ->
      P [arg] r (assign (keyOf arg) (js "true") r)) ->
  (forall arg value rest r,
      isFlag arg = true -> value <> [] -> isFlag value = false ->
      P rest (assign (keyOf arg) value r)
        (parseLoop rest (assign (keyOf arg) value r)) ->
      P (arg :: value :: rest) r
        (parseLoop rest (assign (keyOf arg) value r))) ->
  (forall arg value rest r,
      isFlag arg = true -> value = [] \/ isFlag value = true ->
      P (value :: rest) (assign (keyOf arg) (js "true") r)
        (parseLoop (value :: rest) (assign (keyOf arg) (js "true") r)) ->
      P (arg :: value :: rest) r
        (parseLoop (value :: rest) (assign (keyOf arg) (js "true") r))) ->
  forall args r, P args r (parseLoop args r).
Proof.
  intros H0 Hskip Hlast Hval Htrue args.
  assert (G : forall n args, List.length args <= n ->
                             forall r, P args r (parseLoop args r)).
  { induction n as [|n IH]; intros [|arg rest] Hn r; simpl in Hn;
      try lia; try apply H0.
    cbn [parseLoop]. destruct (isFlag arg) eqn:Ef.
    - destruct rest as [|value rest']; [now apply Hlast|].
      destruct (negb (Nat.eqb (List.length value) 0) && negb (isFlag value))
        eqn:Ev.
      + apply andb_true_iff in Ev. destruct Ev as [E1 E2].
        apply negb_true_iff in E1, E2. apply Nat.eqb_neq in E1.
        apply Hval; auto.
        * destruct value; [simpl in E1; lia | discriminate].
        * apply IH. simpl in Hn. lia.
      + apply Htrue; auto.
        * apply andb_false_iff in Ev. destruct Ev as [E|E];
            apply negb_false_iff in E.
          -- left. apply Nat.eqb_eq in E. now destruct value.
          -- now right.
        * apply IH. simpl in *. lia.
    - apply Hskip; auto. apply IH. lia. }
  intros r. now apply (G (List.length args)).
Qed.

Lemma parseLoop_good (args : list jsstring) (r : Dict) :
  GoodValues r -> GoodValues (parseLoop args r).
Proof.
  destruct true_good as [T1 T2].
  apply (parseLoop_ind (fun _ r r' => GoodValues r -> GoodValues r'));
    auto; intros; auto using assign_good.
Qed.

(** X16: no value that [parseArgs] returns is the empty string or starts
    with two dashes: a flag never takes another flag, or nothing, as its
    value. *)
Theorem parseArgs_values_are_values (argv : list jsstring)
    (key value : jsstring) :
  get key (parseArgs argv) = Some value ->
  value <> [] /\ isFlag value = false.
Proof.
  apply (parseLoop_good (skipn 2 argv) []).
  intros k v H. discriminate.
Qed.

Lemma parseLoop_keeps (args : list jsstring) (r : Dict) (k : jsstring) :
  get k r <> None -> get k (parseLoop args r) <> None.
Proof.
  assert (A : forall key value d,
             get k d <> None -> get k (assign key value d) <> None).
  { intros key value d H. rewrite get_assign.
    destruct (Js.eqb key (js "__proto__")); [assumption|].
    destruct (Js.eqb key k); [discriminate | assumption]. }
  apply (parseLoop_ind
           (fun _ r r' => get k r <> None -> get k r' <> None));
    auto; intros; auto.
Qed.

Lemma assign_sets (key value : jsstring) (d : Dict) :
  key <> js "__proto__" -> get key (assign key value d) = Some value.
Proof.
  intros H. rewrite get_assign. apply eqb_neq in H. rewrite H.
  now rewrite eqb_refl.
Qed.

Lemma parseLoop_records (args : list jsstring) (r : Dict)
    (arg : jsstring) :
  In arg args -> isFlag arg = true -> keyOf arg <> js "__proto__" ->
  get (keyOf arg) (parseLoop args r) <> None.
Proof.
  intros Hin Hf Hk. revert Hin.
  apply (parseLoop_ind
           (fun args r r' => In arg args -> get (keyOf arg) r' <> None)).
  - intros r0 [].
  - intros a rest r0 Ha IH [<-|Hin]; [congruence | auto].
  - intros a r0 Ha [<-|[]]. rewrite assign_sets; [discriminate|assumption].
  - intros a value rest r0 Ha Hv Hfv IH [<-|[<-|Hin]].
    + apply parseLoop_keeps. rewrite assign_sets; [discriminate|assumption].
    + congruence.
    + auto.
  - intros a value rest r0 Ha Hv IH [<-|Hin].
    + apply parseLoop_keeps. rewrite assign_sets; [discriminate|assumption].
    + auto.
Qed.

(** X17: every argument that starts with two dashes becomes a key of the
    result, wherever it stands: a flag is never swallowed as the value of
    the flag before it.  (The key [__proto__] excepted, which JavaScript
    does not store.) *)
Theorem parseArgs_records_every_flag (argv : list jsstring)
    (arg : jsstring) :
  In arg (skipn 2 argv) -> isFlag arg = true ->
  keyOf arg <> js "__proto__" ->
  exists value, get (keyOf arg) (parseArgs argv) = Some value.
Proof.
  intros Hin Hf Hk.
  pose proof (parseLoop_records (skipn 2 argv) [] arg Hin Hf Hk) as H.
  unfold parseArgs. destruct (get (keyOf arg) (parseLoop (skipn 2 argv) []));
    [now eexists|congruence].
Qed.

Lemma parseLoop_at_flag (pre : list jsstring) (a : jsstring)
    (rest : list jsstring) (r : Dict) :
  isFlag a = true ->
  parseLoop (pre ++ a :: rest) r = parseLoop (a :: rest) (parseLoop pre r).
Proof.
  intros Hf.
  apply (parseLoop_ind
           (fun pre r r' =>
              parseLoop (pre ++ a :: rest) r = parseLoop (a :: rest) r')).
  - reflexivity.
  - intros arg rest0 r0 Ha IH. cbn [app parseLoop]. now rewrite Ha.
  - intros arg r0 Ha. cbn [app]. cbn [parseLoop]. rewrite Ha, !Hf.
    cbn [negb]. now rewrite andb_false_r.
  - intros arg value rest0 r0 Ha Hv Hfv IH. cbn [app].
    change (parseLoop (arg :: value :: rest0 ++ a :: rest) r0)
      with (if isFlag arg then
              if negb (Nat.eqb (List.length value) 0) && negb (isFlag value)
              then parseLoop (rest0 ++ a :: rest)
                     (assign (keyOf arg) value r0)
              else parseLoop (value :: rest0 ++ a :: rest)
                     (assign (keyOf arg) (js "true") r0)
            else parseLoop (value :: rest0 ++ a :: rest) r0).
    rewrite Ha, Hfv. destruct value; [congruence|]. exact IH.
  - intros arg value rest0 r0 Ha Hv IH. cbn [app].
    change (parseLoop (arg :: value :: rest0 ++ a :: rest) r0)
      with (if isFlag arg then
              if negb (Nat.eqb (List.length value) 0) && negb (isFlag value)
              then parseLoop (rest0 ++ a :: rest)
                     (assign (keyOf arg) value r0)
              else parseLoop (value :: rest0 ++ a :: rest)
                     (assign (keyOf arg) (js "true") r0)
            else parseLoop (value :: rest0 ++ a :: rest) r0).
    rewrite Ha.
    assert (E : negb (Nat.eqb (List.length value) 0) && negb (isFlag value)
                = false).
    { destruct Hv as [-> | Hv]; [reflexivity|].
      rewrite Hv. cbn [negb]. apply andb_false_r. }
    rewrite E. exact IH.
Qed.

Lemma parseLoop_untouched (args : list jsstring) (r : Dict)
    (k : jsstring) :
  (forall b, In b args -> isFlag b = true -> keyOf b <> k) ->
  get k (parseLoop args r) = get k r.
Proof.
  assert (A : forall key value d,
             key <> k -> get k (assign key value d) = get k d).
  { intros key value d H. rewrite get_assign. apply eqb_neq in H.
    rewrite H. now destruct (Js.eqb key (js "__proto__")). }
  apply (parseLoop_ind
           (fun args r r' =>
              (forall b, In b args -> isFlag b = true -> keyOf b <> k) ->
              get k r' = get k r)).
  - reflexivity.
  - intros arg rest r0 Ha IH H. apply IH. intros b Hb. apply H. now right.
  - intros arg r0 Ha H. apply A. apply H; [now left | assumption].
  - intros arg value rest r0 Ha Hv Hfv IH H.
    rewrite IH; [apply A; apply H; [now left | assumption]|].
    intros b Hb. apply H. right. now right.
  - intros arg value rest r0 Ha Hv IH H.
    rewrite IH; [apply A; apply H; [now left | assumption]|].
    intros b Hb. apply H. now right.
Qed.

(** X18: the last occurrence of a flag decides.  If it is followed by a
    non-empty argument that is not a flag, that argument is its value; if
    it is followed by a flag, by the empty string or by nothing, its value
    is ['true'], whatever came before it. *)
Theorem parseArgs_last_flag_decides (argv pre post : list jsstring)
    (arg : jsstring) :
  skipn 2 argv = pre ++ arg :: post ->
  isFlag arg = true -> keyOf arg <> js "__proto__" ->
  (forall b, In b post -> isFlag b = true -> keyOf b <> keyOf arg) ->
  get (keyOf arg) (parseArgs argv)
  = Some (match post with
          | value :: _ =>
              if negb (Nat.eqb (List.length value) 0)
                 && negb (isFlag value)
              then value else js "true"
          | [] => js "true"
          end).
Proof.
  intros E Hf Hk Hpost. unfold parseArgs. rewrite E.
  rewrite (parseLoop_at_flag pre arg post [] Hf).
  set (r := parseLoop pre []).
  destruct post as [|value rest].
  - cbn [parseLoop]. rewrite Hf. now apply assign_sets.
  - change (parseLoop (arg :: value :: rest) r)
      with (if isFlag arg then
              if negb (Nat.eqb (List.length value) 0) && negb (isFlag value)
              then parseLoop rest (assign (keyOf arg) value r)
              else parseLoop (value :: rest)
                     (assign (keyOf arg) (js "true") r)
            else parseLoop (value :: rest) r).
    rewrite Hf.
    destruct (negb (Nat.eqb (List.length value) 0) && negb (isFlag value))
      eqn:Ev.
    + rewrite parseLoop_untouched; [now apply assign_sets|].
      intros b Hb. apply Hpost. now right.
    + rewrite parseLoop_untouched; [now apply assign_sets|].
      intros b Hb. now apply Hpost.
Qed.

Lemma parseLoop_source (args : list jsstring) (r : Dict) (k : jsstring) :
  get k (parseLoop args r) <> None ->
  get k r <> None
  \/ exists a, In a args /\ isFlag a = true /\ keyOf a = k.
Proof.
  assert (A : forall key value d,
             get k (assign key value d) <> None ->
             get k d <> None \/ key = k).
  { intros key value d. rewrite get_assign.
    destruct (Js.eqb key (js "__proto__")); [now left|].
    destruct (Js.eqb key k) eqn:E; [|now left].
    apply js_eqb_eq in E. now right. }
  apply (parseLoop_ind
           (fun args r r' =>
              get k r' <> None ->
              get k r <> None
              \/ exists a, In a args /\ isFlag a = true /\ keyOf a = k)).
  - now left.
  - intros arg rest r0 Ha IH H. destruct (IH H) as [G|(a & Hin & G)];
      [now left|]. right. exists a. split; [now right | assumption].
  - intros arg r0 Ha H. destruct (A _ _ _ H) as [G|G]; [now left|].
    right. exists arg. repeat split; auto. now left.
  - intros arg value rest r0 Ha Hv Hfv IH H.
    destruct (IH H) as [G|(a & Hin & G)].
    + destruct (A _ _ _ G) as [G'|G']; [now left|].
      right. exists arg. repeat split; auto. now left.
    + right. exists a. split; [right; now right | assumption].
  - intros arg value rest r0 Ha Hv IH H.
    destruct (IH H) as [G|(a & Hin & G)].
    + destruct (A _ _ _ G) as [G'|G']; [now left|].
      right. exists arg. repeat split; auto. now left.
    + right. exists a. split; [now right | assumption].
Qed.

Lemma flag_is_dashes_key (a : jsstring) :
  isFlag a = true -> a = js "--" ++ keyOf a.
Proof.
  unfold isFlag. rewrite startsWith_spec. intros [post ->].
  unfold keyOf. vm_compute (js "--"). reflexivity.
Qed.

Lemma email_password_flags :
  isFlag (js "--email") = true /\ keyOf (js "--email") = js "email"
  /\ isFlag (js "--password") = true
  /\ keyOf (js "--password") = js "password"
  /\ js "email" <> js "__proto__" /\ js "password" <> js "__proto__"
  /\ js "--" ++ js "email" = js "--email"
  /\ js "--" ++ js "password" = js "--password".
Proof. repeat split; vm_compute; try reflexivity; discriminate. Qed.

(** X19: the script gets past its usage check exactly when both [--email]
    and [--password] occur among the arguments; what follows them does not
    matter, so [--email --password secret] goes on with the e-mail address
    ['true']. *)
Theorem credentials_iff_both_flags (argv : list jsstring) :
  credentials argv <> None
  <-> In (js "--email") (skipn 2 argv)
      /\ In (js "--password") (skipn 2 argv).
Proof.
  destruct email_password_flags as (F1 & K1 & F2 & K2 & P1 & P2 & D1 & D2).
  assert (S : forall flag key,
             isFlag flag = true -> keyOf flag = key ->
             js "--" ++ key = flag -> key <> js "__proto__" ->
             (In flag (skipn 2 argv)
              <-> exists c v, get key (parseArgs argv) = Some (c :: v))).
  { intros flag key Ff Kf Df Pf. split.
    - intros Hin.
      pose proof (parseLoop_records (skipn 2 argv) [] flag Hin Ff) as R.
      rewrite Kf in R. specialize (R Pf). fold (parseArgs argv) in R.
      destruct (get key (parseArgs argv)) as [v|] eqn:G; [|congruence].
      destruct (parseLoop_good (skipn 2 argv) [] ltac:(intros ? ? ?;
                  discriminate) key v G) as [Hne _].
      destruct v as [|c v]; [congruence|]. now exists c, v.
    - intros (c & v & G).
      destruct (parseLoop_source (skipn 2 argv) [] key) as [H|(a & Hin & Fa & Ka)].
      + fold (parseArgs argv). rewrite G. discriminate.
      + exfalso. now apply H.
      + apply flag_is_dashes_key in Fa. rewrite Ka, Df in Fa. now subst a. }
  rewrite (S _ _ F1 K1 D1 P1), (S _ _ F2 K2 D2 P2).
  unfold credentials. split.
  - destruct (get (js "email") (parseArgs argv)) as [[|c e]|];
      try congruence.
    destruct (get (js "password") (parseArgs argv)) as [[|d p]|];
      try congruence.
    intros _. split; eexists; eexists; reflexivity.
  - intros [(c & e & ->) (d & p & ->)]. discriminate.
Qed.

End ResetAdminPasswordFacts.

(* ================================================================== *)
(** * Facts about cleanData *)
(* ================================================================== *)

Module ProfileFacts.
Import Js Profile.

Arguments assignable : simpl never.

Lemma size_In (A : Type) (f : A -> nat) (l : list A) (x : A) :
  In x l -> f x <= list_sum (map f l).
Proof.
  induction l as [|a l IH]; simpl; [tauto|].
  intros [->|H]; [lia|]. specialize (IH H). lia.
Qed.

(** Induction on JSON data, the items of an array and the values of an
    object being covered by the hypothesis. *)
Lemma Json_nested_ind (P : Json -> Prop) :
  P JNull -> P JUndefined -> (forall b, P (JBool b)) ->
  (forall t, P (JNumber t)) -> (forall s, P (JString s)) ->
  (forall items, Forall P items -> P (JArray items)) ->
  (forall fields, Forall (fun kv => P (snd kv)) fields ->
                  P (JObject fields)) ->
  forall d, P d.
Proof.
  intros Hn Hu Hb Hnum Hs Ha Ho d.
  remember (size d) as n eqn:E. revert d E.
  induction n as [n IH] using lt_wf_ind. intros d E.
  destruct d as [| |b|t|s|items|fields]; auto.
  - apply Ha. apply Forall_forall. intros x Hx.
    apply (IH (size x)); [|reflexivity].
    subst n. simpl. pose proof (size_In _ size items x Hx). lia.
  - apply Ho. apply Forall_forall. intros [k v] Hx. simpl.
    apply (IH (size v)); [|reflexivity].
    subst n. simpl.
    pose proof
      (size_In _
         (fun kv : jsstring * Json => let (_, v) := kv in size v)
         fields (k, v) Hx) as L.
    simpl in L. lia.
Qed.

(** With plain keys every field is assigned. *)
Lemma flat_map_plain (f : Json -> Json) (fields : list (jsstring * Json)) :
  forallb
    (fun kv : jsstring * Json =>
       let (k, v) := kv in assignable k && plainKeys v) fields = true ->
  flat_map
    (fun kv : jsstring * Json =>
       let (k, v) := kv in if assignable k then [(k, f v)] else [])
    fields
  = map (fun kv : jsstring * Json => let (k, v) := kv in (k, f v)) fields.
Proof.
  induction fields as [|[k v] fields IH]; simpl; [reflexivity|].
  intros H. apply andb_prop in H as [H1 H2].
  apply andb_prop in H1 as [H1 _]. rewrite H1. simpl.
  now rewrite IH.
Qed.

Lemma plain_field (fields : list (jsstring * Json)) (k : jsstring)
    (v : Json) :
  forallb
    (fun kv : jsstring * Json =>
       let (k, v) := kv in assignable k && plainKeys v) fields = true ->
  In (k, v) fields -> plainKeys v = true.
Proof.
  intros H Hin. rewrite forallb_forall in H. specialize (H _ Hin).
  simpl in H. now apply andb_prop in H as [_ H].
Qed.

Lemma map_eq_In (A B : Type) (f g : A -> B) (l : list A) :
  map f l = map g l -> forall x, In x l -> f x = g x.
Proof.
  induction l as [|a l IH]; simpl; [tauto|].
  intros E x [->|H]; [congruence|]. apply IH; congruence.
Qed.

Lemma cleanData_free (d : Json) : free isNullish (cleanData d) = true.
Proof.
  induction d as [| |b|t|s|items IH|fields IH] using Json_nested_ind;
    try reflexivity.
  - simpl. apply forallb_forall. intros x Hx.
    apply in_map_iff in Hx as [y [<- Hy]].
    rewrite Forall_forall in IH. now apply IH.
  - simpl. apply forallb_forall. intros [k v] Hx.
    apply in_flat_map in Hx as [[k' v'] [Hin Hx]].
    destruct (assignable k'); [|destruct Hx].
    destruct Hx as [Hx|[]]. injection Hx as <- <-.
    rewrite Forall_forall in IH. exact (IH _ Hin).
Qed.

Lemma cleanDataTherapist_free (d : Json) :
  free isNull (cleanDataTherapist d) = true.
Proof.
  induction d as [| |b|t|s|items IH|fields IH] using Json_nested_ind;
    try reflexivity.
  - simpl. apply forallb_forall. intros x Hx.
    apply in_map_iff in Hx as [y [<- Hy]].
    rewrite Forall_forall in IH. now apply IH.
  - simpl. apply forallb_forall. intros [k v] Hx.
    apply in_flat_map in Hx as [[k' v'] [Hin Hx]].
    destruct (assignable k'); [|destruct Hx].
    destruct Hx as [Hx|[]]. injection Hx as <- <-.
    rewrite Forall_forall in IH. exact (IH _ Hin).
Qed.

Lemma cleanData_id (d : Json) :
  plainKeys d = true -> free isNullish d = true -> cleanData d = d.
Proof.
  induction d as [| |b|t|s|items IH|fields IH] using Json_nested_ind;
    try reflexivity; try discriminate.
  - simpl. intros Hp Hf. f_equal.
    rewrite forallb_forall in Hp, Hf. rewrite Forall_forall in IH.
    rewrite <- (map_id items) at 2. apply map_ext_in.
    intros x Hx. now apply IH; [|apply Hp|apply Hf].
  - simpl. intros Hp Hf. f_equal. rewrite (flat_map_plain _ _ Hp).
    rewrite forallb_forall in Hf. rewrite Forall_forall in IH.
    rewrite <- (map_id fields) at 2. apply map_ext_in.
    intros [k v] Hx. f_equal.
    apply (IH _ Hx); [exact (plain_field _ _ _ Hp Hx)|exact (Hf _ Hx)].
Qed.

Lemma cleanData_shape (d : Json) :
  plainKeys d = true -> shapeOf (cleanData d) = shapeOf d.
Proof.
  induction d as [| |b|t|s|items IH|fields IH] using Json_nested_ind;
    try reflexivity.
  - simpl. intros Hp. f_equal. rewrite map_map.
    rewrite forallb_forall in Hp. rewrite Forall_forall in IH.
    apply map_ext_in. intros x Hx. now apply IH; [|apply Hp].
  - simpl. intros Hp. f_equal. rewrite (flat_map_plain _ _ Hp).
    rewrite map_map. rewrite Forall_forall in IH.
    apply map_ext_in. intros [k v] Hx. f_equal.
    apply (IH _ Hx). exact (plain_field _ _ _ Hp Hx).
Qed.

Lemma versions_agree (d : Json) :
  plainKeys d = true ->
  (cleanDataTherapist d = cleanData d <-> free isUndefined d = true).
Proof.
  induction d as [| |b|t|s|items IH|fields IH] using Json_nested_ind;
    try (intros _; split; reflexivity).
  - intros _. split; discriminate.
  - simpl. intros Hp. rewrite forallb_forall in Hp.
    rewrite Forall_forall in IH. split.
    + intros E. injection E as E. apply forallb_forall. intros x Hx.
      apply (IH _ Hx (Hp _ Hx)). exact (map_eq_In _ _ _ _ _ E x Hx).
    + intros Hf. rewrite forallb_forall in Hf. f_equal.
      apply map_ext_in. intros x Hx.
      apply (IH _ Hx (Hp _ Hx)). now apply Hf.
  - simpl. intros Hp. rewrite !(flat_map_plain _ _ Hp).
    rewrite Forall_forall in IH. split.
    + intros E. injection E as E. apply forallb_forall. intros [k v] Hx.
      apply (IH _ Hx (plain_field _ _ _ Hp Hx)).
      pose proof (map_eq_In _ _ _ _ _ E (k, v) Hx) as Ekv. simpl in Ekv.
      now injection Ekv.
    + intros Hf. rewrite forallb_forall in Hf. f_equal.
      apply map_ext_in. intros [k v] Hx. f_equal.
      apply (IH _ Hx (plain_field _ _ _ Hp Hx)). exact (Hf _ Hx).
Qed.

(** X20: Whatever the server sends, UserProfile's [cleanData] hands the
    form data with no [null] and no [undefined] left at any depth. *)
Theorem cleanData_leaves_no_null_or_undefined (data : Json) :
  free isNullish (cleanData data) = true.
Proof. apply cleanData_free. Qed.

(** X21: On data whose objects have no [__proto__] key, [cleanData] keeps
    the keys of every object and the length of every array, and it
    returns the data unchanged exactly when they held no [null] and no
    [undefined]. *)
Theorem cleanData_changes_only_null_and_undefined (data : Json)
    (plain : plainKeys data = true) :
  shapeOf (cleanData data) = shapeOf data
  /\ (cleanData data = data <-> free isNullish data = true).
Proof.
  split; [now apply cleanData_shape|]. split.
  - intros E. rewrite <- E. apply cleanData_free.
  - now apply cleanData_id.
Qed.

(** X22: TherapistProfile's [cleanData] removes every [null] but lets
    [undefined] through: on data with plain keys it agrees with
    UserProfile's exactly when the data hold no [undefined]. *)
Theorem cleanDataTherapist_lets_undefined_through (data : Json)
    (plain : plainKeys data = true) :
  free isNull (cleanDataTherapist data) = true
  /\ (cleanDataTherapist data = cleanData data
      <-> free isUndefined data = true).
Proof.
  split; [apply cleanDataTherapist_free|now apply versions_agree].
Qed.

End ProfileFacts.

(* ================================================================== *)
(** * Facts about the comma-separated fields of Register.tsx *)
(* ================================================================== *)

Module RegisterFacts.
Import Js Register.

Lemma split_not_nil (sep : N) (s : jsstring) : split sep s <> [].
Proof.
  destruct s as [|c s]; simpl; [discriminate|].
  destruct (c =? sep)%N; [discriminate|].
  destruct (split sep s); discriminate.
Qed.

Lemma split_app (sep : N) (a b : jsstring) :
  ~ In sep a -> split sep (a ++ sep :: b) = a :: split sep b.
Proof.
  induction a as [|c a IH]; simpl; intros H.
  - now rewrite N.eqb_refl.
  - destruct (N.eqb_spec c sep) as [->|_]; [tauto|].
    rewrite IH by tauto. reflexivity.
Qed.

Lemma split_prefix (sep : N) (a s : jsstring) :
  ~ In sep a ->
  exists p ps, split sep s = p :: ps /\ split sep (a ++ s) = (a ++ p) :: ps.
Proof.
  induction a as [|c a IH]; simpl; intros H.
  - destruct (split sep s) as [|p ps] eqn:E;
      [now apply split_not_nil in E|]. now exists p, ps.
  - destruct (IH ltac:(tauto)) as [p [ps [E1 E2]]].
    exists p, ps. split; [assumption|].
    destruct (N.eqb_spec c sep) as [->|_]; [tauto|]. now rewrite E2.
Qed.

Lemma split_pieces (sep : N) (s : jsstring) :
  Forall (fun p => ~ In sep p) (split sep s)
  /\ List.length (split sep s) = S (count_occ N.eq_dec s sep).
Proof.
  induction s as [|c s [IH1 IH2]]; simpl.
  - split; [constructor; [tauto|constructor]|reflexivity].
  - destruct (N.eqb_spec c sep) as [->|Hc].
    + destruct (N.eq_dec sep sep) as [_|N]; [|congruence]. split.
      * constructor; [simpl; tauto|assumption].
      * simpl. now rewrite IH2.
    + destruct (N.eq_dec c sep) as [->|_]; [congruence|].
      destruct (split sep s) as [|p ps]; [discriminate|].
      inversion IH1 as [|? ? Hp Hps]; subst. split.
      * constructor; [|assumption]. simpl. tauto.
      * exact IH2.
Qed.

Lemma dropWhile_In (p : N -> bool) (s : jsstring) (c : N) :
  In c (dropWhile p s) -> In c s.
Proof.
  induction s as [|a s IH]; simpl; [tauto|].
  destruct (p a); simpl; tauto.
Qed.

Lemma trim_In (s : jsstring) (c : N) : In c (trim s) -> In c s.
Proof.
  unfold trim, rtrim, ltrim. intros H.
  apply in_rev, dropWhile_In, in_rev in H. now apply dropWhile_In in H.
Qed.

Lemma dropWhile_snoc (p : N -> bool) (s : jsstring) (c : N) :
  p c = false -> dropWhile p (s ++ [c]) = dropWhile p s ++ [c].
Proof.
  intros Hc. induction s as [|a s IH]; simpl.
  - now rewrite Hc.
  - destruct (p a); [exact IH|reflexivity].
Qed.

Lemma dropWhile_stops (p : N -> bool) (s : jsstring) :
  dropWhile p s = []
  \/ exists c r, dropWhile p s = c :: r /\ p c = false.
Proof.
  induction s as [|a s IH]; simpl; [now left|].
  destruct (p a) eqn:E; [exact IH|]. right. now exists a, s.
Qed.

Lemma dropWhile_idem (p : N -> bool) (s : jsstring) :
  dropWhile p (dropWhile p s) = dropWhile p s.
Proof.
  destruct (dropWhile_stops p s) as [->|[c [r [-> Hc]]]]; [reflexivity|].
  simpl. now rewrite Hc.
Qed.

Lemma trim_idem (s : jsstring) : trim (trim s) = trim s.
Proof.
  unfold trim, ltrim.
  destruct (dropWhile_stops isWhitespace s) as [->|[c [r [-> Hc]]]];
    [reflexivity|].
  assert (E : rtrim (c :: r)
              = c :: rev (dropWhile isWhitespace (rev r))).
  { unfold rtrim. simpl rev at 2. rewrite dropWhile_snoc by assumption.
    now rewrite rev_app_distr. }
  rewrite E. simpl dropWhile at 1. rewrite Hc. rewrite <- E.
  unfold rtrim. rewrite rev_involutive, dropWhile_idem. reflexivity.
Qed.

Lemma ltrim_app (ws s : jsstring) :
  whitespaceOnly ws -> ltrim (ws ++ s) = ltrim s.
Proof.
  unfold ltrim. induction 1 as [|c ws Hc _ IH]; simpl; [reflexivity|].
  now rewrite Hc.
Qed.

Lemma trim_app (ws s : jsstring) :
  whitespaceOnly ws -> trim (ws ++ s) = trim s.
Proof. intros H. unfold trim. now rewrite ltrim_app. Qed.

Lemma whitespace_no_comma (ws : jsstring) :
  whitespaceOnly ws -> ~ In comma ws.
Proof.
  intros H Hin. unfold whitespaceOnly in H. rewrite Forall_forall in H.
  apply H in Hin. vm_compute in Hin. discriminate.
Qed.

(** X23: What Register sends for a field that was filled in has one
    entry more than the text has commas, so it is never the empty list,
    and every entry is free of commas and of surrounding white space. *)
Theorem listOf_entries (s : jsstring) :
  List.length (listOf (Some s)) = S (count_occ N.eq_dec s comma)
  /\ Forall Clean (listOf (Some s)).
Proof.
  destruct (split_pieces comma s) as [P L]. unfold listOf. split.
  - now rewrite length_map.
  - apply Forall_forall. intros t Ht.
    apply in_map_iff in Ht as [p [<- Hp]].
    rewrite Forall_forall in P. split; [apply trim_idem|].
    intros Hc. apply trim_In in Hc. exact (P _ Hp Hc).
Qed.

(** X24: Entries without commas and surrounding white space, typed with
    a comma and any white space between them, are sent as typed; in
    particular every non-empty list of such entries can be sent. *)
Theorem listOf_join (ws : jsstring) (tags : list jsstring)
    (blank : whitespaceOnly ws) (some : tags <> [])
    (clean : Forall Clean tags) :
  listOf (Some (ChatClient.join (comma :: ws) tags)) = tags.
Proof.
  unfold listOf. induction tags as [|x tags IH]; [congruence|].
  inversion clean as [|? ? [Tx Cx] Ctags]; subst.
  destruct tags as [|y tags].
  - simpl.
    assert (E : split comma x = [x]).
    { rewrite <- (app_nil_r x) at 1.
      destruct (split_prefix comma x [] Cx) as [p [ps [E1 E2]]].
      simpl in E1. injection E1 as <- <-. now rewrite E2, app_nil_r. }
    rewrite E. simpl. now rewrite Tx.
  - change (ChatClient.join (comma :: ws) (x :: y :: tags))
      with (x ++ comma :: ws ++ ChatClient.join (comma :: ws) (y :: tags)).
    rewrite split_app by assumption.
    destruct (split_prefix comma ws
                (ChatClient.join (comma :: ws) (y :: tags))
                (whitespace_no_comma ws blank)) as [p [ps [E1 E2]]].
    rewrite E2. specialize (IH ltac:(discriminate) Ctags).
    rewrite E1 in IH. simpl in IH. simpl map.
    rewrite Tx, trim_app by assumption. now rewrite IH.
Qed.

End RegisterFacts.

(* ================================================================== *)
(** * Facts about the tables of AdminDashboard.tsx *)
(* ================================================================== *)

Module AdminUsersFacts.
Import Js AdminUsers.

Lemma matchesStatus_active (a : Account) :
  matchesStatus (js "active") a = isActive a.
Proof. reflexivity. Qed.

Lemma matchesStatus_other (other : jsstring) (a : Account) :
  other <> [] -> Js.eqb other (js "active") = false ->
  matchesStatus other a = negb (isActive a).
Proof.
  intros H E. unfold matchesStatus. destruct other; [congruence|].
  now rewrite E.
Qed.


(** X25: The Active view and the Inactive view of a search share no
    account and together hold the accounts of the All Status view, and
    every status value other than the empty one and 'active' gives the
    Inactive view. *)
Theorem status_views_split_the_table
    (toLowerCase : jsstring -> jsstring) (searchTerm other : jsstring)
    (accounts : list Account)
    (chosen : other <> []) (inactive : Js.eqb other (js "active") = false) :
  Permutation (filtered toLowerCase searchTerm [] accounts)
    (filtered toLowerCase searchTerm (js "active") accounts
     ++ filtered toLowerCase searchTerm other accounts)
  /\ (forall a, In a (filtered toLowerCase searchTerm (js "active") accounts)
                -> In a (filtered toLowerCase searchTerm other accounts)
                -> False).
Proof.
  unfold filtered. split.
  - induction accounts as [|a l IH]; [constructor|].
    cbn [filter]. rewrite matchesStatus_active.
    rewrite (matchesStatus_other other a chosen inactive).
    cbn [matchesStatus].
    destruct (matchesSearch toLowerCase searchTerm a); cbn [andb];
      [|exact IH].
    destruct (isActive a); cbn [negb].
    + now constructor.
    + now apply Permutation_cons_app.
  - intros a H1 H2.
    apply filter_In in H1 as [_ H1]. apply filter_In in H2 as [_ H2].
    rewrite matchesStatus_active in H1.
    rewrite (matchesStatus_other other a chosen inactive) in H2.
    apply andb_prop in H1 as [_ H1]. apply andb_prop in H2 as [_ H2].
    rewrite H1 in H2. discriminate.
Qed.


End AdminUsersFacts.

(* ================================================================== *)
(** * Facts about the booking dialog *)
(* ================================================================== *)

Module BookingDialogFacts.
Import Js Slots BookingDialog.

(** X27: When the slots of a first date were loaded and loading those of
    a second date fails, the list of the first date stays on screen: a
    slot picked from it is booked for the second date. *)
Theorem failed_reload_books_stale_slot
    (api : N -> N -> option (list TimeSlot)) (t d1 d2 : N)
    (listed : list TimeSlot) (slot : TimeSlot) (f : Form)
    (idle : bookingLoading f = false)
    (first : api t d1 = Some listed) (second : api t d2 = None)
    (offered : In slot listed) :
  exists request,
    handleBookAppointment (Some t)
      (clickSlot slot
         (pickDate (Some t) (Some d2) api
            (pickDate (Some t) (Some d1) api f)))
    = Some request
    /\ date request = d2 /\ startTime request = slotStart slot.
Proof.
  unfold pickDate, slotsEffect, handleDateChange, clickSlot.
  cbn [selectedDate slots loadAvailableSlots]. rewrite first.
  cbn [selectedDate slots loadAvailableSlots]. rewrite second.
  cbn [availableSlots loading negb andb].
  assert (E : existsb
                (fun s => Nat.eqb (slotStart s) (slotStart slot)
                          && Nat.eqb (slotEnd s) (slotEnd slot)) listed
              = true).
  { apply existsb_exists. exists slot. split; [assumption|].
    now rewrite !Nat.eqb_refl. }
  rewrite E. unfold handleBookAppointment.
  cbn [bookingLoading selectedDate selectedTimeSlot]. rewrite idle.
  eexists. split; [reflexivity|]. split; reflexivity.
Qed.

End BookingDialogFacts.

(* ================================================================== *)
(** * More runs *)
(* ================================================================== *)

Module MoreRuns.
Import Js.

Module ChatbotMoreRuns.
Import Chatbot Chatbot.Examples ChatbotMore ChatbotMore.Examples.
Import ChatbotMoreFacts.

(** X1 at work: the message of the crisis run. *)
Lemma safetyMessage_run :
  generateLocalResponse asciiToLowerCase lastIndex crisisText
  = safetyMessage
  /\ exists w, In w crisisKeywords
               /\ Contains (asciiToLowerCase crisisText) w.
Proof.
  assert (H : generateLocalResponse asciiToLowerCase lastIndex crisisText
              = safetyMessage) by (vm_compute; reflexivity).
  split; [exact H|].
  apply (safetyMessage_only_for_crisis asciiToLowerCase lastIndex
           crisisText H).
Defined.

(** X2 at work: the save of the reply fails. *)
Lemma send_error_run :
  fst (send asciiToLowerCase lastIndex userRowsOnly clock0 1%N plainBody
         db0) = NextError
  /\ (snd (send asciiToLowerCase lastIndex userRowsOnly clock0 1%N
             plainBody db0) = db0
      \/ (userRowsOnly (userRow clock0 1%N plainBody) = true
          /\ userRowsOnly
               (aiRow asciiToLowerCase lastIndex clock0 1%N plainBody)
             = false
          /\ snd (send asciiToLowerCase lastIndex userRowsOnly clock0 1%N
                    plainBody db0)
             = db0 ++ [userRow clock0 1%N plainBody]
          /\ find 1%N None
               (snd (send asciiToLowerCase lastIndex userRowsOnly clock0
                       1%N plainBody db0))
             = find 1%N None db0 ++ [userRow clock0 1%N plainBody])).
Proof.
  assert (H : fst (send asciiToLowerCase lastIndex userRowsOnly clock0 1%N
                     plainBody db0) = NextError)
    by (vm_compute; reflexivity).
  split; [exact H|].
  apply (send_error_may_keep_user_row asciiToLowerCase lastIndex
           userRowsOnly clock0 1%N plainBody db0 H).
Defined.

(** X3 at work: a first message without a session id, and a second one
    that sends back the id of the response. *)
Lemma returned_session_run :
  send asciiToLowerCase lastIndex allSaved clock0 1%N newBody db0
  = (Json (aiRow asciiToLowerCase lastIndex clock0 1%N newBody)
       newSession,
     db0 ++ [userRow clock0 1%N newBody;
             aiRow asciiToLowerCase lastIndex clock0 1%N newBody])
  /\ send asciiToLowerCase lastIndex allSaved clock1 1%N
       (followUp (js "thanks") newSession)
       (db0 ++ [userRow clock0 1%N newBody;
                aiRow asciiToLowerCase lastIndex clock0 1%N newBody])
     = (Json (aiRow asciiToLowerCase lastIndex clock1 1%N
                (followUp (js "thanks") newSession))
          newSession,
        (db0 ++ [userRow clock0 1%N newBody;
                 aiRow asciiToLowerCase lastIndex clock0 1%N newBody])
        ++ [userRow clock1 1%N (followUp (js "thanks") newSession);
            aiRow asciiToLowerCase lastIndex clock1 1%N
              (followUp (js "thanks") newSession)])
  /\ newSession <> [] /\ newSession = newSession
  /\ exists u2,
       (db0 ++ [userRow clock0 1%N newBody;
                aiRow asciiToLowerCase lastIndex clock0 1%N newBody])
       ++ [userRow clock1 1%N (followUp (js "thanks") newSession);
           aiRow asciiToLowerCase lastIndex clock1 1%N
             (followUp (js "thanks") newSession)]
       = (db0 ++ [userRow clock0 1%N newBody;
                  aiRow asciiToLowerCase lastIndex clock0 1%N newBody])
         ++ [u2; aiRow asciiToLowerCase lastIndex clock1 1%N
                   (followUp (js "thanks") newSession)]
       /\ sessionId u2 = newSession
       /\ sessionId
            (aiRow asciiToLowerCase lastIndex clock1 1%N
               (followUp (js "thanks") newSession)) = newSession.
Proof.
  assert (H1 : send asciiToLowerCase lastIndex allSaved clock0 1%N newBody
                 db0
               = (Json (aiRow asciiToLowerCase lastIndex clock0 1%N newBody)
                    newSession,
                  db0 ++ [userRow clock0 1%N newBody;
                          aiRow asciiToLowerCase lastIndex clock0 1%N
                            newBody]))
    by (vm_compute; reflexivity).
  assert (H2 : send asciiToLowerCase lastIndex allSaved clock1 1%N
                 (followUp (js "thanks") newSession)
                 (db0 ++ [userRow clock0 1%N newBody;
                          aiRow asciiToLowerCase lastIndex clock0 1%N
                            newBody])
               = (Json (aiRow asciiToLowerCase lastIndex clock1 1%N
                          (followUp (js "thanks") newSession))
                    newSession,
                  (db0 ++ [userRow clock0 1%N newBody;
                           aiRow asciiToLowerCase lastIndex clock0 1%N
                             newBody])
                  ++ [userRow clock1 1%N
                        (followUp (js "thanks") newSession);
                      aiRow asciiToLowerCase lastIndex clock1 1%N
                        (followUp (js "thanks") newSession)]))
    by (vm_compute; reflexivity).
  split; [exact H1|]. split; [exact H2|].
  exact (returned_session_is_kept asciiToLowerCase lastIndex allSaved
           clock0 clock1 1%N newBody db0 _ _ _ _ newSession newSession
           (js "thanks") H1 H2).
Defined.

(** X4 at work: the rows of user 1. *)
Lemma chronological_run :
  history 1%N allRows db0 = Some history1
  /\ Chronological (messages history1).
Proof.
  assert (H : history 1%N allRows db0 = Some history1)
    by (vm_compute; reflexivity).
  split; [exact H|].
  apply (history_is_chronological 1%N allRows db0 history1 H).
Defined.

(** X5 at work: the first page of two rows. *)
Lemma bounded_page_run :
  queryOf firstTwo = Some firstTwoQuery
  /\ history 1%N firstTwoQuery db0 = Some latestTwo
  /\ (forall limit, p_limit firstTwo = Some (Int limit) -> limit <> 0%Z ->
                    List.length (messages latestTwo) <= Z.to_nat limit)
  /\ (p_limit firstTwo = None -> List.length (messages latestTwo) <= 50)
  /\ total latestTwo
     = List.length (find 1%N (p_sessionId firstTwo) db0)
  /\ List.length (messages latestTwo) <= total latestTwo.
Proof.
  assert (Hq : queryOf firstTwo = Some firstTwoQuery) by reflexivity.
  assert (H : history 1%N firstTwoQuery db0 = Some latestTwo)
    by (vm_compute; reflexivity).
  split; [exact Hq|]. split; [exact H|].
  apply (history_page_is_bounded 1%N firstTwo firstTwoQuery db0 latestTwo
           Hq H).
Defined.

Lemma distinct_times : NoDup (map createdAt (find 1%N None db0)).
Proof.
  vm_compute.
  repeat (constructor;
          [intros H; simpl in H;
           repeat (destruct H as [H|H]; [discriminate H|]); exact H|]).
  constructor.
Defined.

(** X6 at work: two pages of two rows. *)
Lemma pages_tile_run :
  (0 < 2)%Z
  /\ NoDup (map createdAt (find 1%N None db0))
  /\ (forall sorted,
         Permutation (find 1%N None db0) sorted ->
         NewestFirst createdAt sorted ->
         sorted = sortDesc createdAt (find 1%N None db0))
  /\ (forall p, 1 <= p ->
         exists q r,
           queryOf (pageQuery None (Z.of_nat p) 2) = Some q
           /\ history 1%N q db0 = Some r
           /\ pageNewestFirst 1%N None 2 db0 p = rev (messages r))
  /\ List.concat (map (pageNewestFirst 1%N None 2 db0) (seq 1 2))
     = firstn (2 * Z.to_nat 2) (sortDesc createdAt (find 1%N None db0)).
Proof.
  assert (H : (0 < 2)%Z) by reflexivity.
  split; [exact H|]. split; [exact distinct_times|].
  apply (history_pages_tile 1%N None 2 db0 2 H distinct_times).
Defined.

(** X9 at work: the call of the plain body. *)
Lemma send_then_read_run :
  send asciiToLowerCase lastIndex allSaved clock0 1%N plainBody db0
  = (Json plainAiRow (js "s1"), db0 ++ [plainUserRow; plainAiRow])
  /\ find 1%N (Some (js "s1")) (db0 ++ [plainUserRow; plainAiRow])
     = find 1%N (Some (js "s1")) db0
       ++ [userRow clock0 1%N plainBody; plainAiRow]
  /\ (forall scan,
         Permutation scan (db0 ++ [plainUserRow; plainAiRow]) ->
         In (js "s1") (map _id (sessions 1%N scan)))
  /\ (forall v q, v <> 1%N ->
                  history v q (db0 ++ [plainUserRow; plainAiRow])
                  = history v q db0
                  /\ sessions v (db0 ++ [plainUserRow; plainAiRow])
                     = sessions v db0).
Proof.
  assert (H : send asciiToLowerCase lastIndex allSaved clock0 1%N plainBody
                db0
              = (Json plainAiRow (js "s1"),
                 db0 ++ [plainUserRow; plainAiRow]))
    by (vm_compute; reflexivity).
  split; [exact H|].
  apply (send_then_history_and_sessions asciiToLowerCase lastIndex allSaved
           clock0 1%N plainBody db0 _ plainAiRow (js "s1") H).
Defined.

End ChatbotMoreRuns.

Module ChatClientRuns.
Import Chatbot.Examples ChatClient ChatClient.Examples ChatClientFacts.

(** X11 at work: three turns, the second one blank. *)
Lemma conversation_run :
  (forall doc, allSaved doc = true)
  /\ exists added,
       snd (converse asciiToLowerCase lastIndex allSaved NoResponse 1%N
              turns initial db0) = db0 ++ added
       /\ List.length
            (messages
               (fst (converse asciiToLowerCase lastIndex allSaved
                       NoResponse 1%N turns initial db0)))
          = List.length added
       /\ ((added = []
            /\ sessionId
                 (fst (converse asciiToLowerCase lastIndex allSaved
                         NoResponse 1%N turns initial db0)) = None)
           \/ exists s,
                s <> []
                /\ sessionId
                     (fst (converse asciiToLowerCase lastIndex allSaved
                             NoResponse 1%N turns initial db0)) = Some s
                /\ Forall (fun m => Chatbot.sessionId m = s
                                    /\ Chatbot.user m = 1%N) added).
Proof.
  assert (H : forall doc, allSaved doc = true) by reflexivity.
  split; [exact H|].
  apply (conversation_stays_in_one_session asciiToLowerCase lastIndex
           allSaved NoResponse 1%N turns db0 H).
Defined.

End ChatClientRuns.

Module ClientSessionRuns.
Import Guards ClientSession ClientSession.Examples ClientSessionFacts.

(** X14 at work: a therapist signs in. *)
Lemma login_run :
  js "t0k3n" <> []
  /\ route (fst (onLogin (js "t0k3n") therapistUser))
       (snd (onLogin (js "t0k3n") therapistUser))
     = Shows (homePage therapistUser).
Proof.
  assert (H : js "t0k3n" <> []) by (vm_compute; discriminate).
  split; [exact H|].
  apply (login_lands_on_own_page (js "t0k3n") therapistUser H).
Defined.

(** X15 at work: the therapist signs out. *)
Lemma signed_out_run :
  In (js "/therapist") protectedPaths
  /\ route (fst (handleLogout signedIn)) (js "/therapist")
     = RedirectsTo (js "/login")
  /\ route (fst (onResponseError 401 signedIn)) (js "/therapist")
     = RedirectsTo (js "/login")
  /\ authorizationHeader (fst (handleLogout signedIn)) = None
  /\ authorizationHeader (fst (onResponseError 401 signedIn)) = None.
Proof.
  assert (H : In (js "/therapist") protectedPaths)
    by (right; left; reflexivity).
  split; [exact H|].
  apply (signed_out_is_locked_out signedIn (js "/therapist") H).
Defined.

End ClientSessionRuns.

Module ResetAdminPasswordRuns.
Import ResetAdminPassword ResetAdminPassword.Examples.
Import ResetAdminPasswordFacts.

(** X16 at work: the address given after [--email]. *)
Lemma values_run :
  get (js "email") (parseArgs argv1) = Some (js "a@b.c")
  /\ js "a@b.c" <> [] /\ isFlag (js "a@b.c") = false.
Proof.
  assert (H : get (js "email") (parseArgs argv1) = Some (js "a@b.c"))
    by (vm_compute; reflexivity).
  split; [exact H|].
  apply (parseArgs_values_are_values argv1 (js "email") (js "a@b.c") H).
Defined.

(** X17 at work: [--force] follows [--password] and is recorded itself. *)
Lemma every_flag_run :
  In (js "--force") (skipn 2 argv1)
  /\ isFlag (js "--force") = true
  /\ keyOf (js "--force") <> js "__proto__"
  /\ exists value, get (keyOf (js "--force")) (parseArgs argv1) = Some value.
Proof.
  assert (H1 : In (js "--force") (skipn 2 argv1))
    by (vm_compute; do 3 right; left; reflexivity).
  assert (H2 : isFlag (js "--force") = true) by (vm_compute; reflexivity).
  assert (H3 : keyOf (js "--force") <> js "__proto__")
    by (vm_compute; discriminate).
  split; [exact H1|]. split; [exact H2|]. split; [exact H3|].
  apply (parseArgs_records_every_flag argv1 (js "--force") H1 H2 H3).
Defined.

(** X18 at work: [--email] given twice. *)
Lemma last_flag_run :
  skipn 2 argv2
  = [js "--email"; js "old@b.c"] ++ js "--email"
    :: [js "new@b.c"; js "--force"]
  /\ isFlag (js "--email") = true
  /\ keyOf (js "--email") <> js "__proto__"
  /\ (forall b, In b [js "new@b.c"; js "--force"] -> isFlag b = true ->
                keyOf b <> keyOf (js "--email"))
  /\ get (keyOf (js "--email")) (parseArgs argv2)
     = Some (if negb (Nat.eqb (List.length (js "new@b.c")) 0)
                && negb (isFlag (js "new@b.c"))
             then js "new@b.c" else js "true").
Proof.
  assert (H1 : skipn 2 argv2
               = [js "--email"; js "old@b.c"] ++ js "--email"
                 :: [js "new@b.c"; js "--force"]) by reflexivity.
  assert (H2 : isFlag (js "--email") = true) by (vm_compute; reflexivity).
  assert (H3 : keyOf (js "--email") <> js "__proto__")
    by (vm_compute; discriminate).
  assert (H4 : forall b, In b [js "new@b.c"; js "--force"] ->
                         isFlag b = true ->
                         keyOf b <> keyOf (js "--email")).
  { intros b [<-|[<-|[]]] F.
    - vm_compute in F. discriminate F.
    - vm_compute. discriminate. }
  split; [exact H1|]. split; [exact H2|]. split; [exact H3|].
  split; [exact H4|].
  apply (parseArgs_last_flag_decides argv2 [js "--email"; js "old@b.c"]
           [js "new@b.c"; js "--force"] (js "--email") H1 H2 H3 H4).
Defined.

End ResetAdminPasswordRuns.

Module ProfileRuns.
Import Profile Profile.Examples ProfileFacts.

(** X21 at work: a profile with nulls, and one without. *)
Lemma cleanData_run :
  plainKeys profile = true
  /\ shapeOf (cleanData profile) = shapeOf profile
  /\ (cleanData profile = profile <-> free isNullish profile = true).
Proof.
  assert (H : plainKeys profile = true) by (vm_compute; reflexivity).
  split; [exact H|].
  apply (cleanData_changes_only_null_and_undefined profile H).
Defined.

(** X22 at work: the same profile, whose address has an undefined zip. *)
Lemma cleanDataTherapist_run :
  plainKeys profile = true
  /\ free isNull (cleanDataTherapist profile) = true
  /\ (cleanDataTherapist profile = cleanData profile
      <-> free isUndefined profile = true).
Proof.
  assert (H : plainKeys profile = true) by (vm_compute; reflexivity).
  split; [exact H|].
  apply (cleanDataTherapist_lets_undefined_through profile H).
Defined.

End ProfileRuns.

Module RegisterRuns.
Import Register Register.Examples RegisterFacts.

Lemma tags_clean : Forall Clean tags.
Proof.
  repeat constructor; try (vm_compute; reflexivity);
    vm_compute; intros H;
    repeat (destruct H as [H|H]; [discriminate H|]); exact H.
Defined.

(** X24 at work: two specialisations typed with a comma and a blank. *)
Lemma listOf_join_run :
  whitespaceOnly (js " ") /\ tags <> [] /\ Forall Clean tags
  /\ listOf (Some (ChatClient.join (comma :: js " ") tags)) = tags.
Proof.
  assert (H1 : whitespaceOnly (js " "))
    by (vm_compute; repeat constructor).
  assert (H2 : tags <> []) by discriminate.
  split; [exact H1|]. split; [exact H2|]. split; [exact tags_clean|].
  apply (listOf_join (js " ") tags H1 H2 tags_clean).
Defined.

End RegisterRuns.

Module AdminUsersRuns.
Import AdminUsers AdminUsers.Examples AdminUsersFacts.

(** X25 at work: two accounts, one of them active. *)
Lemma status_views_run :
  js "inactive" <> [] /\ Js.eqb (js "inactive") (js "active") = false
  /\ Permutation
       (filtered asciiToLowerCase (js "Example") [] [ada; bob])
       (filtered asciiToLowerCase (js "Example") (js "active") [ada; bob]
        ++ filtered asciiToLowerCase (js "Example") (js "inactive")
             [ada; bob])
  /\ (forall a,
         In a (filtered asciiToLowerCase (js "Example") (js "active")
                 [ada; bob])
         -> In a (filtered asciiToLowerCase (js "Example") (js "inactive")
                    [ada; bob])
         -> False).
Proof.
  assert (H1 : js "inactive" <> []) by (vm_compute; discriminate).
  assert (H2 : Js.eqb (js "inactive") (js "active") = false)
    by (vm_compute; reflexivity).
  split; [exact H1|]. split; [exact H2|].
  apply (status_views_split_the_table asciiToLowerCase (js "Example")
           (js "inactive") [ada; bob] H1 H2).
Defined.


End AdminUsersRuns.

Module BookingDialogRuns.
Import Slots BookingDialog BookingDialog.Examples BookingDialogFacts.

(** X27 at work: day 10 loads, day 11 fails, nine o'clock is booked for
    day 11. *)
Lemma stale_slot_run :
  bookingLoading initialForm = false
  /\ flaky 7 10 = Some [nine] /\ flaky 7 11 = None /\ In nine [nine]
  /\ exists request,
       handleBookAppointment (Some 7%N)
         (clickSlot nine
            (pickDate (Some 7%N) (Some 11%N) flaky
               (pickDate (Some 7%N) (Some 10%N) flaky initialForm)))
       = Some request
       /\ date request = 11%N /\ startTime request = slotStart nine.
Proof.
  assert (H1 : bookingLoading initialForm = false) by reflexivity.
  assert (H2 : flaky 7 10 = Some [nine]) by reflexivity.
  assert (H3 : flaky 7 11 = None) by reflexivity.
  assert (H4 : In nine [nine]) by (left; reflexivity).
  split; [exact H1|]. split; [exact H2|]. split; [exact H3|].
  split; [exact H4|].
  apply (failed_reload_books_stale_slot flaky 7 10 11 [nine] nine
           initialForm H1 H2 H3 H4).
Defined.

End BookingDialogRuns.

End MoreRuns.
